(** * B3FileOrganizer: the Zettelkasten card engine

    A shallow embedding of [b3fileorganizer/core/zettelkasten.py]
    (class [ZettelkastenManager]) and [b3fileorganizer/core/zettel_indexer.py]
    (class [ZettelIndexer]), and the properties of numbering, cross-references,
    thematic connections and the search index.

    Conventions of the embedding:
    - A Python [str] is the [string] of its UTF-8 bytes.  Stripping,
      slicing, path normalisation and JSON escaping follow the code points;
      [lower], [\w], [split] and [isalpha] are those of ASCII text, and the
      theorems that depend on them are stated for ASCII text ([Str.isascii]).
    - Paths are those of [pathlib] on a POSIX system.
    - A Python method of the manager is a computation in the monad [M]: it
      takes the state (the object's attributes and the outside world) and
      returns a result or a raised exception together with the state reached.
      State changes made before an exception is raised are kept, as in Python.
    - Dictionaries accessed by key only are [gmap]s; [card_index], whose
      iteration order is observable, is an insertion-ordered association list.
    - The outside world holds the JSON documents, the card files and, for
      each path, whether creating a directory, writing or reading fails. *)

From Stdlib Require Import ZArith NArith String Ascii List Sorted Lia.
From stdpp Require Import base option list gmap strings fin_maps pretty.

(** ** Python values and exceptions *)

Inductive exn : Type :=
  | KeyError (key : string)
  | TypeError
  | AttributeError
  | IndexError
  | OSError (msg : string)
  | JSONDecodeError
  | InterfaceError.

Inductive res (A : Type) : Type :=
  | Ok (a : A)
  | Raise (e : exn).
Arguments Ok {A} a.
Arguments Raise {A} e.

Definition res_bind {A B} (r : res A) (k : A → res B) : res B :=
  match r with Ok a => k a | Raise e => Raise e end.

Definition is_ok {A} (r : res A) : Prop :=
  match r with Ok _ => True | Raise _ => False end.

(** A JSON document on disk: not there, unreadable, or holding a value. *)
Inductive stored (A : Type) : Type :=
  | Absent
  | Corrupt
  | Stored (a : A).
Arguments Absent {A}.
Arguments Corrupt {A}.
Arguments Stored {A} a.

(** Values of the numbering scheme: a counter, a list of ids, or the
    per-parent table of subtopic ids. *)
Inductive jval : Type :=
  | JNum (n : Z)
  | JList (l : list string)
  | JSubs (d : gmap string (list string)).

Global Instance jval_eq_dec : EqDecision jval.
Proof. solve_decision. Defined.

(** Values of the fields of a card-index entry. *)
Inductive fval : Type :=
  | FNull
  | FStr (s : string)
  | FList (l : list string).

Global Instance fval_eq_dec : EqDecision fval.
Proof. solve_decision. Defined.

(** One entry of [zettel_numbering_rules]: [rule.get("prefix", "")] and
    [rule.get("increment_field", None)]. *)
Record rule : Type := {
  prefix : string;
  increment_field : option string
}.

(** ** Strings *)

Module Str.

Definition code (c : ascii) : nat := nat_of_ascii c.

Definition is_lower (c : ascii) : bool := (97 <=? code c) && (code c <=? 122).
Definition is_upper (c : ascii) : bool := (65 <=? code c) && (code c <=? 90).
Definition is_digit (c : ascii) : bool := (48 <=? code c) && (code c <=? 57).

(** [c.isalpha()] *)
Definition isalpha (c : ascii) : bool := is_lower c || is_upper c.

(** [\w] *)
Definition is_word (c : ascii) : bool :=
  isalpha c || is_digit c || bool_decide (c = "_"%char).

(** Python's ASCII whitespace: tab, newline, vertical tab, form feed,
    carriage return, the separators 28 to 31, and space. *)
Definition isspace (c : ascii) : bool :=
  ((9 <=? code c) && (code c <=? 13)) || ((28 <=? code c) && (code c <=? 32)).

Definition lower_char (c : ascii) : ascii :=
  if is_upper c then ascii_of_nat (code c + 32) else c.

Definition chars (s : string) : list ascii := list_ascii_of_string s.
Definition of_chars (l : list ascii) : string := string_of_list_ascii l.

(** [s.lower()] *)
Definition lower (s : string) : string := of_chars (map lower_char (chars s)).

(** [s[-1]], which raises [IndexError] on the empty string. *)
Definition last_char (s : string) : option ascii := last (chars s).

(** ["/" in s] *)
Definition has_slash (s : string) : bool :=
  bool_decide ("/"%char ∈ chars s).

(** [s.split("/")[0]] *)
Fixpoint before_slash (s : string) : string :=
  match s with
  | EmptyString => EmptyString
  | String c r => if bool_decide (c = "/"%char) then EmptyString
                  else String c (before_slash r)
  end.

(** [s.isascii()] *)
Definition isascii (s : string) : bool :=
  forallb (λ c, code c <? 128) (chars s).

(** The whitespace of [str.isspace] beyond ASCII, as UTF-8 bytes: U+0085,
    U+00A0 (two bytes), and U+1680, U+2000 to U+200A, U+2028, U+2029,
    U+202F, U+205F, U+3000 (three bytes). *)
Definition is_space2 (a b : ascii) : bool :=
  (code a =? 194) && ((code b =? 133) || (code b =? 160)).

Definition is_space3 (a b c : ascii) : bool :=
  ((code a =? 225) && (code b =? 154) && (code c =? 128))
  || ((code a =? 226) && (code b =? 128)
      && (((128 <=? code c) && (code c <=? 138))
          || (code c =? 168) || (code c =? 169) || (code c =? 175)))
  || ((code a =? 226) && (code b =? 129) && (code c =? 159))
  || ((code a =? 227) && (code b =? 128) && (code c =? 128)).

(** Dropping the whitespace characters at the front. *)
Fixpoint drop_space (l : list ascii) : list ascii :=
  match l with
  | [] => []
  | a :: r =>
      if isspace a then drop_space r
      else
        match r with
        | b :: r' =>
            if is_space2 a b then drop_space r'
            else
              match r' with
              | c :: r'' => if is_space3 a b c then drop_space r'' else l
              | [] => l
              end
        | [] => l
        end
  end.

(** The same at the back, on the reversed bytes. *)
Fixpoint drop_space_rev (l : list ascii) : list ascii :=
  match l with
  | [] => []
  | a :: r =>
      if isspace a then drop_space_rev r
      else
        match r with
        | b :: r' =>
            if is_space2 b a then drop_space_rev r'
            else
              match r' with
              | c :: r'' => if is_space3 c b a then drop_space_rev r'' else l
              | [] => l
              end
        | [] => l
        end
  end.

(** [s.strip()] *)
Definition strip (s : string) : string :=
  of_chars (rev (drop_space_rev (rev (drop_space (chars s))))).

(** [s.replace(' ', '_')] *)
Definition spaces_to_underscores (s : string) : string :=
  of_chars (map (λ c, if bool_decide (c = " "%char) then "_"%char else c) (chars s)).

(** Maximal runs of the characters satisfying [keep]; [cur] is the run
    being read, reversed. *)
Fixpoint runs (keep : ascii → bool) (cur : list ascii) (l : list ascii)
    : list string :=
  match l with
  | [] => match cur with [] => [] | _ => [of_chars (rev cur)] end
  | c :: r =>
      if keep c then runs keep (c :: cur) r
      else match cur with
           | [] => runs keep [] r
           | _ => of_chars (rev cur) :: runs keep [] r
           end
  end.

(** [s.split()] *)
Definition split (s : string) : list string :=
  runs (λ c, negb (isspace c)) [] (chars s).

(** [re.findall(r'\b\w+\b', s)]: the maximal runs of word characters. *)
Definition findall_words (s : string) : list string :=
  runs is_word [] (chars s).

(** [" ".join(l)] *)
Fixpoint join (sep : string) (l : list string) : string :=
  match l with
  | [] => ""
  | [x] => x
  | x :: r => x +:+ sep +:+ join sep r
  end.

(** A byte that continues a character of more than one byte. *)
Definition is_continuation (c : ascii) : bool :=
  (128 <=? code c) && (code c <? 192).

(** The first [n] characters: each with the bytes that continue it. *)
Fixpoint take_chars (n : nat) (l : list ascii) : list ascii :=
  match l with
  | [] => []
  | c :: r =>
      if is_continuation c then c :: take_chars n r
      else match n with
           | 0 => []
           | S n' => c :: take_chars n' r
           end
  end.

(** [s[:n]] *)
Definition take (n : nat) (s : string) : string := of_chars (take_chars n (chars s)).

(** [str(Path(s))]: the root is kept ([//] when the path starts with exactly
    two slashes), empty segments and [.] segments are dropped, and the path
    without root and segments is [.]. *)
Definition path_root (l : list ascii) : string :=
  match l with
  | "/"%char :: "/"%char :: "/"%char :: _ => "/"
  | "/"%char :: "/"%char :: _ => "//"
  | "/"%char :: _ => "/"
  | _ => ""
  end.

Definition path_str (s : string) : string :=
  let segments :=
    filter (λ seg, seg ≠ ".") (runs (λ c, negb (bool_decide (c = "/"%char))) [] (chars s)) in
  match path_root (chars s), segments with
  | "", [] => "."
  | root, _ => root +:+ join "/" segments
  end.

End Str.

(** ** Paths *)

(** [base / seg] of [pathlib] on a POSIX system: an absolute [seg] replaces
    [base], an empty or [.] segment leaves [base] as it is. *)
Definition path_join (base seg : string) : string :=
  match seg with
  | "" | "." => base
  | String "/" _ => seg
  | _ => base +:+ "/" +:+ seg
  end.
Global Arguments path_join : simpl never.

(** ** Insertion-ordered dictionaries *)

Fixpoint od_get {V} (k : string) (d : list (string * V)) : option V :=
  match d with
  | [] => None
  | (k', v) :: r => if decide (k = k') then Some v else od_get k r
  end.

(** [d[k] = v]: an existing key keeps its place, a new key goes last. *)
Fixpoint od_set {V} (k : string) (v : V) (d : list (string * V))
    : list (string * V) :=
  match d with
  | [] => [(k, v)]
  | (k', v') :: r =>
      if decide (k = k') then (k, v) :: r else (k', v') :: od_set k v r
  end.

(** [list(d.keys())] *)
Definition od_keys {V} (d : list (string * V)) : list string := map fst d.

(** ** The outside world and the manager's state *)

Record world : Type := {
  (** the rule resource: its ["zettel_numbering_rules"] table when present,
      an object of rule objects; a resource whose table is [null] or not an
      object, which the manager would keep as it is, is not covered *)
  rules_doc : stored (option (gmap string rule));
  (** [numbering_scheme.json], [cross_references.json], [card_index.json] *)
  scheme_doc : stored (gmap string jval);
  xrefs_doc : stored (gmap string (list string));
  index_doc : stored (list (string * gmap string fval));
  (** what can be opened, by path, with its text; a path where something
      exists that cannot be read as text has [read_error] *)
  files : gmap string string;
  (** the error message when creating the directory fails *)
  mkdir_error : string → option string;
  (** the error message when opening the path for writing fails *)
  write_error : string → option string;
  (** whether reading the file at the path fails *)
  read_error : string → bool;
  (** the directory the three documents are in *)
  metadata_dir : string;
  (** the order in which a set built from a list is iterated, which the
      hash seed of the process decides *)
  set_order : list string → list string
}.

Definition set_scheme_doc (v : stored (gmap string jval)) (w : world) : world :=
  {| rules_doc := rules_doc w; scheme_doc := v; xrefs_doc := xrefs_doc w;
     index_doc := index_doc w; files := files w; mkdir_error := mkdir_error w;
     write_error := write_error w; read_error := read_error w;
     metadata_dir := metadata_dir w; set_order := set_order w |}.

Definition set_xrefs_doc (v : stored (gmap string (list string))) (w : world)
    : world :=
  {| rules_doc := rules_doc w; scheme_doc := scheme_doc w; xrefs_doc := v;
     index_doc := index_doc w; files := files w; mkdir_error := mkdir_error w;
     write_error := write_error w; read_error := read_error w;
     metadata_dir := metadata_dir w; set_order := set_order w |}.

Definition set_index_doc (v : stored (list (string * gmap string fval)))
    (w : world) : world :=
  {| rules_doc := rules_doc w; scheme_doc := scheme_doc w;
     xrefs_doc := xrefs_doc w; index_doc := v; files := files w;
     mkdir_error := mkdir_error w; write_error := write_error w;
     read_error := read_error w;
     metadata_dir := metadata_dir w; set_order := set_order w |}.

Definition set_files (v : gmap string string) (w : world) : world :=
  {| rules_doc := rules_doc w; scheme_doc := scheme_doc w;
     xrefs_doc := xrefs_doc w; index_doc := index_doc w; files := v;
     mkdir_error := mkdir_error w; write_error := write_error w;
     read_error := read_error w;
     metadata_dir := metadata_dir w; set_order := set_order w |}.

(** The attributes of a [ZettelkastenManager] and the world it runs in. *)
Record state : Type := {
  base_path : string;
  metadata_path : string;
  zettel_numbering_rules : gmap string rule;
  cross_references : gmap string (list string);
  numbering_scheme : gmap string jval;
  card_index : list (string * gmap string fval);
  env : world
}.

Definition set_cross_references (v : gmap string (list string)) (st : state)
    : state :=
  {| base_path := base_path st; metadata_path := metadata_path st;
     zettel_numbering_rules := zettel_numbering_rules st;
     cross_references := v; numbering_scheme := numbering_scheme st;
     card_index := card_index st; env := env st |}.

Definition set_numbering_scheme (v : gmap string jval) (st : state) : state :=
  {| base_path := base_path st; metadata_path := metadata_path st;
     zettel_numbering_rules := zettel_numbering_rules st;
     cross_references := cross_references st; numbering_scheme := v;
     card_index := card_index st; env := env st |}.

Definition set_card_index (v : list (string * gmap string fval)) (st : state)
    : state :=
  {| base_path := base_path st; metadata_path := metadata_path st;
     zettel_numbering_rules := zettel_numbering_rules st;
     cross_references := cross_references st;
     numbering_scheme := numbering_scheme st; card_index := v; env := env st |}.

Definition set_env (v : world) (st : state) : state :=
  {| base_path := base_path st; metadata_path := metadata_path st;
     zettel_numbering_rules := zettel_numbering_rules st;
     cross_references := cross_references st;
     numbering_scheme := numbering_scheme st; card_index := card_index st;
     env := v |}.

(** ** The monad of the manager's methods *)

Definition M (A : Type) : Type := state → res A * state.

Definition ret {A} (a : A) : M A := λ st, (Ok a, st).

Definition raise {A} (e : exn) : M A := λ st, (Raise e, st).

Definition bind {A B} (c : M A) (k : A → M B) : M B :=
  λ st, match c st with
        | (Ok a, st') => k a st'
        | (Raise e, st') => (Raise e, st')
        end.

Notation "'let!' x := c 'in' k" := (bind c (λ x, k))
  (at level 10, x name, c at level 100, k at level 200,
   format "'[v' 'let!'  x  :=  c  'in' '/' k ']'").

(** [try: c except Exception as e: h e] *)
Definition try_except {A} (c : M A) (h : exn → M A) : M A :=
  λ st, match c st with
        | (Ok a, st') => (Ok a, st')
        | (Raise e, st') => h e st'
        end.

Definition lift {A} (r : res A) : M A := λ st, (r, st).

Definition gets {A} (f : state → A) : M A := λ st, (Ok (f st), st).

Definition modify (f : state → state) : M unit := λ st, (Ok tt, f st).

(** [str(e)] *)
Definition exn_message (e : exn) : string :=
  match e with
  | KeyError k => "'" +:+ k +:+ "'"
  | OSError msg => msg
  | TypeError => "TypeError"
  | AttributeError => "AttributeError"
  | IndexError => "string index out of range"
  | JSONDecodeError => "JSONDecodeError"
  | InterfaceError => "Error binding parameter"
  end.

(** [path.mkdir(parents=True, exist_ok=True)] *)
Definition mkdir (path : string) : M unit :=
  λ st, match mkdir_error (env st) path with
        | Some msg => (Raise (OSError msg), st)
        | None => (Ok tt, st)
        end.

(** [with open(path, 'w') as f: f.write(content)] *)
Definition write_file (path content : string) : M unit :=
  λ st, match write_error (env st) path with
        | Some msg => (Raise (OSError msg), st)
        | None => (Ok tt, set_env (set_files (<[path := content]> (files (env st))) (env st)) st)
        end.

(** ** ZettelkastenManager *)

(** [_load_metadata(filename, default)]: the document when it exists and can
    be read and decoded, the default otherwise. *)
Definition _load_metadata {A} (filename : string) (doc : world → stored A)
    (default : A) (metadata : string) (w : world) : A :=
  match doc w with
  | Stored a => if read_error w (path_join metadata filename) then default else a
  | _ => default
  end.

(** [_save_metadata(filename, data)]: a failed write is logged and swallowed. *)
Definition _save_metadata {A} (filename : string)
    (put : stored A → world → world) (data : A) : M unit :=
  λ st, match write_error (env st) (path_join (metadata_path st) filename) with
        | Some _ => (Ok tt, st)
        | None => (Ok tt, set_env (put (Stored data) (env st)) st)
        end.

Definition save_numbering_scheme : M unit :=
  let! s := gets numbering_scheme in
  _save_metadata "numbering_scheme.json" set_scheme_doc s.

Definition default_scheme : gmap string jval :=
  list_to_map
    [ ("main_topics", JList []); ("subtopics", JSubs ∅);
      ("frequently_accessed", JList []); ("quotes_excerpts", JList []);
      ("last_main_topic", JNum 0); ("last_frequent", JNum 0);
      ("last_quote", JNum 0) ].

Definition sections : list string := ["1"; "2"; "3"; "4"; "5"; "A"; "Z"].

Fixpoint for_each {A} (f : A → M unit) (l : list A) : M unit :=
  match l with
  | [] => ret tt
  | x :: r => let! _ := f x in for_each f r
  end.

Definition _initialize_structure : M unit :=
  let! base := gets base_path in
  let! _ := for_each (λ section, mkdir (path_join base section)) sections in
  let! s := gets numbering_scheme in
  if decide (s = ∅) then
    let! _ := modify (set_numbering_scheme default_scheme) in
    save_numbering_scheme
  else ret tt.

(** [_load_numbering_rules]: any failure to open or decode the resource
    gives the empty table; so does a document without the
    ["zettel_numbering_rules"] key. *)
Definition _load_numbering_rules (w : world) : gmap string rule :=
  match rules_doc w with
  | Stored (Some rules) => rules
  | Stored None => ∅
  | Absent | Corrupt => ∅
  end.

(** [__init__]: the manager built over a world, unless creating one of its
    directories fails. *)
Definition new_manager (base metadata : string) (w : world) : res state :=
  let st0 :=
    {| base_path := base; metadata_path := metadata;
       zettel_numbering_rules := _load_numbering_rules w;
       cross_references := _load_metadata "cross_references.json" xrefs_doc ∅ metadata w;
       numbering_scheme := _load_metadata "numbering_scheme.json" scheme_doc ∅ metadata w;
       card_index := _load_metadata "card_index.json" index_doc [] metadata w;
       env := w |} in
  match (let! _ := mkdir base in let! _ := mkdir metadata in _initialize_structure) st0 with
  | (Ok _, st) => Ok st
  | (Raise e, _) => Raise e
  end.

(** [chr(ord('a') + i) for i in range(26)] *)
Definition alphabet : list ascii :=
  map (λ i, ascii_of_nat (97 + i)) (seq 0 26).

(** [[item[-1] for item in existing if item[-1].isalpha()]] *)
Fixpoint last_letters (existing : list string) : res (list ascii) :=
  match existing with
  | [] => Ok []
  | item :: rest =>
      match Str.last_char item with
      | None => Raise IndexError
      | Some c =>
          res_bind (last_letters rest) (λ ls,
            Ok (if Str.isalpha c then c :: ls else ls))
      end
  end.

Definition _get_next_subtopic_letter (existing : list string) : res string :=
  match existing with
  | [] => Ok "a"
  | _ =>
      res_bind (last_letters existing) (λ letters,
        match letters with
        | [] => Ok "a"
        | _ =>
            match find (λ letter, negb (bool_decide (letter ∈ letters))) alphabet with
            | Some letter => Ok (String letter "")
            | None => Ok "aa"
            end
        end)
  end.

(** [self.numbering_scheme[field] += 1], giving the new value. *)
Definition scheme_increment (field : string) : M Z :=
  λ st, match numbering_scheme st !! field with
        | None => (Raise (KeyError field), st)
        | Some (JNum n) =>
            (Ok (n + 1)%Z,
             set_numbering_scheme (<[field := JNum (n + 1)]> (numbering_scheme st)) st)
        | Some _ => (Raise TypeError, st)
        end.

(** [self.numbering_scheme[field].append(number)] *)
Definition scheme_append (field number : string) : M unit :=
  λ st, match numbering_scheme st !! field with
        | None => (Raise (KeyError field), st)
        | Some (JList l) =>
            (Ok tt,
             set_numbering_scheme (<[field := JList (l ++ [number])]> (numbering_scheme st)) st)
        | Some _ => (Raise AttributeError, st)
        end.

(** The subtopic block, which the source has three times (lines 134-139,
    159-164 and 378-383): make the parent's list if it is missing, pick the
    next letter, append the new id to the list. *)
Definition allocate_subtopic (parent : string) : M string :=
  λ st, match numbering_scheme st !! "subtopics" with
        | None => (Raise (KeyError "subtopics"), st)
        | Some (JSubs d) =>
            let d1 := match d !! parent with
                      | None => <[parent := []]> d
                      | Some _ => d
                      end in
            let st1 := set_numbering_scheme (<["subtopics" := JSubs d1]> (numbering_scheme st)) st in
            let existing := default [] (d1 !! parent) in
            match _get_next_subtopic_letter existing with
            | Raise e => (Raise e, st1)
            | Ok next_letter =>
                let number := parent +:+ next_letter in
                (Ok number,
                 set_numbering_scheme
                   (<["subtopics" := JSubs (<[parent := existing ++ [number]]> d1)]>
                      (numbering_scheme st)) st)
            end
        | Some _ => (Raise TypeError, st)
        end.

(** [if increment_field:] *)
Definition truthy_field (f : option string) : option string :=
  match f with
  | Some "" | None => None
  | Some name => Some name
  end.

Definition generate_zettel_number (content category : string) : M string :=
  let! rules := gets zettel_numbering_rules in
  let! number :=
    match rules !! category with
    | Some rule =>
        match truthy_field (increment_field rule) with
        | Some field =>
            let! n := scheme_increment field in
            let number := prefix rule +:+ pretty n in
            let list_field :=
              if decide (category = "main") then Some "main_topics"
              else if decide (category = "frequent") then Some "frequently_accessed"
              else if decide (category = "quote") then Some "quotes_excerpts"
              else None in
            match list_field with
            | Some lf => let! _ := scheme_append lf number in ret number
            | None => ret number
            end
        | None => ret "unknown"
        end
    | None =>
        if bool_decide (category = "subtopic") && bool_decide (is_Some (rules !! "subtopic"))
        then
          let parent := if Str.has_slash category then Str.before_slash category else "1" in
          allocate_subtopic parent
        else if decide (category = "frequent") then
          let! n := scheme_increment "last_frequent" in
          let number := "A" +:+ pretty n in
          let! _ := scheme_append "frequently_accessed" number in ret number
        else if decide (category = "quote") then
          let! n := scheme_increment "last_quote" in
          let number := "Z" +:+ pretty n in
          let! _ := scheme_append "quotes_excerpts" number in ret number
        else if decide (category = "main") then
          let! n := scheme_increment "last_main_topic" in
          let number := pretty n in
          let! _ := scheme_append "main_topics" number in ret number
        else
          allocate_subtopic (Str.before_slash category)
    end in
  let! _ := save_numbering_scheme in
  ret number.

(** [x in v] for a value of the scheme; a number cannot be searched. *)
Definition scheme_contains (x : string) (v : jval) : res bool :=
  match v with
  | JList l => Ok (bool_decide (x ∈ l))
  | JSubs d => Ok (bool_decide (is_Some (d !! x)))
  | JNum _ => Raise TypeError
  end.

Definition expand_thematic_structure (base_topic new_content : string) : M string :=
  let! s := gets numbering_scheme in
  let! base_topic :=
    match s !! "main_topics" with
    | None => raise (KeyError "main_topics")
    | Some main_topics =>
        let! known := lift (scheme_contains base_topic main_topics) in
        if known : bool then ret base_topic
        else
          let! n := scheme_increment "last_main_topic" in
          let base_topic := pretty n in
          let! _ := scheme_append "main_topics" base_topic in
          ret base_topic
    end in
  let! subtopic := allocate_subtopic base_topic in
  let! _ := save_numbering_scheme in
  ret subtopic.

(** *** Cross-references *)

(** [if k not in g: g[k] = []] *)
Definition ensure_key (k : string) (g : gmap string (list string))
    : gmap string (list string) :=
  match g !! k with
  | Some _ => g
  | None => <[k := []]> g
  end.

(** [if x not in g[k]: g[k].append(x)] *)
Definition append_if_missing (k x : string) (g : gmap string (list string))
    : gmap string (list string) :=
  let l := default [] (g !! k) in
  if bool_decide (x ∈ l) then g else <[k := l ++ [x]]> g.

(** The body of the loop of [_add_cross_references]. *)
Definition add_edge (source target : string) (g : gmap string (list string))
    : gmap string (list string) :=
  append_if_missing target source
    (append_if_missing source target
       (ensure_key target (ensure_key source g))).

Definition add_edges (source : string) (targets : list string)
    (g : gmap string (list string)) : gmap string (list string) :=
  foldl (λ g target, add_edge source target g) g targets.

Definition _add_cross_references (source_number : string)
    (target_numbers : list string) : M unit :=
  match target_numbers with
  | [] => ret tt
  | _ =>
      let! _ := modify (λ st,
        set_cross_references
          (add_edges source_number target_numbers (cross_references st)) st) in
      let! g := gets cross_references in
      _save_metadata "cross_references.json" set_xrefs_doc g
  end.

(** *** Cards *)

Record card_data : Type := {
  number : string;
  title : string;
  content : string;
  category : string;
  card_cross_references : list string;
  tags : list string;
  created : string;
  modified : string
}.

(** What [create_zettel_card] returns: the card, or [{"error": str(e)}]. *)
Inductive card_result : Type :=
  | Card (c : card_data)
  | ErrorResult (message : string).

(** [f"#{t.strip().replace(' ', '_')}"] *)
Definition hashtag (t : string) : string :=
  "#" +:+ Str.spaces_to_underscores (Str.strip t).

Definition ai_comment : string :=
  "Die KI empfiehlt, die Inhalte regelmäßig zu überprüfen und nach Bedarf zu unterteilen, um die Übersichtlichkeit zu erhöhen.".

Definition _generate_ai_thoughts (c : card_data) : string * string :=
  let hashtags := map hashtag (filter (λ t, t ≠ "") (tags c)) in
  let hashtags :=
    if bool_decide (category c ≠ "") && negb (bool_decide ("#" +:+ category c ∈ hashtags))
    then hashtags ++ ["#" +:+ category c] else hashtags in
  let hashtags :=
    match hashtags with [] => ["#organization"] | _ => firstn 3 hashtags end in
  (Str.join " " hashtags, ai_comment).

(** [info.get(key, "")] where a string is needed: [on_other] is what using
    another value as a string raises. *)
Definition get_str (info : gmap string fval) (key : string) (on_other : exn)
    : res string :=
  match info !! key with
  | None => Ok ""
  | Some (FStr s) => Ok s
  | Some _ => Raise on_other
  end.

(** The elements of [info.get('tags', [])], as [set(...)] takes them: those
    of a list, or the characters of a string. *)
Definition get_tags (info : gmap string fval) : res (list string) :=
  match info !! "tags" with
  | None => Ok []
  | Some (FList l) => Ok l
  | Some (FStr s) => Ok (map (λ c, String c "") (Str.chars s))
  | Some FNull => Raise TypeError
  end.

(** Whether two collections share an element. *)
Definition overlaps (a b : list string) : bool :=
  existsb (λ x, bool_decide (x ∈ b)) a.

(** The loop of [_find_zettel_connections]; [list(tags)[:3]] takes the
    first three tags in the order the set is iterated in. *)
Fixpoint _find_zettel_connections_loop (w : world) (c : card_data)
    (items : list (string * gmap string fval))
    : res (list (string * string * string)) :=
  match items with
  | [] => Ok []
  | (num, info) :: rest =>
      if decide (num = number c) then _find_zettel_connections_loop w c rest
      else
        res_bind (get_tags info) (λ tags_,
        res_bind (get_str info "title" AttributeError) (λ title_,
        let title_words := Str.split (Str.lower title_) in
        if overlaps (tags c) tags_
           || overlaps (Str.split (Str.lower (title c))) title_words
        then
          let hashtags :=
            Str.join " " (map hashtag (firstn 3 (set_order w tags_))) in
          res_bind (get_str info "category" TypeError) (λ category_,
          let desc := Str.join " " (firstn 7 (Str.split (title_ +:+ " " +:+ category_))) in
          res_bind (_find_zettel_connections_loop w c rest) (λ results,
          Ok ((num, hashtags, desc) :: results)))
        else _find_zettel_connections_loop w c rest))
  end.

Definition _find_zettel_connections (c : card_data)
    : M (list (string * string * string)) :=
  let! index := gets card_index in
  let! w := gets env in
  lift (_find_zettel_connections_loop w c index).

Definition newline : string := String (ascii_of_nat 10) "".

Definition _format_card_content (c : card_data) : M string :=
  let text :=
    "# " +:+ title c +:+ newline +:+ newline
    +:+ "**Zettel Number:** " +:+ number c +:+ "  " +:+ newline
    +:+ "**Category:** " +:+ category c +:+ "  " +:+ newline
    +:+ "**Created:** " +:+ created c +:+ "  " +:+ newline
    +:+ "**Modified:** " +:+ modified c +:+ "  " +:+ newline +:+ newline
    +:+ "---" +:+ newline +:+ newline
    +:+ "## Kurz-Zusammenfassung" +:+ newline
    +:+ Str.strip (content c) +:+ newline +:+ newline +:+ "---" +:+ newline +:+ newline
    +:+ "## Weitere Gedanken" +:+ newline +:+ newline
    +:+ "### User" +:+ newline
    +:+ "- #review #structure #future" +:+ newline
    +:+ "- (Hier kann der Benutzer eigene Gedanken, Hinweise oder Fragen eintragen.)"
    +:+ newline +:+ newline
    +:+ "### AI" +:+ newline in
  let '(ai_hashtags, comment) := _generate_ai_thoughts c in
  let text :=
    text +:+ "- " +:+ ai_hashtags +:+ newline
    +:+ "- " +:+ comment +:+ newline +:+ newline +:+ "---" +:+ newline +:+ newline
    +:+ "## Verbindungen zu anderen Zetteln" +:+ newline +:+ newline in
  let! connections := _find_zettel_connections c in
  let text :=
    match connections with
    | [] => text +:+ "- (Keine direkten Verbindungen gefunden.)" +:+ newline
    | _ =>
        foldl (λ text '(zettel_num, hashtags, desc),
                 text +:+ "- **#" +:+ zettel_num +:+ "**: " +:+ hashtags
                 +:+ " – " +:+ desc +:+ newline)
              text connections
    end in
  ret (text +:+ newline +:+ "---" +:+ newline).

(** [create_zettel_card]; [now1] and [now2] are the two readings of the
    clock, [datetime.now().isoformat()]. *)
Definition create_zettel_card (now1 now2 : string) (content_ title_ category_ : string)
    (cross_references_ tags_ : option (list string))
    (extra_folder_path : option string) : M card_result :=
  let tags_ := default [] tags_ in
  let cross_references_ := default [] cross_references_ in
  let! zettel_number := generate_zettel_number content_ category_ in
  let card :=
    {| number := zettel_number; title := title_; content := content_;
       category := category_; card_cross_references := cross_references_;
       tags := tags_; created := now1; modified := now2 |} in
  let! base := gets base_path in
  let folder_path :=
    if decide (category_ = "frequent") then path_join base "A"
    else if decide (category_ = "quote") then path_join base "Z"
    else if Str.has_slash category_ then path_join base (Str.before_slash category_)
    else path_join base category_ in
  let! _ := mkdir folder_path in
  let card_file := path_join folder_path (zettel_number +:+ ".md") in
  let! card_content := _format_card_content card in
  try_except
    (let! _ := write_file card_file card_content in
     let! _ :=
       match extra_folder_path with
       | None | Some "" => ret tt
       | Some extra_folder =>
           let! _ := mkdir extra_folder in
           write_file (path_join extra_folder "00_zettel.md") card_content
       end in
     let! _ := modify (λ st,
       set_card_index
         (od_set zettel_number
            (list_to_map
               [ ("file_path", FStr card_file); ("title", FStr title_);
                 ("category", FStr category_); ("created", FStr now1) ])
            (card_index st)) st) in
     let! _ := _add_cross_references zettel_number cross_references_ in
     let! index := gets card_index in
     let! _ := _save_metadata "card_index.json" set_index_doc index in
     ret (Card card))
    (λ e, ret (ErrorResult (exn_message e))).

(** [card_info.get(key) is None] *)
Definition field_is_none (info : gmap string fval) (key : string) : bool :=
  match info !! key with
  | None | Some FNull => true
  | Some _ => false
  end.

(** The two coercions of [get_card] and [search_cards], which write the
    empty list into the entry itself. *)
Definition normalize_entry (info : gmap string fval) : gmap string fval :=
  let info := if field_is_none info "tags" then <["tags" := FList []]> info else info in
  if field_is_none info "cross_references"
  then <["cross_references" := FList []]> info else info.

Definition get_card (zettel_number : string) : M (option (gmap string fval)) :=
  let! index := gets card_index in
  match od_get zettel_number index with
  | None => ret None
  | Some card_info =>
      if decide (card_info = ∅) then ret None
      else
        let card_info := normalize_entry card_info in
        let! _ := modify (set_card_index (od_set zettel_number card_info index)) in
        ret (Some card_info)
  end.

(** *** Thematic connections *)

Definition word_set (text : string) : gset string :=
  list_to_set (Str.findall_words text).

Fixpoint find_thematic_connections_loop (index : list (string * gmap string fval))
    (content_words : gset string) (existing_cards : list string)
    : res (list string) :=
  match existing_cards with
  | [] => Ok []
  | card_number :: rest =>
      match od_get card_number index with
      | None => find_thematic_connections_loop index content_words rest
      | Some card_info =>
          res_bind (get_str card_info "title" AttributeError) (λ card_title,
          let card_title_words := word_set (Str.lower card_title) in
          let overlap := content_words ∩ card_title_words in
          res_bind (find_thematic_connections_loop index content_words rest) (λ connections,
          Ok (if bool_decide (2 ≤ size overlap) then card_number :: connections
              else connections)))
      end
  end.

Definition find_thematic_connections (content_ : string)
    (existing_cards : option (list string)) : M (list string) :=
  let! index := gets card_index in
  let existing_cards :=
    match existing_cards with
    | None | Some [] => od_keys index
    | Some l => l
    end in
  let content_words := word_set (Str.lower content_) in
  lift (find_thematic_connections_loop index content_words existing_cards).

(** ** ZettelIndexer *)

Module Indexer.

(** A cell of a TEXT column: [None] is SQL NULL. *)
Definition cell : Type := option string.

(** A row of the table [zettel_index]. *)
Record row : Type := {
  zettel_number : string;
  row_title : cell;
  row_category : cell;
  row_tags : string;
  row_cross_references : string;
  row_file_path : string;
  content_preview : string
}.

(** The attributes of a [ZettelIndexer]: the card index read when the
    object was made, and the table behind its connection. *)
Record indexer : Type := {
  card_index_path : string;
  card_index : list (string * gmap string fval);
  table : list row
}.

Definition set_table (t : list row) (ix : indexer) : indexer :=
  {| card_index_path := card_index_path ix; card_index := card_index ix;
     table := t |}.

(** [_load_card_index]: the card index document is the file
    [card_index.json] of the metadata directory, and there is no file at
    another path; the read is not guarded, so an unreadable document
    raises. *)
Definition _load_card_index (path : string) (w : world)
    : res (list (string * gmap string fval)) :=
  if decide (path = path_join (metadata_dir w) "card_index.json") then
    match index_doc w with
    | Absent => Ok []
    | Corrupt => Raise JSONDecodeError
    | Stored d => if read_error w path then Raise (OSError "read") else Ok d
    end
  else Ok [].

(** [__init__], over the rows the database file already holds. *)
Definition new_indexer (path : string) (w : world) (rows : list row)
    : res indexer :=
  res_bind (_load_card_index path w) (λ d,
    Ok {| card_index_path := path; card_index := d; table := rows |}).

(** *** [json.dumps] of a field, for ASCII text *)

Definition dquote : ascii := ascii_of_nat 34.
Definition backslash : ascii := ascii_of_nat 92.

Definition hex_digit (n : nat) : ascii :=
  ascii_of_nat (if n <? 10 then 48 + n else 87 + n).

(** [\uXXXX], four lower-case hexadecimal digits. *)
Definition json_u (n : N) : list ascii :=
  [backslash; "u"%char;
   hex_digit (N.to_nat (n / 4096)); hex_digit (N.to_nat ((n / 256) mod 16));
   hex_digit (N.to_nat ((n / 16) mod 16)); hex_digit (N.to_nat (n mod 16))]%N.

(** A code point outside the printable ASCII range: one [\uXXXX], or the
    two of a surrogate pair above U+FFFF. *)
Definition json_code_point (n : N) : list ascii :=
  if (n <? 65536)%N then json_u n
  else json_u (55296 + (n - 65536) / 1024)%N
       ++ json_u (56320 + (n - 65536) mod 1024)%N.

(** The value the bytes after the first one add to a code point. *)
Definition continuation_bits (c : ascii) : N := (N.of_nat (Str.code c) - 128)%N.

Definition json_escape_char (c : ascii) : list ascii :=
  let n := Str.code c in
  if n =? 34 then [backslash; dquote]
  else if n =? 92 then [backslash; backslash]
  else if n =? 10 then [backslash; "n"%char]
  else if n =? 13 then [backslash; "r"%char]
  else if n =? 9 then [backslash; "t"%char]
  else if n =? 8 then [backslash; "b"%char]
  else if n =? 12 then [backslash; "f"%char]
  else if (n <? 32) || (n =? 127) then json_u (N.of_nat n)
  else [c].

(** The escapes of [json.dumps] with [ensure_ascii]: a character of one
    byte by [json_escape_char], a character of two, three or four bytes by
    its code point. *)
Fixpoint json_escape (l : list ascii) : list ascii :=
  match l with
  | [] => []
  | c :: r =>
      let n := Str.code c in
      if n <? 192 then json_escape_char c ++ json_escape r
      else if n <? 224 then
        match r with
        | c1 :: r1 =>
            json_code_point ((N.of_nat n - 192) * 64 + continuation_bits c1)%N
            ++ json_escape r1
        | _ => json_escape_char c ++ json_escape r
        end
      else if n <? 240 then
        match r with
        | c1 :: c2 :: r2 =>
            json_code_point ((N.of_nat n - 224) * 4096 + continuation_bits c1 * 64
                             + continuation_bits c2)%N
            ++ json_escape r2
        | _ => json_escape_char c ++ json_escape r
        end
      else
        match r with
        | c1 :: c2 :: c3 :: r3 =>
            json_code_point ((N.of_nat n - 240) * 262144 + continuation_bits c1 * 4096
                             + continuation_bits c2 * 64 + continuation_bits c3)%N
            ++ json_escape r3
        | _ => json_escape_char c ++ json_escape r
        end
  end.

Definition json_string (s : string) : string :=
  Str.of_chars ([dquote] ++ json_escape (Str.chars s) ++ [dquote]).

Definition json_dumps (v : fval) : string :=
  match v with
  | FNull => "null"
  | FStr s => json_string s
  | FList l => "[" +:+ Str.join ", " (map json_string l) +:+ "]"
  end.

(** *** Reading a card file *)

(** Text mode: [\r\n] and [\r] are read as [\n]. *)
Fixpoint universal_newlines (l : list ascii) : list ascii :=
  match l with
  | [] => []
  | c :: r =>
      if Str.code c =? 13 then
        match r with
        | d :: r' => if Str.code d =? 10 then universal_newlines r
                     else ascii_of_nat 10 :: universal_newlines r
        | [] => [ascii_of_nat 10]
        end
      else c :: universal_newlines r
  end.

(** [f.readlines()]: each line keeps its newline; [cur] is the line being
    read, reversed. *)
Fixpoint lines_of (cur : list ascii) (l : list ascii) : list string :=
  match l with
  | [] => match cur with [] => [] | _ => [Str.of_chars (rev cur)] end
  | c :: r =>
      if Str.code c =? 10 then Str.of_chars (rev (c :: cur)) :: lines_of [] r
      else lines_of (c :: cur) r
  end.

Definition readlines (text : string) : list string :=
  lines_of [] (universal_newlines (Str.chars text)).

(** [not title] *)
Definition falsy (v : fval) : bool :=
  match v with
  | FNull | FStr "" | FList [] => true
  | _ => false
  end.

(** The first line that is not blank, stripped. *)
Definition first_nonblank (lines : list string) : option string :=
  Str.strip <$> find (λ line, bool_decide (Str.strip line ≠ "")) lines.

(** Binding a value to a [?] of a statement: only text and [None] can be. *)
Definition bind_text (v : fval) : res cell :=
  match v with
  | FNull => Ok None
  | FStr s => Ok (Some s)
  | FList _ => Raise InterfaceError
  end.

(** The per-card part shared by [index_all] and [update_card]: the row
    for an entry of the card index. *)
Definition make_row (w : world) (zettel_number : string)
    (meta : gmap string fval) : res row :=
  match meta !! "file_path" with
  | None => Raise (KeyError "file_path")
  | Some (FStr file_path) =>
      let file_path := Str.path_str file_path in
      let title := default (FStr "") (meta !! "title") in
      let category := default (FStr "") (meta !! "category") in
      let tags := json_dumps (default (FList []) (meta !! "tags")) in
      let cross_refs := json_dumps (default (FList []) (meta !! "cross_references")) in
      let '(title, preview) :=
        match files w !! file_path with
        | None => (title, "")
        | Some text =>
            if read_error w file_path then (title, "[Error reading file]")
            else
              let lines := readlines text in
              let title :=
                if falsy title then
                  match first_nonblank lines with
                  | Some line => FStr line
                  | None => title
                  end
                else title in
              (title, Str.take 500 (Str.join "" (firstn 10 lines)))
        end in
      res_bind (bind_text title) (λ title,
      res_bind (bind_text category) (λ category,
      Ok {| zettel_number := zettel_number; row_title := title;
            row_category := category; row_tags := tags;
            row_cross_references := cross_refs; row_file_path := file_path;
            content_preview := preview |}))
  | Some _ => Raise TypeError
  end.

(** [REPLACE INTO zettel_index ...]: the row with the same key goes, the
    new row is added. *)
Definition replace_into (r : row) (t : list row) : list row :=
  filter (λ r', zettel_number r' ≠ zettel_number r) t ++ [r].

Fixpoint index_all_loop (w : world) (items : list (string * gmap string fval))
    (t : list row) : res unit * list row :=
  match items with
  | [] => (Ok tt, t)
  | (zettel_number, meta) :: rest =>
      match make_row w zettel_number meta with
      | Raise e => (Raise e, t)
      | Ok r => index_all_loop w rest (replace_into r t)
      end
  end.

Definition index_all (w : world) (ix : indexer) : res unit * indexer :=
  let '(r, t) := index_all_loop w (card_index ix) [] in
  (r, set_table t ix).

Definition update_card (w : world) (zettel_number : string) (ix : indexer)
    : res unit * indexer :=
  match od_get zettel_number (card_index ix) with
  | None => (Ok tt, ix)
  | Some meta =>
      if decide (meta = ∅) then (Ok tt, ix)
      else
        match make_row w zettel_number meta with
        | Raise e => (Raise e, ix)
        | Ok r => (Ok tt, set_table (replace_into r (table ix)) ix)
        end
  end.

(** *** [LIKE] *)

Definition upper_char (c : ascii) : ascii :=
  if Str.is_lower c then ascii_of_nat (Str.code c - 32) else c.

(** SQLite's [LIKE]: [%] stands for any text, [_] for any one character,
    and ASCII letters match without regard to case. *)
Fixpoint like_chars (pattern text : list ascii) : bool :=
  match pattern with
  | [] => match text with [] => true | _ => false end
  | p :: pattern' =>
      if bool_decide (p = "%"%char) then
        (fix any (text : list ascii) : bool :=
           like_chars pattern' text
           || match text with [] => false | _ :: text' => any text' end) text
      else
        match text with
        | [] => false
        | c :: text' =>
            (bool_decide (p = "_"%char) || bool_decide (upper_char p = upper_char c))
            && like_chars pattern' text'
        end
  end.

Definition like (value : cell) (pattern : string) : bool :=
  match value with
  | None => false
  | Some text => like_chars (Str.chars pattern) (Str.chars text)
  end.

(** [search]: the rows selected; decoding their two JSON columns, which
    [search] does on the way out, is left out. *)
Definition search (query : string) (ix : indexer) : list row :=
  let pattern := "%" +:+ query +:+ "%" in
  filter (λ r, like (row_title r) pattern || like (row_category r) pattern
               || like (Some (row_tags r)) pattern)
         (table ix).

End Indexer.

(** * Vocabulary of the properties *)

(** A letter is used when some child ends with it. *)
Definition used_suffix (letter : ascii) (children : list string) : Prop :=
  ∃ item, item ∈ children ∧ Str.last_char item = Some letter.

(** The letter picked by [_get_next_subtopic_letter]: the first of a..z
    that no child ends with, or the fixed [aa] when all are taken. *)
Definition next_letter_is (children : list string) (suffix : string) : Prop :=
  (∃ before letter after,
      alphabet = before ++ letter :: after ∧ suffix = String letter "" ∧
      (∀ c, c ∈ before → used_suffix c children) ∧
      ¬ used_suffix letter children)
  ∨ (suffix = "aa" ∧ ∀ c, c ∈ alphabet → used_suffix c children).

(** The state after [save_numbering_scheme]. *)
Definition scheme_saved (st : state) : state :=
  match write_error (env st) (path_join (metadata_path st) "numbering_scheme.json") with
  | Some _ => st
  | None => set_env (set_scheme_doc (Stored (numbering_scheme st)) (env st)) st
  end.


(** The value of a counter of the scheme, when the field holds a number. *)
Definition counter (s : gmap string jval) (field : string) : option Z :=
  match s !! field with
  | Some (JNum n) => Some n
  | _ => None
  end.

(** A scheme with the seven fields of [_initialize_structure], each of its
    kind, and no empty id among the subtopics. *)
Definition wf_scheme (s : gmap string jval) : Prop :=
  (∃ n, s !! "last_main_topic" = Some (JNum n))
  ∧ (∃ n, s !! "last_frequent" = Some (JNum n))
  ∧ (∃ n, s !! "last_quote" = Some (JNum n))
  ∧ (∃ l, s !! "main_topics" = Some (JList l))
  ∧ (∃ l, s !! "frequently_accessed" = Some (JList l))
  ∧ (∃ l, s !! "quotes_excerpts" = Some (JList l))
  ∧ (∃ d, s !! "subtopics" = Some (JSubs d)
          ∧ ∀ p children, d !! p = Some children → Forall (λ item, item ≠ "") children).

(** How a method may change the scheme: no field comes or goes or changes
    kind, and a counter never goes down. *)
Definition grows_val (a b : jval) : Prop :=
  match a, b with
  | JNum x, JNum y => (x ≤ y)%Z
  | JList _, JList _ => True
  | JSubs _, JSubs _ => True
  | _, _ => False
  end.

Definition grows (s s' : gmap string jval) : Prop :=
  ∀ k, match s !! k with
       | Some a => ∃ b, s' !! k = Some b ∧ grows_val a b
       | None => s' !! k = None
       end.

(** Everything but the scheme, in memory and on disk, is the same. *)
Definition numbering_frame (st st' : state) : Prop :=
  base_path st' = base_path st
  ∧ metadata_path st' = metadata_path st
  ∧ zettel_numbering_rules st' = zettel_numbering_rules st
  ∧ cross_references st' = cross_references st
  ∧ card_index st' = card_index st
  ∧ rules_doc (env st') = rules_doc (env st)
  ∧ xrefs_doc (env st') = xrefs_doc (env st)
  ∧ index_doc (env st') = index_doc (env st)
  ∧ files (env st') = files (env st)
  ∧ mkdir_error (env st') = mkdir_error (env st)
  ∧ write_error (env st') = write_error (env st)
  ∧ read_error (env st') = read_error (env st).

(** A computation that touches nothing but the scheme in memory, and that
    only by growing it. *)
Definition numbering_step {A} (c : M A) : Prop :=
  ∀ st r st', c st = (r, st') →
    numbering_frame st st'
    ∧ grows (numbering_scheme st) (numbering_scheme st')
    ∧ scheme_doc (env st') = scheme_doc (env st).

(** The path of [numbering_scheme.json]. *)
Definition scheme_path (st : state) : string :=
  path_join (metadata_path st) "numbering_scheme.json".

(** The scheme document can be written and read, holds a scheme that the
    one in memory has grown from, and the rules are those of the resource. *)
Definition persisted (st : state) : Prop :=
  write_error (env st) (scheme_path st) = None
  ∧ read_error (env st) (scheme_path st) = false
  ∧ zettel_numbering_rules st = _load_numbering_rules (env st)
  ∧ ∃ sd, scheme_doc (env st) = Stored sd ∧ sd ≠ ∅
          ∧ grows sd (numbering_scheme st).

(** The counter on disk. *)
Definition disk_counter (st : state) (field : string) : option Z :=
  match scheme_doc (env st) with
  | Stored sd => counter sd field
  | _ => None
  end.

(** The calls made on a manager over time; [Reload] discards the object
    and builds a new one from what is on disk. *)
Inductive op : Type :=
  | Generate (content_ category_ : string)
  | Expand (base_topic new_content : string)
  | Reload.

Definition reload (st : state) : state :=
  match new_manager (base_path st) (metadata_path st) (env st) with
  | Ok st' => st'
  | Raise _ => st
  end.

(** The categories asked for and what [generate_zettel_number] answered,
    in order. *)
Fixpoint run (ops : list op) (st : state) : list (string * res string) :=
  match ops with
  | [] => []
  | Generate content_ category_ :: rest =>
      let '(r, st') := generate_zettel_number content_ category_ st in
      (category_, r) :: run rest st'
  | Expand base_topic new_content :: rest =>
      run rest (expand_thematic_structure base_topic new_content st).2
  | Reload :: rest => run rest (reload st)
  end.

(** The ids handed out for a category. *)
Definition ids_of (category_ : string) (log : list (string * res string))
    : list string :=
  omap (λ '(c, r), match r with
                   | Ok id => if decide (c = category_) then Some id else None
                   | Raise _ => None
                   end) log.

(** A world with nothing in it and where nothing fails. *)
Definition empty_world : world :=
  {| rules_doc := Absent; scheme_doc := Absent; xrefs_doc := Absent;
     index_doc := Absent; files := ∅; mkdir_error := λ _, None;
     write_error := λ _, None; read_error := λ _, false;
     metadata_dir := "X/_metadata"; set_order := remove_dups |}.

(** The attributes [__init__] loads, before [_initialize_structure]. *)
Definition loaded_state (base metadata : string) (w : world) : state :=
  {| base_path := base; metadata_path := metadata;
     zettel_numbering_rules := _load_numbering_rules w;
     cross_references := _load_metadata "cross_references.json" xrefs_doc ∅ metadata w;
     numbering_scheme := _load_metadata "numbering_scheme.json" scheme_doc ∅ metadata w;
     card_index := _load_metadata "card_index.json" index_doc [] metadata w;
     env := w |}.

(** The counter on disk never goes down between two states. *)
Definition disk_grows (st st' : state) : Prop :=
  ∀ f n, disk_counter st f = Some n →
         ∃ m, disk_counter st' f = Some m ∧ (n ≤ m)%Z.

(** The prefix and the counter field [generate_zettel_number] uses for a
    category of a bucket: those of its rule when it has one with an
    increment field, the built-in ones of [frequent], [quote] and [main]
    when the table has no rule for them. *)
Definition bucket_of (rules : gmap string rule) (category_ : string)
    : option (string * string) :=
  match rules !! category_ with
  | Some rule =>
      match truthy_field (increment_field rule) with
      | Some field => Some (prefix rule, field)
      | None => None
      end
  | None =>
      if decide (category_ = "frequent") then Some ("A", "last_frequent")
      else if decide (category_ = "quote") then Some ("Z", "last_quote")
      else if decide (category_ = "main") then Some ("", "last_main_topic")
      else None
  end.

(** A world whose rule resource configures [main] and [quote]. *)
Definition configured_world : world :=
  {| rules_doc :=
       Stored (Some (list_to_map
         [ ("main", {| prefix := ""; increment_field := Some "last_main_topic" |});
           ("quote", {| prefix := "Q"; increment_field := Some "last_quote" |});
           ("draft", {| prefix := "D"; increment_field := None |}) ]));
     scheme_doc := Absent; xrefs_doc := Absent; index_doc := Absent;
     files := ∅; mkdir_error := λ _, None; write_error := λ _, None;
     read_error := λ _, false;
     metadata_dir := "X/_metadata"; set_order := remove_dups |}.

(** A world whose rule resource names a counter the scheme does not have. *)
Definition misconfigured_world : world :=
  {| rules_doc :=
       Stored (Some (list_to_map
         [ ("log", {| prefix := "L"; increment_field := Some "last_log" |}) ]));
     scheme_doc := Absent; xrefs_doc := Absent; index_doc := Absent;
     files := ∅; mkdir_error := λ _, None; write_error := λ _, None;
     read_error := λ _, false;
     metadata_dir := "X/_metadata"; set_order := remove_dups |}.

(** The manager built over a world with the default paths. *)
Definition manager_of (w : world) : state :=
  match new_manager "X" "X/_metadata" w with
  | Ok st => st
  | Raise _ => loaded_state "X" "X/_metadata" w
  end.

(** The entry [create_zettel_card] writes into the card index. *)
Definition index_entry (card_file title_ category_ created_ : string)
    : gmap string fval :=
  list_to_map
    [ ("file_path", FStr card_file); ("title", FStr title_);
      ("category", FStr category_); ("created", FStr created_) ].

(** The folder [create_zettel_card] puts the card of a category in. *)
Definition folder_of (base category_ : string) : string :=
  if decide (category_ = "frequent") then path_join base "A"
  else if decide (category_ = "quote") then path_join base "Z"
  else if Str.has_slash category_ then path_join base (Str.before_slash category_)
  else path_join base category_.

(** An entry whose title and category are text when present and whose tags
    are not null: [_find_zettel_connections] can read it. *)
Definition textual (info : gmap string fval) : Prop :=
  info !! "tags" ≠ Some FNull
  ∧ (∀ l, info !! "title" ≠ Some (FList l)) ∧ info !! "title" ≠ Some FNull
  ∧ (∀ l, info !! "category" ≠ Some (FList l)) ∧ info !! "category" ≠ Some FNull.

Definition textual_index (index : list (string * gmap string fval)) : Prop :=
  Forall (λ item, textual item.2) index.

(** No directory creation and no write fails. *)
Definition no_io_errors (st : state) : Prop :=
  (∀ p, mkdir_error (env st) p = None) ∧ (∀ p, write_error (env st) p = None).

(** The fresh manager, with the given children recorded under parent [3]. *)
Definition manager_with_children (children : list string) : state :=
  set_numbering_scheme
    (<["subtopics" := JSubs {["3" := children]}]> default_scheme)
    (manager_of empty_world).

(** [b] is in the adjacency list of [a]. *)
Definition adjacent (g : gmap string (list string)) (a b : string) : Prop :=
  ∃ l, g !! a = Some l ∧ b ∈ l.

Definition symmetric (g : gmap string (list string)) : Prop :=
  ∀ a b, adjacent g a b ↔ adjacent g b a.

Definition no_duplicates (g : gmap string (list string)) : Prop :=
  ∀ a l, g !! a = Some l → NoDup l.

(** A sequence of calls of [_add_cross_references], each with its source
    and its targets. *)
Definition add_calls (calls : list (string * list string)) (st : state) : state :=
  foldl (λ st call, (_add_cross_references call.1 call.2 st).2) st calls.

(** The fresh manager with a given card index in memory. *)
Definition manager_with_index (index : list (string * gmap string fval)) : state :=
  set_card_index index (manager_of empty_world).

(** The title [find_thematic_connections] reads from an entry. *)
Definition title_of (info : gmap string fval) : string :=
  match info !! "title" with
  | Some (FStr s) => s
  | _ => ""
  end.

(** The number of distinct words the case-folded text and title share. *)
Definition common_words (text title_ : string) : nat :=
  size (word_set (Str.lower text) ∩ word_set (Str.lower title_)).

(** The card is in the index and its title shares two words with the text. *)
Definition connected (index : list (string * gmap string fval))
    (text id : string) : bool :=
  match od_get id index with
  | Some info => bool_decide (2 ≤ common_words text (title_of info))
  | None => false
  end.

(** The candidates [find_thematic_connections] goes through: the list given,
    or every id of the card index when none or an empty one is given. *)
Definition effective_candidates (index : list (string * gmap string fval))
    (existing_cards : option (list string)) : list string :=
  match existing_cards with
  | None | Some [] => od_keys index
  | Some l => l
  end.

(** Every title in the index is text, when there is one. *)
Definition titles_are_text (index : list (string * gmap string fval)) : Prop :=
  ∀ id info, od_get id index = Some info →
    info !! "title" ≠ Some FNull ∧ ∀ l, info !! "title" ≠ Some (FList l).

(** A world where the folder of category [projects] cannot be created. *)
Definition blocked_world : world :=
  {| rules_doc := Absent; scheme_doc := Absent; xrefs_doc := Absent;
     index_doc := Absent; files := ∅;
     mkdir_error := λ p, if decide (p = "X/projects")
                         then Some "[Errno 17] File exists: 'X/projects'"
                         else None;
     write_error := λ _, None; read_error := λ _, false;
     metadata_dir := "X/_metadata"; set_order := remove_dups |}.

(** A world where the card file of the first main card cannot be written. *)
Definition readonly_world : world :=
  {| rules_doc := Absent; scheme_doc := Absent; xrefs_doc := Absent;
     index_doc := Absent; files := ∅; mkdir_error := λ _, None;
     write_error := λ p, if decide (p = "X/main/1.md")
                         then Some "[Errno 13] Permission denied: 'X/main/1.md'"
                         else None;
     read_error := λ _, false;
     metadata_dir := "X/_metadata"; set_order := remove_dups |}.

(** Three indexed cards with titles. *)
Definition titled_index : list (string * gmap string fval) :=
  [ ("1", {["title" := FStr "Alpha Beta"]});
    ("2", {["title" := FStr "gamma delta"]});
    ("3", {["title" := FStr "Beta and GAMMA"]}) ].

(** The indexer made over a world, with the rows its database holds; when
    the card index cannot be read, the one with an empty card index. *)
Definition indexer_of (w : world) (rows : list Indexer.row) : Indexer.indexer :=
  match Indexer.new_indexer "X/_metadata/card_index.json" w rows with
  | Ok ix => ix
  | Raise _ =>
      {| Indexer.card_index_path := "X/_metadata/card_index.json";
         Indexer.card_index := []; Indexer.table := rows |}
  end.

(** [q] occurs in [t]. *)
Definition is_substring (q t : string) : Prop :=
  ∃ before after, t = before +:+ q +:+ after.

(** The state after the first card is created on an empty store. *)
Definition after_first_card : state :=
  (create_zettel_card "2026-01-01T10:00:00" "2026-01-01T10:00:00"
     "Notes on rivers" "Rivers" "main" None None None
     (manager_of empty_world)).2.

(** The indexer made over the empty store, after its [index_all]. *)
Definition stale_indexer : Indexer.indexer :=
  (Indexer.index_all empty_world (indexer_of empty_world [])).2.

(** * More of the two classes *)

(** ** [search_cards], [create_card], [create_quote_card] *)

(** Whether [l] starts with [q]. *)
Fixpoint starts_with (q l : list ascii) : bool :=
  match q, l with
  | [], _ => true
  | _ :: _, [] => false
  | a :: q', b :: l' => bool_decide (a = b) && starts_with q' l'
  end.

(** [q in t] on the characters. *)
Fixpoint contains_chars (q t : list ascii) : bool :=
  starts_with q t
  || match t with
     | [] => false
     | _ :: t' => contains_chars q t'
     end.

(** [q in t] *)
Definition contains (q t : string) : bool :=
  contains_chars (Str.chars q) (Str.chars t).

(** The body of the loop of [search_cards] for one entry, which is
    normalized in place before its title is looked at: the entry as it is
    left, and whether it is a result. *)
Definition search_cards_entry (query : string) (info : gmap string fval)
    : gmap string fval * res bool :=
  let info := normalize_entry info in
  (info,
   res_bind (get_str info "title" AttributeError) (λ title_,
     if contains (Str.lower query) (Str.lower title_) then Ok true
     else
       res_bind (get_str info "content" AttributeError) (λ content_,
         Ok (contains (Str.lower query) (Str.lower content_))))).

(** The loop of [search_cards]: the results, or the exception, and the
    card index as the loop leaves it. *)
Fixpoint search_cards_loop (query : string)
    (items : list (string * gmap string fval))
    : res (list (gmap string fval)) * list (string * gmap string fval) :=
  match items with
  | [] => (Ok [], [])
  | (card_number, card_info) :: rest =>
      let '(card_info, hit) := search_cards_entry query card_info in
      match hit with
      | Raise e => (Raise e, (card_number, card_info) :: rest)
      | Ok hit =>
          let '(results, rest) := search_cards_loop query rest in
          (res_bind results (λ results,
             Ok (if hit : bool then card_info :: results else results)),
           (card_number, card_info) :: rest)
      end
  end.

Definition search_cards (query : string) : M (list (gmap string fval)) :=
  λ st, let '(results, index) := search_cards_loop query (card_index st) in
        (results, set_card_index index st).

(** [card_data.get("number", "")] *)
Definition number_or_empty (r : card_result) : string :=
  match r with
  | Card c => number c
  | ErrorResult _ => ""
  end.

Definition create_quote_card (now1 now2 : string) (quote source context : string)
    : M string :=
  let content_ :=
    "**Quote:** " +:+ quote +:+ newline +:+ newline
    +:+ "**Source:** " +:+ source +:+ newline +:+ newline
    +:+ "**Context:** " +:+ context in
  let title_ := "Quote: " +:+ source in
  let! card := create_zettel_card now1 now2 content_ title_ "quote" None
                 (Some ["quote"; "excerpt"; source]) None in
  ret (number_or_empty card).

Definition create_card (now1 now2 : string) (content_ title_ category_ : string)
    (tags_ : option (list string)) : M card_result :=
  let tags_ := default [] tags_ in
  create_zettel_card now1 now2 content_ title_ category_ None (Some tags_) None.

(** ** [ZettelIndexer.get_card] *)

(** [SELECT ... WHERE zettel_number = ?] and [fetchone]; decoding the two
    JSON columns of the row is left out, as in [Indexer.search]. *)
Definition indexer_get_card (zettel_number : string) (ix : Indexer.indexer)
    : option Indexer.row :=
  find (λ r, bool_decide (Indexer.zettel_number r = zettel_number))
       (Indexer.table ix).

(** ** [X/_metadata/cleanup_card_index.py] *)

(** ['key' not in card or not isinstance(card[key], list)] *)
Definition not_a_list (card : gmap string fval) (key : string) : bool :=
  match card !! key with
  | Some (FList _) => false
  | _ => true
  end.

(** The body of the loop of the script for one card: the card as it is
    left, and whether it was changed. *)
Definition cleanup_card (card : gmap string fval) : gmap string fval * bool :=
  let '(card, changed1) :=
    if not_a_list card "tags" then (<["tags" := FList []]> card, true)
    else (card, false) in
  let '(card, changed2) :=
    if not_a_list card "cross_references"
    then (<["cross_references" := FList []]> card, true)
    else (card, false) in
  (card, changed1 || changed2).

Fixpoint cleanup_cards (items : list (string * gmap string fval))
    : list (string * gmap string fval) * bool :=
  match items with
  | [] => ([], false)
  | (card_id, card) :: rest =>
      let '(card, changed) := cleanup_card card in
      let '(rest, changed_rest) := cleanup_cards rest in
      ((card_id, card) :: rest, changed || changed_rest)
  end.

(** The script: it reads the card index without a guard, and writes it back
    only when a card was changed. *)
Definition cleanup_card_index (path : string) (w : world) : res world :=
  match index_doc w with
  | Absent => Raise (OSError "No such file or directory")
  | Corrupt => Raise JSONDecodeError
  | Stored card_index =>
      if read_error w path then Raise (OSError "read")
      else
        let '(card_index, changed) := cleanup_cards card_index in
        if changed then
          match write_error w path with
          | Some msg => Raise (OSError msg)
          | None => Ok (set_index_doc (Stored card_index) w)
          end
        else Ok w
  end.

(** * Vocabulary of the further properties *)

(** No subtopic id recorded in the scheme is the empty string. *)
Definition children_ok (s : gmap string jval) : Prop :=
  ∀ d, s !! "subtopics" = Some (JSubs d) →
    ∀ p children, d !! p = Some children → Forall (λ item, item ≠ "") children.

(** A computation that keeps [children_ok]. *)
Definition children_step {A} (c : M A) : Prop :=
  ∀ st r st', children_ok (numbering_scheme st) → c st = (r, st') →
    children_ok (numbering_scheme st').

(** The membership list [generate_zettel_number] appends the id to. *)
Definition bucket_list (category_ : string) : option string :=
  if decide (category_ = "main") then Some "main_topics"
  else if decide (category_ = "frequent") then Some "frequently_accessed"
  else if decide (category_ = "quote") then Some "quotes_excerpts"
  else None.

(** A scheme document that start-up can live with: none, an unreadable one,
    an empty one, or one with the seven fields. *)
Definition scheme_doc_ok (w : world) : Prop :=
  match scheme_doc w with
  | Stored sd => sd = ∅ ∨ wf_scheme sd
  | _ => True
  end.

(** A manager on the built-in table: a well-formed scheme in memory, no
    rules in memory or in the resource, and a scheme document start-up can
    live with. *)
Definition on_default_table (st : state) : Prop :=
  wf_scheme (numbering_scheme st)
  ∧ zettel_numbering_rules st = ∅
  ∧ _load_numbering_rules (env st) = ∅
  ∧ scheme_doc_ok (env st).

(** The files after the optional second copy of the card document. *)
Definition mirror (extra : option string) (text : string)
    (fs : gmap string string) : gmap string string :=
  match extra with
  | None | Some "" => fs
  | Some extra_folder => <[path_join extra_folder "00_zettel.md" := text]> fs
  end.

(** The attributes in memory are the same. *)
Definition same_memory (st st' : state) : Prop :=
  card_index st' = card_index st
  ∧ cross_references st' = cross_references st
  ∧ numbering_scheme st' = numbering_scheme st
  ∧ zettel_numbering_rules st' = zettel_numbering_rules st
  ∧ base_path st' = base_path st
  ∧ metadata_path st' = metadata_path st.

(** A world where the second copy of the card cannot be written. *)
Definition mirror_blocked_world : world :=
  {| rules_doc := Absent; scheme_doc := Absent; xrefs_doc := Absent;
     index_doc := Absent; files := ∅; mkdir_error := λ _, None;
     write_error := λ p, if decide (p = "Inbox/00_zettel.md")
                         then Some "[Errno 13] Permission denied: 'Inbox/00_zettel.md'"
                         else None;
     read_error := λ _, false;
     metadata_dir := "X/_metadata"; set_order := remove_dups |}.

(** The text of a field of an entry, the empty string when it has none. *)
Definition text_field (info : gmap string fval) (key : string) : string :=
  match info !! key with
  | Some (FStr s) => s
  | _ => ""
  end.

(** The title and the content of every entry are text, when present:
    [search_cards] can read the index. *)
Definition searchable_index (index : list (string * gmap string fval)) : Prop :=
  Forall (λ item,
            (item.2 !! "title" ≠ Some FNull ∧ ∀ l, item.2 !! "title" ≠ Some (FList l))
            ∧ (item.2 !! "content" ≠ Some FNull
               ∧ ∀ l, item.2 !! "content" ≠ Some (FList l))) index.

(** The card index with every entry normalized. *)
Definition normalized (index : list (string * gmap string fval))
    : list (string * gmap string fval) :=
  map (λ item, (item.1, normalize_entry item.2)) index.

(** Whether [search_cards] takes an entry for a query. *)
Definition matches (query : string) (info : gmap string fval) : bool :=
  contains (Str.lower query) (Str.lower (text_field info "title"))
  || contains (Str.lower query) (Str.lower (text_field info "content")).

(** A world whose numbering scheme cannot be decoded, while its card index
    holds card 1. *)
Definition corrupt_scheme_world : world :=
  {| rules_doc := Absent; scheme_doc := Corrupt; xrefs_doc := Absent;
     index_doc :=
       Stored [("1", index_entry "X/main/1.md" "Rivers" "main" "2026-01-01T10:00:00")];
     files := ∅; mkdir_error := λ _, None; write_error := λ _, None;
     read_error := λ _, false;
     metadata_dir := "X/_metadata"; set_order := remove_dups |}.

(** Both lists of every card are lists. *)
Definition lists_in_place (index : list (string * gmap string fval)) : Prop :=
  Forall (λ item, not_a_list item.2 "tags" = false
                  ∧ not_a_list item.2 "cross_references" = false) index.

(** A world whose card index holds a card without its two lists and a card
    whose tags are null. *)
Definition untidy_world : world :=
  {| rules_doc := Absent; scheme_doc := Absent; xrefs_doc := Absent;
     index_doc :=
       Stored [("1", index_entry "X/main/1.md" "Rivers" "main" "2026-01-01T10:00:00");
               ("2", <["tags" := FNull]>
                       (<["cross_references" := FList ["1"]]>
                          (index_entry "X/main/2.md" "Lakes" "main"
                             "2026-01-02T10:00:00")))];
     files := ∅; mkdir_error := λ _, None; write_error := λ _, None;
     read_error := λ _, false;
     metadata_dir := "X/_metadata"; set_order := remove_dups |}.

(** That world after the cleanup script has run. *)
Definition tidy_world : world :=
  match cleanup_card_index "X/_metadata/card_index.json" untidy_world with
  | Ok w => w
  | Raise _ => untidy_world
  end.

(** The card of the index shares a tag with the card, or a word of its
    title, letter case aside. *)
Definition related (c : card_data) (info : gmap string fval) : Prop :=
  (∃ tags_ t, get_tags info = Ok tags_ ∧ t ∈ tags c ∧ t ∈ tags_)
  ∨ (∃ word, word ∈ Str.split (Str.lower (title c))
             ∧ word ∈ Str.split (Str.lower (text_field info "title"))).

(** The paths of the manager and the behaviour of the store are the same. *)
Definition world_frame (st st' : state) : Prop :=
  base_path st' = base_path st
  ∧ metadata_path st' = metadata_path st
  ∧ mkdir_error (env st') = mkdir_error (env st)
  ∧ write_error (env st') = write_error (env st)
  ∧ read_error (env st') = read_error (env st)
  ∧ rules_doc (env st') = rules_doc (env st).

(** ** Scope and fixtures of the properties *)

(** Every text field of every entry is ASCII text. *)
Definition ascii_index (index : list (string * gmap string fval)) : Prop :=
  Forall (λ item, ∀ key s, item.2 !! key = Some (FStr s) → Str.isascii s = true)
         index.

(** The ids handed out from the counter [field] with the prefix [pre], to
    whichever category. *)
Definition ids_of_bucket (rules : gmap string rule) (pre field : string)
    (log : list (string * res string)) : list string :=
  omap (λ '(c, r), match r with
                   | Ok id => if decide (bucket_of rules c = Some (pre, field))
                              then Some id else None
                   | Raise _ => None
                   end) log.

(** The configured world, with a scheme document that cannot be written. *)
Definition unwritable_scheme_world : world :=
  {| rules_doc := rules_doc configured_world; scheme_doc := Absent;
     xrefs_doc := Absent; index_doc := Absent; files := ∅;
     mkdir_error := λ _, None;
     write_error := λ p, if decide (p = "X/_metadata/numbering_scheme.json")
                         then Some "[Errno 13] Permission denied"
                         else None;
     read_error := λ _, false;
     metadata_dir := "X/_metadata"; set_order := remove_dups |}.

(** A world whose rules give two categories the same prefix on different
    counters. *)
Definition colliding_rules_world : world :=
  {| rules_doc :=
       Stored (Some (list_to_map
         [ ("notes", {| prefix := "N"; increment_field := Some "last_frequent" |});
           ("drafts", {| prefix := "N"; increment_field := Some "last_quote" |}) ]));
     scheme_doc := Absent; xrefs_doc := Absent; index_doc := Absent;
     files := ∅; mkdir_error := λ _, None; write_error := λ _, None;
     read_error := λ _, false;
     metadata_dir := "X/_metadata"; set_order := remove_dups |}.

(** The state after a second card is created. *)
Definition after_second_card : state :=
  (create_zettel_card "2026-01-02T10:00:00" "2026-01-02T10:00:00"
     "Notes on lakes" "Lakes" "main" None None None after_first_card).2.

(** A row left in the table by an earlier life of the database. *)
Definition old_row : Indexer.row :=
  {| Indexer.zettel_number := "9"; Indexer.row_title := Some "Old";
     Indexer.row_category := None; Indexer.row_tags := "[]";
     Indexer.row_cross_references := "[]"; Indexer.row_file_path := "gone.md";
     Indexer.content_preview := "" |}.

(** The indexer made when the store held the first card only, over a table
    that held [old_row], after its [index_all]. *)
Definition indexed_indexer : Indexer.indexer :=
  (Indexer.index_all (env after_first_card)
     (indexer_of (env after_first_card) [old_row])).2.
(** * Properties *)

(** ** The string functions on examples *)

Example lower_example : Str.lower "Alpha BETA_9" = "alpha beta_9".
Proof. reflexivity. Qed.

Example split_example :
  Str.split "  Notes on   rivers " = ["Notes"; "on"; "rivers"].
Proof. reflexivity. Qed.

Example findall_words_example :
  Str.findall_words "alpha, beta-gamma_1!" = ["alpha"; "beta"; "gamma_1"].
Proof. reflexivity. Qed.

Example strip_example : Str.strip "  a b  " = "a b".
Proof. reflexivity. Qed.

Example strip_unicode_example : Str.strip "  a b　" = "a b".
Proof. vm_compute. reflexivity. Qed.

Example take_example : Str.take 3 "héllo" = "hél".
Proof. vm_compute. reflexivity. Qed.

Example path_str_example :
  map Str.path_str [""; "./X//main/2.md"; "a/./b/"; "//a//b"; "///a"; "a/.."]
  = ["."; "X/main/2.md"; "a/b"; "//a/b"; "/a"; "a/.."].
Proof. vm_compute. reflexivity. Qed.

Example isascii_example : map Str.isascii ["Rivers"; "café"] = [true; false].
Proof. vm_compute. reflexivity. Qed.

Example before_slash_example : Str.before_slash "3/x/y" = "3".
Proof. reflexivity. Qed.

Example path_join_example :
  path_join "X" "main" = "X/main" ∧ path_join "X" "" = "X".
Proof. split; reflexivity. Qed.

Example like_example :
  Indexer.like (Some "Rivers of Babylon") "%rS O_%" = true
  ∧ Indexer.like (Some "Rivers") "%lake%" = false
  ∧ Indexer.like None "%" = false.
Proof. repeat split; reflexivity. Qed.

Example json_dumps_example :
  Indexer.json_dumps (FList ["a b"; "é"; String (ascii_of_nat 127) ""; "😀"])
  = "[" +:+ String Indexer.dquote "a b" +:+ String Indexer.dquote ", "
    +:+ String Indexer.dquote "\u00e9" +:+ String Indexer.dquote ", "
    +:+ String Indexer.dquote "\u007f" +:+ String Indexer.dquote ", "
    +:+ String Indexer.dquote "\ud83d\ude00" +:+ String Indexer.dquote "]".
Proof. vm_compute. reflexivity. Qed.

Example readlines_example :
  Indexer.readlines ("# Rivers" +:+ newline +:+ newline +:+ "text")
  = ["# Rivers" +:+ newline; newline; "text"].
Proof. reflexivity. Qed.

(** ** Running the monad *)

Lemma bind_ok {A B} (c : M A) (k : A → M B) st a st' :
  c st = (Ok a, st') → bind c k st = k a st'.
Proof. intros H. unfold bind. by rewrite H. Qed.

Lemma bind_raise {A B} (c : M A) (k : A → M B) st e st' :
  c st = (Raise e, st') → bind c k st = (Raise e, st').
Proof. intros H. unfold bind. by rewrite H. Qed.

Lemma bind_inv_ok {A B} (c : M A) (k : A → M B) st b st2 :
  bind c k st = (Ok b, st2) →
  ∃ a st1, c st = (Ok a, st1) ∧ k a st1 = (Ok b, st2).
Proof.
  unfold bind. destruct (c st) as [[a|e] st1]; intros H; [eauto | discriminate].
Qed.

(** ** Subtopic letters *)

Lemma last_char_nonempty item : item ≠ "" → is_Some (Str.last_char item).
Proof.
  intros H. unfold Str.last_char, Str.chars.
  destruct item as [|c r]; [done|]. simpl.
  destruct (last (c :: list_ascii_of_string r)) eqn:E; [eauto|].
  by apply last_None in E.
Qed.

Lemma last_letters_spec existing :
  Forall (λ item, item ≠ "") existing →
  ∃ letters, last_letters existing = Ok letters ∧
    ∀ c, c ∈ letters ↔ Str.isalpha c = true ∧ used_suffix c existing.
Proof.
  induction 1 as [|item rest Hne _ IH]; simpl.
  - exists []. split; [done|]. intros c. split; [by intros ?%elem_of_nil|].
    intros [_ (item & []%elem_of_nil & _)].
  - destruct IH as (ls & -> & Hls).
    destruct (last_char_nonempty item Hne) as [c0 Hc0]. rewrite Hc0. simpl.
    eexists. split; [done|]. intros c.
    assert (used_suffix c (item :: rest) ↔ c0 = c ∨ used_suffix c rest) as Hu.
    { unfold used_suffix. split.
      - intros (i & [->|Hi]%elem_of_cons & Hl); [left; congruence|right; eauto].
      - intros [<-|(i & Hi & Hl)].
        + exists item. split; [left|done].
        + exists i. split; [by right|done]. }
    rewrite Hu. destruct (Str.isalpha c0) eqn:Ha.
    + rewrite elem_of_cons, Hls. split.
      * intros [->|[? ?]]; auto.
      * intros [? [->|?]]; auto.
    + rewrite Hls. split; [intros [? ?]; auto|].
      intros [? [->|?]]; [congruence|auto].
Qed.

Lemma find_first {A} (f : A → bool) l x :
  find f l = Some x →
  ∃ before after, l = before ++ x :: after ∧ f x = true ∧
    ∀ y, y ∈ before → f y = false.
Proof.
  induction l as [|a l IH]; simpl; [done|].
  destruct (f a) eqn:Hfa.
  - intros [= ->]. exists [], l. split; [done|]. split; [done|].
    by intros y ?%elem_of_nil.
  - intros (before & after & -> & Hx & Hb)%IH.
    exists (a :: before), after. split; [done|]. split; [done|].
    intros y [->|?]%elem_of_cons; auto.
Qed.

Lemma find_nowhere {A} (f : A → bool) l :
  find f l = None → ∀ y, y ∈ l → f y = false.
Proof.
  intros H y Hy. apply list_elem_of_In in Hy. by eapply find_none in H.
Qed.

Lemma alphabet_isalpha c : c ∈ alphabet → Str.isalpha c = true.
Proof.
  intros H. assert (Forall (λ c, Str.isalpha c = true) alphabet) as HF.
  { unfold alphabet. simpl. repeat constructor. }
  by eapply Forall_forall in HF.
Qed.

Lemma get_next_subtopic_letter_spec children :
  Forall (λ item, item ≠ "") children →
  ∃ suffix, _get_next_subtopic_letter children = Ok suffix ∧
            next_letter_is children suffix.
Proof.
  intros Hne. destruct (last_letters_spec children Hne) as (ls & Hls & Hin).
  assert (∀ c, c ∈ alphabet → (c ∈ ls ↔ used_suffix c children)) as Hal.
  { intros c Hc. rewrite Hin. pose proof (alphabet_isalpha c Hc). tauto. }
  assert (ls = [] → ∃ suffix, Ok (A:=string) "a" = Ok suffix ∧ next_letter_is children suffix) as Hempty.
  { intros ->. exists "a". split; [done|]. left.
    exists [], "a"%char, (tail alphabet). split; [done|]. split; [done|].
    split; [by intros c ?%elem_of_nil|].
    intros Hu. apply Hal in Hu; [by apply elem_of_nil in Hu|].
    unfold alphabet. simpl. left. }
  unfold _get_next_subtopic_letter. destruct children as [|item rest].
  { apply Hempty. destruct (last_letters_spec [] Hne) as (? & ? & ?).
    simpl in Hls. congruence. }
  rewrite Hls. unfold res_bind. destruct ls as [|l0 ls']; [by apply Hempty|].
  destruct (find _ alphabet) as [letter|] eqn:Hf.
  - apply find_first in Hf as (before & after & Halph & Hx & Hb).
    exists (String letter ""). split; [done|]. left.
    exists before, letter, after. split; [done|]. split; [done|].
    assert (letter ∈ alphabet) as Hl.
    { rewrite Halph. apply elem_of_app. right. left. }
    split.
    + intros c Hc. apply Hal; [rewrite Halph; apply elem_of_app; by left|].
      specialize (Hb c Hc). apply negb_false_iff, bool_decide_eq_true in Hb. done.
    + intros Hu. apply Hal in Hu; [|done].
      apply negb_true_iff, bool_decide_eq_false in Hx. done.
  - exists "aa". split; [done|]. right. split; [done|].
    intros c Hc. apply Hal; [done|].
    pose proof (find_nowhere _ _ Hf c Hc) as Hb.
    apply negb_false_iff, bool_decide_eq_true in Hb. done.
Qed.

(** ** What the pieces of [generate_zettel_number] do *)

Lemma save_numbering_scheme_run st :
  save_numbering_scheme st = (Ok tt, scheme_saved st).
Proof.
  unfold save_numbering_scheme, scheme_saved, bind, gets, _save_metadata. simpl.
  by destruct (write_error _ _).
Qed.

Lemma allocate_subtopic_run st parent d suffix :
  numbering_scheme st !! "subtopics" = Some (JSubs d) →
  _get_next_subtopic_letter (default [] (d !! parent)) = Ok suffix →
  allocate_subtopic parent st =
    (Ok (parent +:+ suffix),
     set_numbering_scheme
       (<["subtopics" :=
            JSubs (<[parent := default [] (d !! parent) ++ [parent +:+ suffix]]> d)]>
          (numbering_scheme st)) st).
Proof.
  intros Hs Hl. unfold allocate_subtopic. rewrite Hs.
  destruct (d !! parent) as [children|] eqn:Hd.
  - rewrite Hd. simpl in *. by rewrite Hl.
  - simpl in Hl. injection Hl as <-.
    rewrite lookup_insert_eq. simpl. by rewrite insert_insert_eq.
Qed.

(** A category with no rule that is none of the three bucket names goes
    through the subtopic block, with the text before the first slash as
    the parent. *)
Lemma generate_subtopic_run st content_ category_ :
  zettel_numbering_rules st !! category_ = None →
  category_ ≠ "frequent" → category_ ≠ "quote" → category_ ≠ "main" →
  generate_zettel_number content_ category_ st =
    (let! number := allocate_subtopic (Str.before_slash category_) in
     let! _ := save_numbering_scheme in
     ret number) st.
Proof.
  intros Hr Hf Hq Hm. unfold generate_zettel_number.
  unfold bind at 1. unfold gets at 1. cbv beta iota. rewrite Hr.
  assert (bool_decide (category_ = "subtopic")
          && bool_decide (is_Some (zettel_numbering_rules st !! "subtopic")) = false) as ->.
  { destruct (bool_decide_reflect (category_ = "subtopic")) as [->|]; [|done].
    rewrite Hr. apply andb_false_intro2, bool_decide_eq_false. by intros [? ?]. }
  by rewrite !decide_False by done.
Qed.

(** C3: for a category that denotes a subtopic of parent [p] (no rule, not a
    bucket name), [generate_zettel_number] returns [p] followed by the first
    letter of a..z that no existing child of [p] ends with, and [p ++ "aa"]
    when all 26 are taken; from children [3a; 3b] the letter is [c], from
    [3a .. 3z] the suffix is [aa]. *)
Theorem subtopic_allocation_next_letter :
  (∀ st content_ category_ d,
      zettel_numbering_rules st !! category_ = None →
      category_ ≠ "frequent" → category_ ≠ "quote" → category_ ≠ "main" →
      numbering_scheme st !! "subtopics" = Some (JSubs d) →
      Forall (λ item, item ≠ "") (default [] (d !! Str.before_slash category_)) →
      ∃ suffix,
        (generate_zettel_number content_ category_ st).1
          = Ok (Str.before_slash category_ +:+ suffix)
        ∧ next_letter_is (default [] (d !! Str.before_slash category_)) suffix)
  ∧ _get_next_subtopic_letter ["3a"; "3b"] = Ok "c"
  ∧ _get_next_subtopic_letter (map (λ c, "3" +:+ String c "") alphabet) = Ok "aa".
Proof.
  split; [|split; reflexivity].
  intros st content_ category_ d Hr Hf Hq Hm Hs Hne.
  destruct (get_next_subtopic_letter_spec _ Hne) as (suffix & Hl & Hspec).
  exists suffix. split; [|done].
  rewrite generate_subtopic_run by done.
  erewrite bind_ok by (by apply allocate_subtopic_run).
  unfold bind. by rewrite save_numbering_scheme_run.
Qed.

(** ** The scheme only grows *)

Lemma grows_val_refl a : grows_val a a.
Proof. destruct a; simpl; [lia|done|done]. Qed.

Lemma grows_val_trans a b c : grows_val a b → grows_val b c → grows_val a c.
Proof. destruct a, b, c; simpl; try done. lia. Qed.

Lemma grows_refl s : grows s s.
Proof. intros k. destruct (s !! k) eqn:E; [|done]. eauto using grows_val_refl. Qed.

Lemma grows_trans s1 s2 s3 : grows s1 s2 → grows s2 s3 → grows s1 s3.
Proof.
  intros H12 H23 k. specialize (H12 k). specialize (H23 k).
  destruct (s1 !! k) as [a|].
  - destruct H12 as (b & Hb & Hab). rewrite Hb in H23.
    destruct H23 as (c & Hc & Hbc). eauto using grows_val_trans.
  - by rewrite H12 in H23.
Qed.

Lemma grows_insert s k a b :
  s !! k = Some a → grows_val a b → grows s (<[k := b]> s).
Proof.
  intros Hk Hab k'. destruct (decide (k = k')) as [<-|Hne].
  - rewrite Hk, lookup_insert_eq. eauto.
  - rewrite lookup_insert_ne by done.
    destruct (s !! k') eqn:E; [|done]. eauto using grows_val_refl.
Qed.

Lemma grows_nonempty s s' : grows s s' → s ≠ ∅ → s' ≠ ∅.
Proof.
  intros Hg Hne ->. apply Hne. apply map_eq. intros k. specialize (Hg k).
  rewrite lookup_empty in *. destruct (s !! k) as [a|]; [|done].
  by destruct Hg as (? & ? & ?).
Qed.

Lemma grows_counter s s' f n :
  grows s s' → counter s f = Some n → ∃ m, counter s' f = Some m ∧ (n ≤ m)%Z.
Proof.
  intros Hg. unfold counter. specialize (Hg f).
  destruct (s !! f) as [[x| |]|]; try done. intros [= ->].
  destruct Hg as (b & -> & Hb). destruct b; try done. eauto.
Qed.

Lemma grows_counter_none s s' f :
  grows s s' → counter s f = None → counter s' f = None.
Proof.
  intros Hg. unfold counter. specialize (Hg f).
  destruct (s !! f) as [[x| |]|]; try done; intros _.
  - destruct Hg as (b & -> & Hb). by destruct b.
  - destruct Hg as (b & -> & Hb). by destruct b.
  - by rewrite Hg.
Qed.

Lemma numbering_frame_refl st : numbering_frame st st.
Proof. by repeat split. Qed.

Lemma numbering_frame_trans st1 st2 st3 :
  numbering_frame st1 st2 → numbering_frame st2 st3 → numbering_frame st1 st3.
Proof.
  unfold numbering_frame. intros H1 H2. destruct_and!.
  repeat split; congruence.
Qed.

Lemma ns_ret {A} (a : A) : numbering_step (ret a).
Proof.
  intros st r st' [= <- <-]. eauto using numbering_frame_refl, grows_refl.
Qed.

Lemma ns_raise {A} e : numbering_step (raise (A:=A) e).
Proof.
  intros st r st' [= <- <-]. eauto using numbering_frame_refl, grows_refl.
Qed.

Lemma ns_bind {A B} (c : M A) (k : A → M B) :
  numbering_step c → (∀ a, numbering_step (k a)) → numbering_step (bind c k).
Proof.
  intros Hc Hk st r st'. unfold bind.
  destruct (c st) as [[a|e] st1] eqn:E; apply Hc in E as (Hf & Hg & Hd).
  - intros (Hf' & Hg' & Hd')%Hk. split; [|split].
    + eauto using numbering_frame_trans.
    + eauto using grows_trans.
    + congruence.
  - intros [= <- <-]. eauto.
Qed.

Lemma ns_lift {A} (r : res A) : numbering_step (lift r).
Proof.
  intros st r' st' [= <- <-]. eauto using numbering_frame_refl, grows_refl.
Qed.

Lemma ns_set_scheme st s' :
  grows (numbering_scheme st) s' →
  numbering_frame st (set_numbering_scheme s' st)
  ∧ grows (numbering_scheme st) (numbering_scheme (set_numbering_scheme s' st))
  ∧ scheme_doc (env (set_numbering_scheme s' st)) = scheme_doc (env st).
Proof. intros H. split; [by repeat split|]. by split. Qed.

Lemma ns_increment field : numbering_step (scheme_increment field).
Proof.
  intros st r st'. unfold scheme_increment.
  destruct (numbering_scheme st !! field) as [[n| |]|] eqn:E; intros [= <- <-];
    eauto using numbering_frame_refl, grows_refl.
  apply ns_set_scheme. eapply grows_insert; [done|]. simpl. lia.
Qed.

Lemma ns_append field x : numbering_step (scheme_append field x).
Proof.
  intros st r st'. unfold scheme_append.
  destruct (numbering_scheme st !! field) as [[n| |]|] eqn:E; intros [= <- <-];
    eauto using numbering_frame_refl, grows_refl.
  apply ns_set_scheme. by eapply grows_insert.
Qed.

Lemma ns_allocate parent : numbering_step (allocate_subtopic parent).
Proof.
  intros st r st'. unfold allocate_subtopic.
  destruct (numbering_scheme st !! "subtopics") as [[n| |]|] eqn:E;
    try (intros [= <- <-]; eauto using numbering_frame_refl, grows_refl).
  destruct (_get_next_subtopic_letter _); intros [= <- <-];
    apply ns_set_scheme; by eapply grows_insert.
Qed.

(** [generate_zettel_number] is a computation on the scheme in memory
    followed, when it raised nothing, by saving the scheme. *)
Lemma generate_shape content_ category_ st :
  ∃ body : M string,
    numbering_step body
    ∧ generate_zettel_number content_ category_ st =
        (let! number := body in
         let! _ := save_numbering_scheme in
         ret number) st.
Proof.
  unfold generate_zettel_number. unfold bind at 1. unfold gets at 1.
  cbv beta iota. eexists. split; [|reflexivity].
  repeat first
    [ apply ns_ret | apply ns_allocate
    | apply ns_bind; [first [apply ns_increment | apply ns_append]|intros ?]
    | case_match ].
Qed.

Lemma bind_assoc {A B C} (c : M A) (k : A → M B) (k' : B → M C) st :
  bind (bind c k) k' st = bind c (λ a, bind (k a) k') st.
Proof. unfold bind. by destruct (c st) as [[a|e] st1]. Qed.

Lemma expand_shape base_topic new_content st :
  ∃ body : M string,
    numbering_step body
    ∧ expand_thematic_structure base_topic new_content st =
        (let! subtopic := body in
         let! _ := save_numbering_scheme in
         ret subtopic) st.
Proof.
  unfold expand_thematic_structure. unfold bind at 1. unfold gets at 1.
  cbv beta iota. eexists (bind _ allocate_subtopic). split; cycle 1.
  { rewrite bind_assoc. reflexivity. }
  apply ns_bind; [|intros ?; apply ns_allocate].
  repeat first
    [ apply ns_ret | apply ns_raise
    | apply ns_bind;
        [first [apply ns_increment | apply ns_append | apply ns_lift]|intros ?]
    | case_match ].
Qed.

(** What a method of that shape does to a state whose scheme is persisted. *)
Lemma persisted_step (body : M string) st r st' :
  numbering_step body →
  persisted st →
  (let! x := body in let! _ := save_numbering_scheme in ret x) st = (r, st') →
  persisted st' ∧ disk_grows st st'
  ∧ grows (numbering_scheme st) (numbering_scheme st')
  ∧ (is_ok r → scheme_doc (env st') = Stored (numbering_scheme st'))
  ∧ zettel_numbering_rules st' = zettel_numbering_rules st.
Proof.
  intros Hbody Hp. unfold persisted, scheme_path in Hp.
  destruct Hp as (Hw & Hr & Hrules & sd & Hsd & Hne & Hg). unfold bind.
  destruct (body st) as [[x|e] st1] eqn:E;
    apply Hbody in E as (Hf & Hg1 & Hd);
    pose proof Hf as (Hb & Hm & Hru & _ & _ & Hrd & _ & _ & _ & _ & Hwe & Hre).
  - rewrite save_numbering_scheme_run. intros [= <- <-].
    assert (scheme_saved st1
            = set_env (set_scheme_doc (Stored (numbering_scheme st1)) (env st1)) st1) as ->.
    { unfold scheme_saved. by rewrite Hwe, Hm, Hw. }
    split; [|split; [|split; [|split]]]; simpl; [| | | |done].
    + unfold persisted, scheme_path, _load_numbering_rules in *. simpl.
      rewrite Hwe, Hre, Hm, Hru, Hrd. repeat split; try done.
      exists (numbering_scheme st1).
      eauto using grows_refl, grows_nonempty, grows_trans.
    + intros f n. unfold disk_counter. rewrite Hsd. simpl. intros Hc.
      eapply grows_counter; [|done]. eauto using grows_trans.
    + done.
    + done.
  - intros [= <- <-]. split; [|split; [|split; [|split]]]; [| | | |done].
    + unfold persisted, scheme_path, _load_numbering_rules in *.
      rewrite Hwe, Hre, Hm, Hru, Hrd, Hd. repeat split; try done.
      exists sd. eauto using grows_trans.
    + intros f n. unfold disk_counter. rewrite Hd. eauto with lia.
    + done.
    + done.
Qed.

Lemma mkdir_inv p st st' : mkdir p st = (Ok tt, st') → st' = st.
Proof. unfold mkdir. destruct (mkdir_error _ _); by intros [= <-]. Qed.

Lemma for_each_mkdir_inv (f : string → string) l st st' :
  for_each (λ x, mkdir (f x)) l st = (Ok tt, st') → st' = st.
Proof.
  revert st. induction l as [|x l IH]; intros st; simpl.
  - by intros [= <-].
  - intros (a & st1 & H1 & H2)%bind_inv_ok. destruct a.
    apply mkdir_inv in H1 as ->. by apply IH.
Qed.

(** The manager [__init__] gives, when it gives one. *)
Lemma new_manager_inv base metadata w st :
  new_manager base metadata w = Ok st →
  st = if decide (numbering_scheme (loaded_state base metadata w) = ∅)
       then scheme_saved (set_numbering_scheme default_scheme (loaded_state base metadata w))
       else loaded_state base metadata w.
Proof.
  unfold new_manager. fold (loaded_state base metadata w).
  destruct (bind _ _ _) as [[[]|e] st1] eqn:E; [|done]. intros [= <-].
  apply bind_inv_ok in E as ([] & st2 & ->%mkdir_inv & E).
  apply bind_inv_ok in E as ([] & st3 & ->%mkdir_inv & E).
  unfold _initialize_structure in E.
  apply bind_inv_ok in E as (b & st4 & [= <- <-] & E).
  apply bind_inv_ok in E as ([] & st5 & ->%for_each_mkdir_inv & E).
  apply bind_inv_ok in E as (s & st6 & [= <- <-] & E).
  destruct (decide _); [|by injection E as <-].
  apply bind_inv_ok in E as ([] & st7 & [= <-] & E).
  rewrite save_numbering_scheme_run in E. by injection E as <-.
Qed.

Lemma default_scheme_nonempty : default_scheme ≠ ∅.
Proof.
  intros H. assert (default_scheme !! "subtopics" = None) as Hl by (by rewrite H).
  by vm_compute in Hl.
Qed.

Lemma new_manager_persisted base metadata w st :
  new_manager base metadata w = Ok st →
  write_error w (path_join metadata "numbering_scheme.json") = None →
  read_error w (path_join metadata "numbering_scheme.json") = false →
  persisted st ∧ (∀ f n, counter (numbering_scheme st) f = Some n →
                         disk_counter st f = Some n)
  ∧ (∀ sd, scheme_doc w = Stored sd → sd ≠ ∅ →
           st = loaded_state base metadata w ∧ numbering_scheme st = sd).
Proof.
  intros ->%new_manager_inv Hw Hr.
  destruct (decide _) as [He|Hne].
  - unfold scheme_saved, scheme_path. simpl. rewrite Hw.
    split; [|split].
    + unfold persisted, scheme_path. simpl. rewrite Hw, Hr. repeat split.
      exists default_scheme. eauto using grows_refl, default_scheme_nonempty.
    + by unfold disk_counter.
    + intros sd Hsd Hsdne. simpl in He. unfold _load_metadata in He.
      rewrite Hsd, Hr in He. done.
  - simpl in Hne. unfold _load_metadata in Hne.
    destruct (scheme_doc w) as [| |sd] eqn:Hsd; try done.
    rewrite Hr in Hne. split; [|split].
    + unfold persisted, scheme_path. simpl. rewrite Hw, Hr, Hsd. repeat split.
      exists sd. split; [done|]. split; [done|].
      unfold _load_metadata. rewrite Hsd, Hr. apply grows_refl.
    + unfold disk_counter. simpl. unfold _load_metadata. by rewrite Hsd, Hr.
    + intros sd' [= <-] _. split; [done|]. simpl. unfold _load_metadata.
      by rewrite Hsd, Hr.
Qed.

(** Building the manager again from the disk of a persisted state. *)
Lemma reload_persisted st :
  persisted st →
  persisted (reload st) ∧ disk_grows st (reload st)
  ∧ zettel_numbering_rules (reload st) = zettel_numbering_rules st.
Proof.
  intros Hp. pose proof Hp as (Hw & Hr & Hrules & sd & Hsd & Hne & Hg).
  unfold reload.
  destruct (new_manager _ _ _) as [st'|e] eqn:E.
  - destruct (new_manager_persisted _ _ _ _ E Hw Hr) as (Hp' & _ & Hl).
    destruct (Hl sd Hsd Hne) as (-> & Hs).
    split; [done|]. split; [|done].
    intros f n Hc. exists n. split; [|lia]. done.
  - split; [done|]. split; [|done]. intros f n Hc. eauto with lia.
Qed.

(** ** Allocation in a bucket *)

Lemma scheme_saved_scheme st :
  numbering_scheme (scheme_saved st) = numbering_scheme st.
Proof. unfold scheme_saved. by destruct (write_error _ _). Qed.

(** The counter step of a bucket: increment, format, and append to the
    list of the bucket when there is one. *)
Lemma bucket_step_ok pre field (list_field : option string) st id st1 :
  (let! n := scheme_increment field in
   let number := pre +:+ pretty n in
   match list_field with
   | Some lf => let! _ := scheme_append lf number in ret number
   | None => ret number
   end) st = (Ok id, st1) →
  ∃ m, counter (numbering_scheme st) field = Some m
       ∧ id = pre +:+ pretty (m + 1)%Z
       ∧ counter (numbering_scheme st1) field = Some (m + 1)%Z.
Proof.
  intros (n & st2 & Hi & Hrest)%bind_inv_ok.
  unfold scheme_increment in Hi. unfold counter.
  destruct (numbering_scheme st !! field) as [[m| |]|] eqn:E; try done.
  injection Hi as <- <-. exists m. split; [done|].
  destruct list_field as [lf|].
  - apply bind_inv_ok in Hrest as ([] & st3 & Ha & [= <- <-]).
    split; [done|]. unfold scheme_append in Ha. simpl in Ha.
    destruct (decide (field = lf)) as [<-|Hne].
    { by rewrite lookup_insert_eq in Ha. }
    rewrite lookup_insert_ne in Ha by done.
    destruct (numbering_scheme st !! lf) as [[| |]|]; try done.
    injection Ha as <-. simpl.
    by rewrite lookup_insert_ne, lookup_insert_eq by done.
  - injection Hrest as <- <-. split; [done|]. simpl. by rewrite lookup_insert_eq.
Qed.

Lemma generate_bucket_ok st content_ category_ pre field id st' :
  bucket_of (zettel_numbering_rules st) category_ = Some (pre, field) →
  generate_zettel_number content_ category_ st = (Ok id, st') →
  ∃ m, counter (numbering_scheme st) field = Some m
       ∧ id = pre +:+ pretty (m + 1)%Z
       ∧ counter (numbering_scheme st') field = Some (m + 1)%Z.
Proof.
  unfold bucket_of, generate_zettel_number.
  unfold bind at 1. unfold gets at 1. cbv beta iota.
  intros Hb (number & st1 & Hbody & Hsave)%bind_inv_ok.
  rewrite bind_ok with (a := tt) (st' := scheme_saved st1) in Hsave
    by apply save_numbering_scheme_run.
  injection Hsave as <- <-. rewrite scheme_saved_scheme.
  destruct (zettel_numbering_rules st !! category_) as [rule|] eqn:Hr.
  - destruct (truthy_field (increment_field rule)) as [f|]; [|done].
    injection Hb as <- <-. by eapply bucket_step_ok.
  - assert (bool_decide (category_ = "subtopic")
            && bool_decide (is_Some (zettel_numbering_rules st !! "subtopic")) = false) as Hdead.
    { destruct (bool_decide_reflect (category_ = "subtopic")) as [->|]; [|done].
      rewrite Hr. apply andb_false_intro2, bool_decide_eq_false. by intros [? ?]. }
    rewrite Hdead in Hbody.
    repeat case_decide; try done; injection Hb as <- <-;
      eapply bucket_step_ok with (list_field := Some _); exact Hbody.
Qed.

Lemma ids_of_cons category_ c r log :
  ids_of category_ ((c, r) :: log) =
    match r with
    | Ok id => if decide (c = category_) then id :: ids_of category_ log
               else ids_of category_ log
    | Raise _ => ids_of category_ log
    end.
Proof. unfold ids_of. simpl. destruct r; [|done]. by destruct (decide _). Qed.

Lemma persisted_disk_below st f md :
  persisted st → disk_counter st f = Some md →
  ∃ m, counter (numbering_scheme st) f = Some m ∧ (md ≤ m)%Z.
Proof.
  intros (_ & _ & _ & sd & Hsd & _ & Hg). unfold disk_counter. rewrite Hsd.
  by apply grows_counter.
Qed.

Lemma bucket_step_run pre field lf st m l :
  field ≠ lf →
  numbering_scheme st !! field = Some (JNum m) →
  numbering_scheme st !! lf = Some (JList l) →
  ∃ st1,
    (let! n := scheme_increment field in
     let number := pre +:+ pretty n in
     let! _ := scheme_append lf number in
     ret number) st = (Ok (pre +:+ pretty (m + 1)%Z), st1).
Proof.
  intros Hne Hf Hl. unfold bind, scheme_increment, scheme_append, ret.
  rewrite Hf. simpl. rewrite lookup_insert_ne by done. rewrite Hl. eauto.
Qed.

Lemma generate_no_rule_run st content_ category_ :
  zettel_numbering_rules st !! category_ = None →
  generate_zettel_number content_ category_ st =
    (let! number :=
       if decide (category_ = "frequent") then
         let! n := scheme_increment "last_frequent" in
         let number := "A" +:+ pretty n in
         let! _ := scheme_append "frequently_accessed" number in ret number
       else if decide (category_ = "quote") then
         let! n := scheme_increment "last_quote" in
         let number := "Z" +:+ pretty n in
         let! _ := scheme_append "quotes_excerpts" number in ret number
       else if decide (category_ = "main") then
         let! n := scheme_increment "last_main_topic" in
         let number := pretty n in
         let! _ := scheme_append "main_topics" number in ret number
       else allocate_subtopic (Str.before_slash category_) in
     let! _ := save_numbering_scheme in
     ret number) st.
Proof.
  intros Hr. unfold generate_zettel_number.
  unfold bind at 1. unfold gets at 1. cbv beta iota. rewrite Hr.
  assert (bool_decide (category_ = "subtopic")
          && bool_decide (is_Some (zettel_numbering_rules st !! "subtopic")) = false) as ->.
  { destruct (bool_decide_reflect (category_ = "subtopic")) as [->|]; [|done].
    rewrite Hr. apply andb_false_intro2, bool_decide_eq_false. by intros [? ?]. }
  done.
Qed.

Lemma saved_result {A} (body : M A) st a st1 :
  body st = (Ok a, st1) →
  ((let! x := body in let! _ := save_numbering_scheme in ret x) st).1 = Ok a.
Proof.
  intros H. rewrite (bind_ok _ _ _ _ _ H). unfold bind.
  by rewrite save_numbering_scheme_run.
Qed.

Lemma ids_of_bucket_cons rules pre field c r log :
  ids_of_bucket rules pre field ((c, r) :: log) =
    match r with
    | Ok id => if decide (bucket_of rules c = Some (pre, field))
               then id :: ids_of_bucket rules pre field log
               else ids_of_bucket rules pre field log
    | Raise _ => ids_of_bucket rules pre field log
    end.
Proof. unfold ids_of_bucket. simpl. destruct r; [|done]. by destruct (decide _). Qed.

(** From a persisted state on, the ids drawn from a counter with a prefix
    are the prefix followed by counters that increase strictly and are
    above the counter on disk. *)
Lemma run_bucket_increasing pre field ops :
  ∀ st,
    persisted st →
    ∃ counters,
      ids_of_bucket (zettel_numbering_rules st) pre field (run ops st)
        = map (λ n, pre +:+ pretty n) counters
      ∧ StronglySorted Z.lt counters
      ∧ Forall (λ n, ∀ md, disk_counter st field = Some md → (md < n)%Z) counters.
Proof.
  induction ops as [|o ops IH]; intros st Hp.
  { exists []. split; [done|]. split; constructor. }
  assert (∀ st', persisted st' → disk_grows st st' →
                 zettel_numbering_rules st' = zettel_numbering_rules st →
    ∃ counters,
      ids_of_bucket (zettel_numbering_rules st) pre field (run ops st')
        = map (λ n, pre +:+ pretty n) counters
      ∧ StronglySorted Z.lt counters
      ∧ Forall (λ n, ∀ md, disk_counter st field = Some md → (md < n)%Z) counters)
    as Hskip.
  { intros st' Hp' Hdg Hru. rewrite <- Hru.
    destruct (IH st' Hp') as (cs & Hids & Hs & Hall).
    exists cs. split; [done|]. split; [done|].
    eapply Forall_impl; [exact Hall|]. intros n Hn md Hmd.
    destruct (Hdg _ _ Hmd) as (m' & Hm' & Hle). specialize (Hn _ Hm'). lia. }
  destruct o as [content_ c|base_topic new_content|]; simpl.
  - destruct (generate_zettel_number content_ c st) as [r st'] eqn:E.
    destruct (generate_shape content_ c st) as (body & Hbody & Hshape).
    rewrite Hshape in E.
    destruct (persisted_step body st r st' Hbody Hp E) as (Hp' & Hdg & Hg & Hdoc & Hru).
    rewrite <- Hshape in E. rewrite ids_of_bucket_cons.
    destruct r as [id|e]; [|by apply Hskip].
    destruct (decide (bucket_of (zettel_numbering_rules st) c = Some (pre, field)))
      as [Hb|Hne]; [|by apply Hskip].
    destruct (generate_bucket_ok _ _ _ _ _ _ _ Hb E) as (m & Hm & -> & Hm').
    destruct (IH st' Hp') as (cs & Hids & Hs & Hall). rewrite Hru in Hids.
    assert (Forall (Z.lt (m + 1)) cs) as Habove.
    { eapply Forall_impl; [exact Hall|]. intros n Hn. apply Hn.
      unfold disk_counter. by rewrite (Hdoc I). }
    exists ((m + 1)%Z :: cs). split; [by rewrite Hids|]. split.
    + by constructor.
    + constructor.
      * intros md Hmd.
        destruct (persisted_disk_below _ _ _ Hp Hmd) as (m0 & Hm0 & Hle).
        assert (m0 = m) by congruence. lia.
      * eapply Forall_impl; [exact Habove|]. intros n Hn md Hmd.
        destruct (persisted_disk_below _ _ _ Hp Hmd) as (m0 & Hm0 & Hle).
        assert (m0 = m) by congruence. lia.
  - destruct (expand_thematic_structure base_topic new_content st) as [r st'] eqn:E.
    destruct (expand_shape base_topic new_content st) as (body & Hbody & Hshape).
    rewrite Hshape in E.
    destruct (persisted_step body st r st' Hbody Hp E) as (Hp' & Hdg & Hg & Hdoc & Hru).
    by apply Hskip.
  - destruct (reload_persisted st Hp) as (Hp' & Hdg & Hru). by apply Hskip.
Qed.

Lemma sorted_lt_nodup (l : list Z) : StronglySorted Z.lt l → NoDup l.
Proof.
  induction 1 as [|x l _ IH Hall]; constructor; [|done].
  intros Hin. eapply Forall_forall in Hall; [|exact Hin]. lia.
Qed.

Lemma id_of_counter_inj pre : Inj (=) (=) (λ n : Z, pre +:+ pretty n).
Proof. intros n m H. by apply (inj (String.app pre)), (inj pretty) in H. Qed.

(** The kinds of the fields are the same on both sides of [grows]. *)
Lemma grows_is_counter s s' f :
  grows s s' → (is_Some (counter s f) ↔ is_Some (counter s' f)).
Proof.
  intros Hg. unfold counter. specialize (Hg f).
  destruct (s !! f) as [a|].
  - destruct Hg as (b & -> & Hab). destruct a, b; simpl in *; try done;
      split; intros [? ?]; done.
  - rewrite Hg. done.
Qed.

Lemma grows_is_list s s' k :
  grows s s' →
  ((∃ l, s !! k = Some (JList l)) ↔ (∃ l, s' !! k = Some (JList l))).
Proof.
  intros Hg. specialize (Hg k). destruct (s !! k) as [a|].
  - destruct Hg as (b & -> & Hab). destruct a, b; simpl in *; try done;
      split; intros [? ?]; try done; eauto.
  - rewrite Hg. split; intros [? ?]; done.
Qed.

(** What allocation in a bucket needs of the scheme: the counter is a
    number, and the membership list of the category, when it has one, is a
    list. *)
Lemma generate_bucket_progress st content_ category_ pre field :
  bucket_of (zettel_numbering_rules st) category_ = Some (pre, field) →
  is_Some (counter (numbering_scheme st) field) →
  (∀ lf, bucket_list category_ = Some lf →
         ∃ l, numbering_scheme st !! lf = Some (JList l)) →
  is_ok (generate_zettel_number content_ category_ st).1.
Proof.
  intros Hb [m Hm] Hl. unfold counter in Hm.
  destruct (numbering_scheme st !! field) as [[m'| |]|] eqn:Hf; try done.
  injection Hm as ->.
  assert (∀ lf, bucket_list category_ = Some lf → field ≠ lf) as Hne.
  { intros lf Hlf ->. destruct (Hl _ Hlf) as (l & Hl'). congruence. }
  unfold bucket_of in Hb. unfold bucket_list in Hl, Hne.
  destruct (zettel_numbering_rules st !! category_) as [rule|] eqn:Hr.
  - destruct (truthy_field (increment_field rule)) as [f|] eqn:Ht; [|done].
    injection Hb as <- <-.
    unfold generate_zettel_number. unfold bind at 1. unfold gets at 1.
    cbv beta iota. rewrite Hr, Ht.
    repeat case_decide; try congruence.
    + destruct (Hl _ eq_refl) as (l & Hl').
      destruct (bucket_step_run (prefix rule) f "main_topics" st m l)
        as (st1 & Hrun); [by apply Hne|done..|].
      by erewrite saved_result.
    + destruct (Hl _ eq_refl) as (l & Hl').
      destruct (bucket_step_run (prefix rule) f "frequently_accessed" st m l)
        as (st1 & Hrun); [by apply Hne|done..|].
      by erewrite saved_result.
    + destruct (Hl _ eq_refl) as (l & Hl').
      destruct (bucket_step_run (prefix rule) f "quotes_excerpts" st m l)
        as (st1 & Hrun); [by apply Hne|done..|].
      by erewrite saved_result.
    + erewrite saved_result; [done|].
      unfold bind, scheme_increment, ret. by rewrite Hf.
  - rewrite generate_no_rule_run by done.
    repeat case_decide; try congruence; injection Hb as <- <-;
      destruct (Hl _ eq_refl) as (l & Hl');
      first
        [ destruct (bucket_step_run "A" "last_frequent" "frequently_accessed" st m l)
            as (st1 & Hrun); [done..|]; by erewrite saved_result
        | destruct (bucket_step_run "Z" "last_quote" "quotes_excerpts" st m l)
            as (st1 & Hrun); [done..|]; by erewrite saved_result
        | destruct (bucket_step_run "" "last_main_topic" "main_topics" st m l)
            as (st1 & Hrun); [done..|]; by erewrite saved_result ].
Qed.

(** The scheme of the manager built again from disk is one the scheme in
    memory has grown from. *)
Lemma reload_scheme st :
  persisted st → grows (numbering_scheme (reload st)) (numbering_scheme st).
Proof.
  intros Hp. pose proof Hp as (Hw & Hr & Hrules & sd & Hsd & Hne & Hg).
  unfold reload.
  destruct (new_manager _ _ _) as [st'|e] eqn:E; [|apply grows_refl].
  destruct (new_manager_persisted _ _ _ _ E Hw Hr) as (_ & _ & Hl).
  destruct (Hl sd Hsd Hne) as (_ & ->). done.
Qed.

(** From a persisted state on, every allocation for a category of a bucket
    whose counter and list the scheme holds returns an id. *)
Lemma run_bucket_progress category_ pre field ops :
  ∀ st,
    persisted st →
    bucket_of (zettel_numbering_rules st) category_ = Some (pre, field) →
    is_Some (counter (numbering_scheme st) field) →
    (∀ lf, bucket_list category_ = Some lf →
           ∃ l, numbering_scheme st !! lf = Some (JList l)) →
    Forall (λ entry, entry.1 = category_ → is_ok entry.2) (run ops st).
Proof.
  induction ops as [|o ops IH]; intros st Hp Hb Hc Hl; [constructor|].
  destruct o as [content_ c|base_topic new_content|]; simpl.
  - destruct (generate_zettel_number content_ c st) as [r st'] eqn:E.
    destruct (generate_shape content_ c st) as (body & Hbody & Hshape).
    pose proof E as E'. rewrite Hshape in E'.
    destruct (persisted_step body st r st' Hbody Hp E') as (Hp' & _ & Hg & _ & Hru).
    constructor.
    + simpl. intros ->.
      pose proof (generate_bucket_progress st content_ category_ pre field Hb Hc Hl)
        as Hok.
      by rewrite E in Hok.
    + apply IH; [done|by rewrite Hru|by apply (grows_is_counter _ _ _ Hg)|].
      intros lf Hlf. apply (grows_is_list _ _ _ Hg). by apply Hl.
  - destruct (expand_thematic_structure base_topic new_content st) as [r st'] eqn:E.
    destruct (expand_shape base_topic new_content st) as (body & Hbody & Hshape).
    rewrite Hshape in E.
    destruct (persisted_step body st r st' Hbody Hp E) as (Hp' & _ & Hg & _ & Hru).
    cbn [snd].
    apply IH; [done|by rewrite Hru|by apply (grows_is_counter _ _ _ Hg)|].
    intros lf Hlf. apply (grows_is_list _ _ _ Hg). by apply Hl.
  - destruct (reload_persisted st Hp) as (Hp' & _ & Hru).
    pose proof (reload_scheme st Hp) as Hg.
    apply IH; [done|by rewrite Hru|by apply (grows_is_counter _ _ _ Hg)|].
    intros lf Hlf. apply (grows_is_list _ _ _ Hg). by apply Hl.
Qed.

(** C1, as the code has it: on a manager whose scheme document can be
    written and read, through any sequence of allocations, expansions and
    rebuilds of the manager from disk, the ids drawn from one counter with
    one prefix are the prefix followed by counter values that increase
    strictly, and none of them comes twice; and when the scheme holds the
    counter as a number and the membership list of the category as a list,
    every allocation for the category returns an id. *)
Theorem allocation_strictly_increasing :
  ∀ base metadata w st0 ops pre field,
    new_manager base metadata w = Ok st0 →
    write_error w (path_join metadata "numbering_scheme.json") = None →
    read_error w (path_join metadata "numbering_scheme.json") = false →
    (∃ counters,
        ids_of_bucket (zettel_numbering_rules st0) pre field (run ops st0)
          = map (λ n, pre +:+ pretty n) counters
        ∧ StronglySorted Z.lt counters
        ∧ NoDup (ids_of_bucket (zettel_numbering_rules st0) pre field (run ops st0)))
    ∧ ∀ category_,
        bucket_of (zettel_numbering_rules st0) category_ = Some (pre, field) →
        is_Some (counter (numbering_scheme st0) field) →
        (∀ lf, bucket_list category_ = Some lf →
               ∃ l, numbering_scheme st0 !! lf = Some (JList l)) →
        Forall (λ entry, entry.1 = category_ → is_ok entry.2) (run ops st0).
Proof.
  intros base metadata w st0 ops pre field Hnew Hw Hr.
  destruct (new_manager_persisted _ _ _ _ Hnew Hw Hr) as (Hp & _). split.
  - destruct (run_bucket_increasing pre field ops st0 Hp) as (cs & Hids & Hs & _).
    exists cs. split; [done|]. split; [done|].
    rewrite Hids. pose proof (id_of_counter_inj pre) as Hinj.
    change (NoDup ((λ n : Z, pre +:+ pretty n) <$> cs)).
    apply NoDup_fmap_2; [exact Hinj|]. by apply sorted_lt_nodup.
  - intros category_ Hb Hc Hl. by eapply run_bucket_progress.
Qed.

Lemma allocation_strictly_increasing_witness :
  new_manager "X" "X/_metadata" configured_world = Ok (manager_of configured_world)
  ∧ (∃ counters,
      ids_of_bucket (zettel_numbering_rules (manager_of configured_world))
        "Q" "last_quote"
        (run [Generate "a" "quote"; Generate "b" "main"; Reload;
              Expand "7" "c"; Generate "d" "quote"] (manager_of configured_world))
        = map (λ n, "Q" +:+ pretty n) counters
      ∧ StronglySorted Z.lt counters
      ∧ NoDup (ids_of_bucket (zettel_numbering_rules (manager_of configured_world))
          "Q" "last_quote"
          (run [Generate "a" "quote"; Generate "b" "main"; Reload;
                Expand "7" "c"; Generate "d" "quote"] (manager_of configured_world))))
  ∧ Forall (λ entry, entry.1 = "quote" → is_ok entry.2)
      (run [Generate "a" "quote"; Generate "b" "main"; Reload;
            Expand "7" "c"; Generate "d" "quote"] (manager_of configured_world)).
Proof.
  split; [vm_compute; reflexivity|].
  destruct (allocation_strictly_increasing "X" "X/_metadata" configured_world
              (manager_of configured_world)
              [Generate "a" "quote"; Generate "b" "main"; Reload;
               Expand "7" "c"; Generate "d" "quote"] "Q" "last_quote")
    as [Hids Hok]; [vm_compute; reflexivity..|].
  split; [exact Hids|]. apply (Hok "quote").
  - vm_compute. reflexivity.
  - eexists. vm_compute. reflexivity.
  - intros lf [= <-]. eexists. vm_compute. reflexivity.
Defined.

(** C1, as stated, fails: when the scheme document cannot be written, the
    manager built again from disk starts from the old counter and the id
    [1] of [main] comes a second time; a rule that names a counter the
    scheme lacks makes the allocation raise instead of returning an id; and
    two rules with the same prefix on different counters hand out the same
    id. *)
Lemma failed_write_repeats_id_counterexample :
  (new_manager "X" "X/_metadata" unwritable_scheme_world
     = Ok (manager_of unwritable_scheme_world)
   ∧ bucket_of (zettel_numbering_rules (manager_of unwritable_scheme_world)) "main"
     = Some ("", "last_main_topic")
   ∧ run [Generate "a" "main"; Reload; Generate "b" "main"]
       (manager_of unwritable_scheme_world)
     = [("main", Ok "1"); ("main", Ok "1")])
  ∧ (bucket_of (zettel_numbering_rules (manager_of misconfigured_world)) "log"
     = Some ("L", "last_log")
     ∧ run [Generate "text" "log"] (manager_of misconfigured_world)
       = [("log", Raise (KeyError "last_log"))])
  ∧ (run [Generate "a" "notes"; Generate "b" "drafts"]
       (manager_of colliding_rules_world)
     = [("notes", Ok "N1"); ("drafts", Ok "N1")]).
Proof. repeat split; vm_compute; reflexivity. Qed.

Example allocation_trace_example :
  run [Generate "a" "quote"; Generate "b" "main"; Reload;
       Expand "7" "c"; Generate "d" "quote"; Generate "e" "draft";
       Generate "f" "frequent"; Generate "g" "main"] (manager_of configured_world)
  = [("quote", Ok "Q1"); ("main", Ok "1"); ("quote", Ok "Q2");
     ("draft", Ok "unknown"); ("frequent", Ok "A1"); ("main", Ok "3")].
Proof. vm_compute. reflexivity. Qed.

(** ** Allocation without a rule *)

Lemma scheme_saved_rules st :
  zettel_numbering_rules (scheme_saved st) = zettel_numbering_rules st.
Proof. unfold scheme_saved. by destruct (write_error _ _). Qed.

Lemma default_scheme_wf : wf_scheme default_scheme.
Proof.
  repeat split; try (eexists; vm_compute; reflexivity).
  exists ∅. split; [vm_compute; reflexivity|].
  intros p children H. by rewrite lookup_empty in H.
Qed.

Lemma generate_no_rule_ok st content_ category_ :
  wf_scheme (numbering_scheme st) →
  zettel_numbering_rules st !! category_ = None →
  is_ok (generate_zettel_number content_ category_ st).1.
Proof.
  intros Hwf Hr.
  destruct Hwf as ((nm & Hnm) & (nf & Hnf) & (nq & Hnq) & (lm & Hlm)
                   & (lf & Hlf) & (lq & Hlq) & d & Hd & Hne).
  rewrite generate_no_rule_run by done.
  destruct (decide (category_ = "frequent")) as [->|Hf];
    [|destruct (decide (category_ = "quote")) as [->|Hq];
      [|destruct (decide (category_ = "main")) as [->|Hm]]].
  - destruct (bucket_step_run "A" "last_frequent" "frequently_accessed" st nf lf)
      as (st1 & Hrun); [done..|].
    by erewrite saved_result.
  - destruct (bucket_step_run "Z" "last_quote" "quotes_excerpts" st nq lq)
      as (st1 & Hrun); [done..|].
    by erewrite saved_result.
  - destruct (bucket_step_run "" "last_main_topic" "main_topics" st nm lm)
      as (st1 & Hrun); [done..|].
    by erewrite saved_result.
  - assert (Forall (λ item, item ≠ "") (default [] (d !! Str.before_slash category_)))
      as Hch.
    { destruct (d !! _) eqn:E; [by eapply Hne|constructor]. }
    destruct (get_next_subtopic_letter_spec _ Hch) as (suffix & Hl & Hspec).
    erewrite saved_result; [done|]. by apply allocate_subtopic_run.
Qed.

Lemma new_manager_default_table base metadata w st :
  new_manager base metadata w = Ok st →
  _load_numbering_rules w = ∅ → scheme_doc_ok w →
  on_default_table st.
Proof.
  intros ->%new_manager_inv Hlo Hdoc. destruct (decide _) as [He|Hne].
  - refine (conj _ (conj _ (conj _ _))).
    + rewrite scheme_saved_scheme. apply default_scheme_wf.
    + by rewrite scheme_saved_rules.
    + unfold scheme_saved. by destruct (write_error _ _).
    + unfold scheme_doc_ok, scheme_saved.
      destruct (write_error _ _); simpl; [done|]. right. apply default_scheme_wf.
  - simpl in Hne. refine (conj _ (conj _ (conj _ _))); try done.
    simpl. unfold _load_metadata, scheme_doc_ok in *.
    destruct (scheme_doc w) as [| |sd]; try done.
    destruct (read_error _ _); [done|]. by destruct Hdoc.
Qed.

(** C5, as the code has it: a manager made over a rule resource that is
    missing, cannot be decoded or has no rule table, and over a scheme
    document that is absent, unreadable, empty or well formed, has the empty
    rule table and returns an id for every category; on a scheme with its
    seven fields, each of its kind, and no empty id among the recorded
    subtopics, a category without a rule always gets an id, from the
    built-in counters for [main], [frequent] and [quote] and as a subtopic
    of the text before its first slash otherwise; the id [unknown] is that
    of a category whose rule has no increment field. *)
Theorem allocation_without_rule :
  (∀ base metadata w st content_ category_,
      new_manager base metadata w = Ok st →
      rules_doc w = Absent ∨ rules_doc w = Corrupt ∨ rules_doc w = Stored None →
      scheme_doc_ok w →
      zettel_numbering_rules st = ∅
      ∧ is_ok (generate_zettel_number content_ category_ st).1)
  ∧ (∀ st content_ category_,
       wf_scheme (numbering_scheme st) →
       zettel_numbering_rules st !! category_ = None →
       ∃ id, (generate_zettel_number content_ category_ st).1 = Ok id
         ∧ (category_ = "main" →
              ∃ m, counter (numbering_scheme st) "last_main_topic" = Some m
                   ∧ id = pretty (m + 1)%Z)
         ∧ (category_ = "frequent" →
              ∃ m, counter (numbering_scheme st) "last_frequent" = Some m
                   ∧ id = "A" +:+ pretty (m + 1)%Z)
         ∧ (category_ = "quote" →
              ∃ m, counter (numbering_scheme st) "last_quote" = Some m
                   ∧ id = "Z" +:+ pretty (m + 1)%Z)
         ∧ (category_ ≠ "main" → category_ ≠ "frequent" → category_ ≠ "quote" →
              ∃ d suffix,
                numbering_scheme st !! "subtopics" = Some (JSubs d)
                ∧ id = Str.before_slash category_ +:+ suffix
                ∧ next_letter_is (default [] (d !! Str.before_slash category_)) suffix))
  ∧ (∀ st content_ category_ rule,
       zettel_numbering_rules st !! category_ = Some rule →
       truthy_field (increment_field rule) = None →
       (generate_zettel_number content_ category_ st).1 = Ok "unknown").
Proof.
  split; [|split].
  - intros base metadata w st content_ category_ Hnew Hdoc Hscheme.
    assert (_load_numbering_rules w = ∅) as Hrules.
    { unfold _load_numbering_rules. by destruct Hdoc as [->|[->| ->]]. }
    destruct (new_manager_default_table _ _ _ _ Hnew Hrules Hscheme)
      as (Hwf & Hr & _).
    split; [done|]. apply generate_no_rule_ok; [done|]. by rewrite Hr.
  - intros st content_ category_ Hwf Hr.
    destruct Hwf as ((nm & Hnm) & (nf & Hnf) & (nq & Hnq) & (lm & Hlm)
                     & (lf & Hlf) & (lq & Hlq) & d & Hd & Hne).
    rewrite generate_no_rule_run by done.
    destruct (decide (category_ = "frequent")) as [->|Hf];
      [|destruct (decide (category_ = "quote")) as [->|Hq];
        [|destruct (decide (category_ = "main")) as [->|Hm]]].
    + destruct (bucket_step_run "A" "last_frequent" "frequently_accessed" st nf lf)
        as (st1 & Hrun); [done..|].
      eexists. split; [by eapply saved_result|].
      unfold counter. rewrite Hnf. repeat split; try done; eauto.
    + destruct (bucket_step_run "Z" "last_quote" "quotes_excerpts" st nq lq)
        as (st1 & Hrun); [done..|].
      eexists. split; [by eapply saved_result|].
      unfold counter. rewrite Hnq. repeat split; try done; eauto.
    + destruct (bucket_step_run "" "last_main_topic" "main_topics" st nm lm)
        as (st1 & Hrun); [done..|].
      eexists. split; [by eapply saved_result|].
      unfold counter. rewrite Hnm. repeat split; try done; eauto.
    + assert (Forall (λ item, item ≠ "") (default [] (d !! Str.before_slash category_)))
        as Hch.
      { destruct (d !! _) eqn:E; [by eapply Hne|constructor]. }
      destruct (get_next_subtopic_letter_spec _ Hch) as (suffix & Hl & Hspec).
      eexists. split.
      { eapply saved_result. by apply allocate_subtopic_run. }
      repeat split; try done. intros _ _ _. eauto.
  - intros st content_ category_ rule Hr Ht. unfold generate_zettel_number.
    unfold bind at 1. unfold gets at 1. cbv beta iota. rewrite Hr, Ht.
    by eapply saved_result.
Qed.

Lemma allocation_without_rule_witness :
  new_manager "X" "X/_metadata" empty_world = Ok (manager_of empty_world)
  ∧ ∃ id, (generate_zettel_number "text" "project" (manager_of empty_world)).1 = Ok id
      ∧ ("project" = "main" →
           ∃ m, counter (numbering_scheme (manager_of empty_world)) "last_main_topic" = Some m
                ∧ id = pretty (m + 1)%Z)
      ∧ ("project" = "frequent" →
           ∃ m, counter (numbering_scheme (manager_of empty_world)) "last_frequent" = Some m
                ∧ id = "A" +:+ pretty (m + 1)%Z)
      ∧ ("project" = "quote" →
           ∃ m, counter (numbering_scheme (manager_of empty_world)) "last_quote" = Some m
                ∧ id = "Z" +:+ pretty (m + 1)%Z)
      ∧ ("project" ≠ "main" → "project" ≠ "frequent" → "project" ≠ "quote" →
           ∃ d suffix,
             numbering_scheme (manager_of empty_world) !! "subtopics" = Some (JSubs d)
             ∧ id = Str.before_slash "project" +:+ suffix
             ∧ next_letter_is (default [] (d !! Str.before_slash "project")) suffix).
Proof.
  split; [vm_compute; reflexivity|].
  apply (proj1 (proj2 allocation_without_rule)).
  - repeat split; try (eexists; vm_compute; reflexivity).
    exists ∅. split; [vm_compute; reflexivity|]. intros p children H.
    by rewrite lookup_empty in H.
  - vm_compute; reflexivity.
Defined.

(** C5, as stated, fails: with no rule resource at all the unrecognized
    category [project] gets the subtopic id [projecta], not [unknown]; and
    a rule that names a counter the scheme lacks makes the call raise. *)
Lemma unknown_sentinel_counterexample :
  (new_manager "X" "X/_metadata" empty_world = Ok (manager_of empty_world)
   ∧ zettel_numbering_rules (manager_of empty_world) !! "project" = None
   ∧ (generate_zettel_number "text" "project" (manager_of empty_world)).1 = Ok "projecta"
   ∧ (generate_zettel_number "text" "project" (manager_of empty_world)).1 ≠ Ok "unknown")
  ∧ (new_manager "X" "X/_metadata" misconfigured_world = Ok (manager_of misconfigured_world)
     ∧ (generate_zettel_number "text" "log" (manager_of misconfigured_world)).1
       = Raise (KeyError "last_log")).
Proof.
  repeat split; try (vm_compute; reflexivity). by vm_compute.
Qed.

(** ** Creating a card *)

Lemma od_get_set_eq {V} k (v : V) d : od_get k (od_set k v d) = Some v.
Proof.
  induction d as [|[k' v'] d IH]; simpl.
  - by rewrite decide_True.
  - destruct (decide (k = k')) as [->|Hne]; simpl.
    + by rewrite decide_True.
    + by rewrite decide_False.
Qed.

Lemma od_get_set_ne {V} k k' (v : V) d :
  k ≠ k' → od_get k' (od_set k v d) = od_get k' d.
Proof.
  intros Hne. induction d as [|[k0 v0] d IH]; simpl.
  - by rewrite decide_False.
  - destruct (decide (k = k0)) as [->|Hne0]; simpl.
    + by rewrite !decide_False.
    + by rewrite IH.
Qed.

Lemma od_set_forall {V} (P : string * V → Prop) k v d :
  P (k, v) → Forall P d → Forall P (od_set k v d).
Proof.
  intros Hv. induction 1 as [|[k' v'] d Hx Hd IH]; simpl.
  - by repeat constructor.
  - destruct (decide (k = k')); constructor; auto.
Qed.

Lemma get_str_textual (info : gmap string fval) key e :
  (∀ l, info !! key ≠ Some (FList l)) → info !! key ≠ Some FNull →
  ∃ s, get_str info key e = Ok s.
Proof.
  intros Hl Hn. unfold get_str.
  destruct (info !! key) as [[|s|l]|]; eauto; [done|]. by destruct (Hl l).
Qed.

Lemma find_zettel_connections_ok w c index :
  textual_index index → is_ok (_find_zettel_connections_loop w c index).
Proof.
  induction 1 as [|[num info] index Ht _ IH]; simpl; [done|].
  destruct (decide _); [done|].
  destruct Ht as (Htags & Ht1 & Ht2 & Hc1 & Hc2). simpl in *.
  assert (∃ ts, get_tags info = Ok ts) as (ts & ->).
  { unfold get_tags. destruct (info !! "tags") as [[| |]|]; eauto. done. }
  destruct (get_str_textual info "title" AttributeError Ht1 Ht2) as (t & ->).
  destruct (get_str_textual info "category" TypeError Hc1 Hc2) as (cat & ->).
  simpl. destruct (_find_zettel_connections_loop w c index); [|done].
  simpl. by destruct (_ || _).
Qed.

Lemma index_entry_textual card_file title_ category_ created_ :
  textual (index_entry card_file title_ category_ created_).
Proof. unfold textual, index_entry. repeat split; try intros l; by vm_compute. Qed.


(** When the number is allocated and no directory creation, write or card
    index entry gets in the way, [create_zettel_card] returns the card and
    registers it. *)
Lemma create_ok now1 now2 content_ title_ category_ xrefs tags_ extra st id st1 :
  generate_zettel_number content_ category_ st = (Ok id, st1) →
  no_io_errors st1 →
  textual_index (card_index st1) →
  let card := {| number := id; title := title_; content := content_;
                 category := category_;
                 card_cross_references := default [] xrefs;
                 tags := default [] tags_; created := now1; modified := now2 |} in
  ∃ st',
    create_zettel_card now1 now2 content_ title_ category_ xrefs tags_ extra st
      = (Ok (Card card), st')
    ∧ numbering_scheme st' = numbering_scheme st1
    ∧ zettel_numbering_rules st' = zettel_numbering_rules st1
    ∧ card_index st' =
        od_set id
          (index_entry (path_join (folder_of (base_path st1) category_) (id +:+ ".md"))
                       title_ category_ now1)
          (card_index st1)
    ∧ no_io_errors st'.
Proof.
  intros Hgen [Hmk Hwr] Hidx card.
  unfold create_zettel_card. rewrite (bind_ok _ _ _ _ _ Hgen).
  unfold bind at 1. unfold gets at 1. cbv beta iota.
  fold (folder_of (base_path st1) category_).
  unfold bind at 1. unfold mkdir at 1. rewrite Hmk.
  unfold bind at 1. unfold _format_card_content.
  destruct (_generate_ai_thoughts _) as [ai_hashtags comment].
  unfold bind at 1. unfold _find_zettel_connections, bind, gets, lift.
  pose proof (find_zettel_connections_ok (env st1) card _ Hidx) as Hok.
  fold card.
  destruct (_find_zettel_connections_loop (env st1) card (card_index st1)); [|done].
  unfold ret at 1. unfold try_except, bind, write_file, modify, ret.
  rewrite Hwr. simpl.
  destruct extra as [[|ch ex]|];
    (destruct (default [] xrefs) as [|x xs] eqn:Hx;
     unfold _add_cross_references, _save_metadata, bind, modify, gets, mkdir,
       write_file, ret;
     repeat first [progress simpl | rewrite Hwr | rewrite Hmk];
     eexists; (split; [reflexivity|]); simpl; repeat split; done).
Qed.

(** [generate_zettel_number] leaves everything but the scheme alone. *)
Lemma generate_frame content_ category_ st r st' :
  generate_zettel_number content_ category_ st = (r, st') →
  zettel_numbering_rules st' = zettel_numbering_rules st
  ∧ card_index st' = card_index st
  ∧ cross_references st' = cross_references st
  ∧ base_path st' = base_path st
  ∧ metadata_path st' = metadata_path st
  ∧ mkdir_error (env st') = mkdir_error (env st)
  ∧ write_error (env st') = write_error (env st)
  ∧ index_doc (env st') = index_doc (env st)
  ∧ files (env st') = files (env st).
Proof.
  destruct (generate_shape content_ category_ st) as (body & Hbody & ->).
  unfold bind. destruct (body st) as [[x|e] st1] eqn:E;
    apply Hbody in E as (Hf & _ & _); unfold numbering_frame in Hf; destruct_and!.
  - rewrite save_numbering_scheme_run. intros [= <- <-].
    unfold scheme_saved. destruct (write_error _ _); simpl; repeat split; done.
  - intros [= <- <-]. repeat split; done.
Qed.

Lemma create_after_generate now1 now2 content_ title_ category_ xrefs tags_ extra
    st id st1 :
  no_io_errors st →
  textual_index (card_index st) →
  generate_zettel_number content_ category_ st = (Ok id, st1) →
  ∃ c st',
    create_zettel_card now1 now2 content_ title_ category_ xrefs tags_ extra st
      = (Ok (Card c), st')
    ∧ number c = id
    ∧ numbering_scheme st' = numbering_scheme st1
    ∧ zettel_numbering_rules st' = zettel_numbering_rules st
    ∧ textual_index (card_index st')
    ∧ no_io_errors st'.
Proof.
  intros [Hmk Hwr] Hidx Hgen.
  destruct (generate_frame _ _ _ _ _ Hgen)
    as (Hru & Hci & _ & _ & _ & Hme & Hwe & _).
  assert (no_io_errors st1) as Hio1.
  { split; intros p; [rewrite Hme|rewrite Hwe]; auto. }
  assert (textual_index (card_index st1)) as Hidx1 by (by rewrite Hci).
  destruct (create_ok now1 now2 content_ title_ category_ xrefs tags_ extra
              st id st1 Hgen Hio1 Hidx1) as (st' & Hc & Hs & Hr & Hi & Hio).
  eexists _, st'. split; [exact Hc|]. split; [done|]. split; [done|].
  split; [congruence|]. split; [|done].
  rewrite Hi. apply od_set_forall; [|done]. apply index_entry_textual.
Qed.

Lemma generate_main_run st content_ m l :
  (zettel_numbering_rules st !! "main" = None
   ∨ zettel_numbering_rules st !! "main"
     = Some {| prefix := ""; increment_field := Some "last_main_topic" |}) →
  numbering_scheme st !! "last_main_topic" = Some (JNum m) →
  numbering_scheme st !! "main_topics" = Some (JList l) →
  ∃ st',
    generate_zettel_number content_ "main" st = (Ok (pretty (m + 1)%Z), st')
    ∧ numbering_scheme st' =
        <["main_topics" := JList (l ++ [pretty (m + 1)%Z])]>
          (<["last_main_topic" := JNum (m + 1)]> (numbering_scheme st)).
Proof.
  intros Hr Hm Hl.
  assert (generate_zettel_number content_ "main" st =
          (let! number :=
             (let! n := scheme_increment "last_main_topic" in
              let number := pretty n in
              let! _ := scheme_append "main_topics" number in ret number) in
           let! _ := save_numbering_scheme in ret number) st) as ->.
  { destruct Hr as [Hr|Hr].
    - by rewrite generate_no_rule_run.
    - unfold generate_zettel_number. unfold bind at 1. unfold gets at 1.
      cbv beta iota. by rewrite Hr. }
  unfold bind, scheme_increment, scheme_append, ret. rewrite Hm. simpl.
  rewrite lookup_insert_ne by done. rewrite Hl, save_numbering_scheme_run.
  eexists. split; [reflexivity|]. by rewrite scheme_saved_scheme.
Qed.

Lemma generate_subtopic_state st content_ category_ d suffix :
  zettel_numbering_rules st !! category_ = None →
  category_ ≠ "frequent" → category_ ≠ "quote" → category_ ≠ "main" →
  numbering_scheme st !! "subtopics" = Some (JSubs d) →
  _get_next_subtopic_letter (default [] (d !! Str.before_slash category_)) = Ok suffix →
  ∃ st',
    generate_zettel_number content_ category_ st
      = (Ok (Str.before_slash category_ +:+ suffix), st').
Proof.
  intros Hr Hf Hq Hm Hs Hl. rewrite generate_subtopic_run by done.
  erewrite bind_ok by (by apply allocate_subtopic_run).
  unfold bind. rewrite save_numbering_scheme_run. eauto.
Qed.

(** C9: on an empty store (no scheme and no card index on disk, nothing
    failing), with [main] either without a rule or with the rule of the
    main counter, and no rule for [1]: the first card of category [main]
    gets id 1, the second id 2, and a card of category [1] then gets 1a. *)
Theorem first_cards_end_to_end :
  ∀ base metadata w st0
    now1 now1' content1 title1 xrefs1 tags1 extra1
    now2 now2' content2 title2 xrefs2 tags2 extra2
    now3 now3' content3 title3 xrefs3 tags3 extra3,
    new_manager base metadata w = Ok st0 →
    scheme_doc w = Absent → index_doc w = Absent →
    (∀ p, mkdir_error w p = None) → (∀ p, write_error w p = None) →
    (_load_numbering_rules w !! "main" = None
     ∨ _load_numbering_rules w !! "main"
       = Some {| prefix := ""; increment_field := Some "last_main_topic" |}) →
    _load_numbering_rules w !! "1" = None →
    ∃ c1 st1 c2 st2 c3 st3,
      create_zettel_card now1 now1' content1 title1 "main" xrefs1 tags1 extra1 st0
        = (Ok (Card c1), st1)
      ∧ number c1 = "1"
      ∧ create_zettel_card now2 now2' content2 title2 "main" xrefs2 tags2 extra2 st1
        = (Ok (Card c2), st2)
      ∧ number c2 = "2"
      ∧ create_zettel_card now3 now3' content3 title3 "1" xrefs3 tags3 extra3 st2
        = (Ok (Card c3), st3)
      ∧ number c3 = "1a".
Proof.
  intros base metadata w st0 now1 now1' content1 title1 xrefs1 tags1 extra1
    now2 now2' content2 title2 xrefs2 tags2 extra2
    now3 now3' content3 title3 xrefs3 tags3 extra3
    Hnew Hsd Hid Hmk Hwr Hmain Hone.
  apply new_manager_inv in Hnew.
  assert (numbering_scheme (loaded_state base metadata w) = ∅) as Hempty.
  { simpl. unfold _load_metadata. by rewrite Hsd. }
  rewrite decide_True in Hnew by done.
  assert (numbering_scheme st0 = default_scheme
          ∧ zettel_numbering_rules st0 = _load_numbering_rules w
          ∧ textual_index (card_index st0) ∧ no_io_errors st0) as (Hs0 & Hr0 & Hi0 & Hio0).
  { subst st0. unfold scheme_saved. simpl. rewrite Hwr. simpl.
    unfold _load_metadata. rewrite Hid. repeat split; try done. constructor. }
  (* first card *)
  destruct (generate_main_run st0 content1 0 []) as (g1 & Hg1 & Hgs1);
    [by rewrite Hr0|by rewrite Hs0..|].
  destruct (create_after_generate now1 now1' content1 title1 "main" xrefs1 tags1
              extra1 st0 _ g1 Hio0 Hi0 Hg1) as (c1 & st1 & Hc1 & Hn1 & Hs1 & Hr1 & Hi1 & Hio1).
  (* second card *)
  destruct (generate_main_run st1 content2 1 ["1"]) as (g2 & Hg2 & Hgs2);
    [by rewrite Hr1, Hr0|by rewrite Hs1, Hgs1, Hs0..|].
  destruct (create_after_generate now2 now2' content2 title2 "main" xrefs2 tags2
              extra2 st1 _ g2 Hio1 Hi1 Hg2) as (c2 & st2 & Hc2 & Hn2 & Hs2 & Hr2 & Hi2 & Hio2).
  (* third card *)
  destruct (generate_subtopic_state st2 content3 "1" ∅ "a") as (g3 & Hg3);
    [by rewrite Hr2, Hr1, Hr0|done..|by rewrite Hs2, Hgs2, Hs1, Hgs1, Hs0|done|].
  destruct (create_after_generate now3 now3' content3 title3 "1" xrefs3 tags3
              extra3 st2 _ g3 Hio2 Hi2 Hg3) as (c3 & st3 & Hc3 & Hn3 & _).
  exists c1, st1, c2, st2, c3, st3. repeat split; done.
Qed.

Lemma first_cards_end_to_end_witness :
  new_manager "X" "X/_metadata" empty_world = Ok (manager_of empty_world)
  ∧ ∃ c1 st1 c2 st2 c3 st3,
      create_zettel_card "t1" "t1" "Notes on rivers" "Rivers" "main" None None None
        (manager_of empty_world) = (Ok (Card c1), st1)
      ∧ number c1 = "1"
      ∧ create_zettel_card "t2" "t2" "Notes on lakes" "Lakes" "main" None None None st1
        = (Ok (Card c2), st2)
      ∧ number c2 = "2"
      ∧ create_zettel_card "t3" "t3" "The Rhine" "Rhine" "1" None None None st2
        = (Ok (Card c3), st3)
      ∧ number c3 = "1a".
Proof.
  split; [vm_compute; reflexivity|].
  apply (first_cards_end_to_end "X" "X/_metadata" empty_world);
    try reflexivity; try (vm_compute; reflexivity).
  left. vm_compute. reflexivity.
Defined.

Lemma subtopic_allocation_next_letter_witness :
  ∃ suffix,
    (generate_zettel_number "text" "3" (manager_with_children ["3a"; "3b"])).1
      = Ok (Str.before_slash "3" +:+ suffix)
    ∧ next_letter_is
        (default [] (({["3" := ["3a"; "3b"]]} : gmap string (list string))
                       !! Str.before_slash "3")) suffix.
Proof.
  apply (proj1 subtopic_allocation_next_letter
           (manager_with_children ["3a"; "3b"]) "text" "3" {["3" := ["3a"; "3b"]]});
    try done; try (vm_compute; reflexivity).
  vm_compute. repeat constructor; done.
Defined.

Example subtopic_after_two :
  (generate_zettel_number "text" "3" (manager_with_children ["3a"; "3b"])).1
    = Ok "3c".
Proof. vm_compute. reflexivity. Qed.

Example subtopic_after_twenty_six :
  (generate_zettel_number "text" "3"
     (manager_with_children (map (λ c, "3" +:+ String c "") alphabet))).1
    = Ok "3aa".
Proof. vm_compute. reflexivity. Qed.

(** ** Cross-references *)

Lemma adjacent_ensure_key k g a b :
  adjacent (ensure_key k g) a b ↔ adjacent g a b.
Proof.
  unfold ensure_key, adjacent. destruct (g !! k) eqn:E; [done|].
  destruct (decide (k = a)) as [->|Hne].
  - rewrite lookup_insert_eq, E. split; intros (l & Hl & Hin); [|done].
    injection Hl as <-. by apply elem_of_nil in Hin.
  - by rewrite lookup_insert_ne.
Qed.

Lemma adjacent_append_if_missing k x g a b :
  adjacent (append_if_missing k x g) a b ↔ adjacent g a b ∨ (a = k ∧ b = x).
Proof.
  unfold append_if_missing, adjacent. case_bool_decide as Hin.
  - split; [by left|]. intros [H|[-> ->]]; [done|].
    destruct (g !! k) as [l|]; simpl in Hin; [eauto|by apply elem_of_nil in Hin].
  - destruct (decide (k = a)) as [->|Hne].
    + rewrite lookup_insert_eq. split.
      * intros (l & [= <-] & [Hb| ->%list_elem_of_singleton]%elem_of_app); [|by right].
        left. destruct (g !! a) as [l|]; simpl in *; [eauto|by apply elem_of_nil in Hb].
      * intros [(l & Hl & Hb)|[_ ->]]; eexists; (split; [done|]);
          apply elem_of_app; [left|right; by apply list_elem_of_singleton].
        by rewrite Hl.
    + rewrite lookup_insert_ne by done. split; [by left|].
      intros [H|[-> _]]; done.
Qed.

Lemma adjacent_add_edge s t g a b :
  adjacent (add_edge s t g) a b
  ↔ adjacent g a b ∨ (a = s ∧ b = t) ∨ (a = t ∧ b = s).
Proof.
  unfold add_edge.
  rewrite !adjacent_append_if_missing, !adjacent_ensure_key. tauto.
Qed.

Lemma no_duplicates_ensure_key k g :
  no_duplicates g → no_duplicates (ensure_key k g).
Proof.
  intros H a l. unfold ensure_key. destruct (g !! k) eqn:E; [apply H|].
  destruct (decide (k = a)) as [->|Hne].
  - rewrite lookup_insert_eq. intros [= <-]. constructor.
  - rewrite lookup_insert_ne by done. apply H.
Qed.

Lemma no_duplicates_append_if_missing k x g :
  no_duplicates g → no_duplicates (append_if_missing k x g).
Proof.
  intros H a l. unfold append_if_missing. case_bool_decide as Hin; [apply H|].
  destruct (decide (k = a)) as [->|Hne].
  - rewrite lookup_insert_eq. intros [= <-].
    apply NoDup_app. split; [|split].
    + destruct (g !! a) eqn:E; simpl; [by eapply H|constructor].
    + intros y Hy ->%list_elem_of_singleton. done.
    + apply NoDup_singleton.
  - rewrite lookup_insert_ne by done. apply H.
Qed.

Lemma add_edge_invariant s t g :
  symmetric g → no_duplicates g →
  symmetric (add_edge s t g) ∧ no_duplicates (add_edge s t g).
Proof.
  intros Hs Hn. split.
  - intros a b. rewrite !adjacent_add_edge. specialize (Hs a b). tauto.
  - unfold add_edge.
    by repeat first [apply no_duplicates_append_if_missing
                    | apply no_duplicates_ensure_key].
Qed.

Lemma add_edges_invariant s ts g :
  symmetric g → no_duplicates g →
  symmetric (add_edges s ts g) ∧ no_duplicates (add_edges s ts g).
Proof.
  unfold add_edges. revert g. induction ts as [|t ts IH]; intros g Hs Hn; simpl.
  - done.
  - destruct (add_edge_invariant s t g Hs Hn). by apply IH.
Qed.

Lemma add_edge_present s t g :
  adjacent g s t → adjacent g t s → add_edge s t g = g.
Proof.
  intros (ls & Hls & Hts) (lt & Hlt & Hst).
  unfold add_edge, ensure_key. rewrite Hls, Hlt.
  unfold append_if_missing. rewrite Hls.
  change (default [] (Some ls)) with ls.
  rewrite (bool_decide_eq_true_2 _ Hts). rewrite Hlt.
  change (default [] (Some lt)) with lt.
  by rewrite (bool_decide_eq_true_2 _ Hst).
Qed.

(** What [_add_cross_references] leaves in memory. *)
Lemma add_cross_references_graph s ts st :
  cross_references (_add_cross_references s ts st).2
    = add_edges s ts (cross_references st).
Proof.
  unfold _add_cross_references. destruct ts as [|t ts]; [done|].
  unfold bind, modify, gets, _save_metadata. simpl.
  by destruct (write_error _ _).
Qed.

Lemma add_calls_invariant calls st :
  symmetric (cross_references st) → no_duplicates (cross_references st) →
  symmetric (cross_references (add_calls calls st))
  ∧ no_duplicates (cross_references (add_calls calls st)).
Proof.
  unfold add_calls. revert st.
  induction calls as [|[s ts] calls IH]; intros st Hs Hn; simpl; [done|].
  apply IH; rewrite add_cross_references_graph; by apply add_edges_invariant.
Qed.

Lemma add_edge_new_target s t (g : gmap string (list string)) :
  s ≠ t → g !! t = None → t ∉ default [] (g !! s) →
  add_edge s t g = <[t := [s]]> (<[s := default [] (g !! s) ++ [t]]> g).
Proof.
  intros Hne Ht Hin. unfold add_edge.
  assert (ensure_key t (ensure_key s g)
          = <[t := []]> (<[s := default [] (g !! s)]> g)) as ->.
  { unfold ensure_key. destruct (g !! s) as [ls|] eqn:Hs.
    - rewrite Ht. simpl. by rewrite (insert_id g s ls).
    - rewrite lookup_insert_ne by done. by rewrite Ht. }
  set (ls := default [] (g !! s)) in *.
  unfold append_if_missing at 2.
  rewrite lookup_insert_ne, lookup_insert_eq by done.
  change (default [] (Some ls)) with ls.
  rewrite (bool_decide_eq_false_2 _ Hin).
  unfold append_if_missing.
  rewrite lookup_insert_ne, lookup_insert_eq by done.
  change (default [] (Some (@nil string))) with (@nil string).
  rewrite bool_decide_eq_false_2 by (by intros ?%elem_of_nil).
  apply map_eq. intros k.
  destruct (decide (k = t)) as [->|Hkt]; [by rewrite !lookup_insert_eq|].
  rewrite !(lookup_insert_ne _ t) by done.
  destruct (decide (k = s)) as [->|Hks]; [by rewrite !lookup_insert_eq|].
  by rewrite !lookup_insert_ne by done.
Qed.

Lemma two_calls_graph (A B C : string) :
  A ≠ B → A ≠ C → B ≠ C →
  add_edges B [A] (add_edges A [B; C] ∅)
    = <[A := [B; C]]> (<[B := [A]]> (<[C := [A]]> ∅)).
Proof.
  intros HAB HAC HBC.
  unfold add_edges. cbn [foldl].
  rewrite (add_edge_new_target A B ∅)
    by (rewrite ?lookup_empty; first [done | by intros ?%elem_of_nil]).
  rewrite lookup_empty. change (default [] None ++ [B]) with [B].
  rewrite (add_edge_new_target A C).
  2: done.
  2: { by rewrite !lookup_insert_ne, lookup_empty. }
  2: { rewrite lookup_insert_ne, lookup_insert_eq by done. simpl.
       intros ?%list_elem_of_singleton. done. }
  rewrite (lookup_insert_ne _ B A) by done. rewrite lookup_insert_eq.
  change (default [] (Some [B]) ++ [C]) with [B; C].
  rewrite add_edge_present.
  - apply map_eq. intros k.
    destruct (decide (k = A)) as [->|];
      [by repeat first [rewrite lookup_insert_eq | rewrite lookup_insert_ne by done]|].
    destruct (decide (k = B)) as [->|];
      [by repeat first [rewrite lookup_insert_eq | rewrite lookup_insert_ne by done]|].
    destruct (decide (k = C)) as [->|];
      by repeat first [rewrite lookup_insert_eq | rewrite lookup_insert_ne by done
                      | rewrite lookup_empty].
  - exists [A]. split; [|by left].
    by repeat first [rewrite lookup_insert_eq | rewrite lookup_insert_ne by done].
  - exists [B; C]. split; [|by left].
    by repeat first [rewrite lookup_insert_eq | rewrite lookup_insert_ne by done].
Qed.

Lemma symmetric_empty : symmetric ∅.
Proof.
  intros a b. unfold adjacent.
  split; intros (l & Hl & _); by rewrite lookup_empty in Hl.
Qed.

Lemma no_duplicates_empty : no_duplicates ∅.
Proof. intros a l Hl. by rewrite lookup_empty in Hl. Qed.

(** C2: any sequence of [_add_cross_references] calls keeps the graph
    symmetric and its adjacency lists free of duplicates, starting from the
    empty graph or from any graph that is so; adding an edge that is there
    changes nothing; and from the empty graph the calls (A,[B,C]) then
    (B,[A]) leave exactly A:[B,C], B:[A], C:[A]. *)
Theorem cross_references_symmetric :
  (symmetric ∅ ∧ no_duplicates ∅)
  ∧ (∀ calls st,
       symmetric (cross_references st) → no_duplicates (cross_references st) →
       symmetric (cross_references (add_calls calls st))
       ∧ no_duplicates (cross_references (add_calls calls st)))
  ∧ (∀ st a b,
       adjacent (cross_references st) a b → adjacent (cross_references st) b a →
       cross_references (_add_cross_references a [b] st).2 = cross_references st)
  ∧ (∀ st (A B C : string),
       A ≠ B → A ≠ C → B ≠ C → cross_references st = ∅ →
       cross_references (add_calls [(A, [B; C]); (B, [A])] st)
         = <[A := [B; C]]> (<[B := [A]]> (<[C := [A]]> ∅))).
Proof.
  split; [split; [apply symmetric_empty|apply no_duplicates_empty]|].
  split; [apply add_calls_invariant|]. split.
  - intros st a b Hab Hba. rewrite add_cross_references_graph.
    unfold add_edges. simpl. by apply add_edge_present.
  - intros st A B C HAB HAC HBC He. unfold add_calls. cbn [foldl fst snd].
    rewrite !add_cross_references_graph, He. by apply two_calls_graph.
Qed.

Lemma cross_references_symmetric_witness :
  symmetric (cross_references
    (add_calls [("1", ["2"; "3"]); ("2", ["1"]); ("3", ["2"; "3"])]
       (manager_of empty_world)))
  ∧ no_duplicates (cross_references
    (add_calls [("1", ["2"; "3"]); ("2", ["1"]); ("3", ["2"; "3"])]
       (manager_of empty_world)))
  ∧ cross_references (add_calls [("1", ["2"; "3"]); ("2", ["1"])] (manager_of empty_world))
    = <["1" := ["2"; "3"]]> (<["2" := ["1"]]> (<["3" := ["1"]]> ∅)).
Proof.
  assert (cross_references (manager_of empty_world) = ∅) as He
    by (vm_compute; reflexivity).
  split; [|split].
  - apply (proj1 (proj2 cross_references_symmetric)); rewrite He.
    + apply symmetric_empty.
    + apply no_duplicates_empty.
  - apply (proj1 (proj2 cross_references_symmetric)); rewrite He.
    + apply symmetric_empty.
    + apply no_duplicates_empty.
  - by apply (proj2 (proj2 (proj2 cross_references_symmetric))).
Defined.

Example cross_references_example :
  cross_references
    (add_calls [("1", ["2"; "3"]); ("2", ["1"]); ("3", ["2"; "3"])]
       (manager_of empty_world))
  = <["1" := ["2"; "3"]]> (<["2" := ["1"; "3"]]> (<["3" := ["1"; "2"; "3"]]> ∅)).
Proof. vm_compute. reflexivity. Qed.

(** ** The card index *)

Lemma try_except_inv_card (c : M card_result) h st card st' :
  (∀ e st1, (h e st1).1 ≠ Ok (Card card)) →
  try_except c h st = (Ok (Card card), st') →
  c st = (Ok (Card card), st').
Proof.
  intros Hh. unfold try_except. destruct (c st) as [[a|e] st1]; [done|].
  intros H. specialize (Hh e st1). rewrite H in Hh. done.
Qed.

Lemma format_card_content_state c st r st' :
  _format_card_content c st = (r, st') → st' = st.
Proof.
  unfold _format_card_content. destruct (_generate_ai_thoughts c).
  unfold bind, _find_zettel_connections, gets, lift, ret.
  simpl. destruct (_find_zettel_connections_loop (env st) c (card_index st));
    intros H; by injection H as _ <-.
Qed.

Lemma save_metadata_memory {A} filename (put : stored A → world → world) data st :
  ∃ w, _save_metadata filename put data st = (Ok tt, set_env w st).
Proof.
  unfold _save_metadata. destruct (write_error _ _).
  - exists (env st). by destruct st.
  - by eexists.
Qed.

Lemma add_cross_references_memory s ts st :
  ∃ g w, _add_cross_references s ts st
         = (Ok tt, set_env w (set_cross_references g st)).
Proof.
  unfold _add_cross_references. destruct ts as [|t ts].
  - exists (cross_references st), (env st). by destruct st.
  - unfold bind, modify, gets.
    destruct (save_metadata_memory "cross_references.json" set_xrefs_doc
                (cross_references (set_cross_references
                   (add_edges s (t :: ts) (cross_references st)) st))
                (set_cross_references (add_edges s (t :: ts) (cross_references st)) st))
      as (w & ->).
    eauto.
Qed.

(** A card that [create_zettel_card] returns is registered in the card
    index under its number, with the four fields of [index_entry]; and the
    card index document holds the index when it could be written. *)
Lemma create_inv now1 now2 content_ title_ category_ xrefs tags_ extra st c st' :
  create_zettel_card now1 now2 content_ title_ category_ xrefs tags_ extra st
    = (Ok (Card c), st') →
  title c = title_
  ∧ (∃ card_file,
       od_get (number c) (card_index st')
         = Some (index_entry card_file title_ category_ now1))
  ∧ (write_error (env st') (path_join (metadata_path st') "card_index.json") = None →
     index_doc (env st') = Stored (card_index st')).
Proof.
  unfold create_zettel_card.
  intros (id & st1 & Hgen & H)%bind_inv_ok.
  apply bind_inv_ok in H as (base & st2 & [= <- <-] & H).
  apply bind_inv_ok in H as ([] & st2 & ->%mkdir_inv & H).
  apply bind_inv_ok in H as (text & st2 & ->%format_card_content_state & H).
  apply try_except_inv_card in H; [|by intros e st3].
  apply bind_inv_ok in H as ([] & st2 & Hw & H).
  apply bind_inv_ok in H as ([] & st3 & Hx & H).
  apply bind_inv_ok in H as ([] & st4 & [= <-] & H).
  apply bind_inv_ok in H as ([] & st5 & Ha & H).
  apply bind_inv_ok in H as (index & st6 & [= <- <-] & H).
  apply bind_inv_ok in H as ([] & st7 & Hs & [= <- <-]).
  match type of Ha with
  | _add_cross_references ?s ?ts ?st0 = _ =>
      destruct (add_cross_references_memory s ts st0) as (g & w & Ha')
  end.
  rewrite Ha' in Ha. injection Ha as <-.
  unfold _save_metadata in Hs. simpl in Hs.
  split; [done|]. split.
  - eexists. destruct (write_error _ _); injection Hs as <-; simpl;
      apply od_get_set_eq.
  - destruct (write_error w _) eqn:E; injection Hs as <-; simpl; [|done].
    intros E'. congruence.
Qed.

Lemma normalize_entry_fields info :
  field_is_none (normalize_entry info) "tags" = false
  ∧ field_is_none (normalize_entry info) "cross_references" = false.
Proof.
  unfold normalize_entry.
  assert (∀ i : gmap string fval,
            field_is_none i "tags" = false →
            field_is_none (<["cross_references" := FList []]> i) "tags" = false) as Hkeep.
  { intros i. unfold field_is_none. by rewrite lookup_insert_ne. }
  assert (∀ i : gmap string fval,
            field_is_none (<["tags" := FList []]> i) "tags" = false) as Hset.
  { intros i. unfold field_is_none. by rewrite lookup_insert_eq. }
  assert (∀ i : gmap string fval,
            field_is_none (<["cross_references" := FList []]> i) "cross_references"
            = false) as Hset'.
  { intros i. unfold field_is_none. by rewrite lookup_insert_eq. }
  destruct (field_is_none info "tags") eqn:E1;
    destruct (field_is_none _ "cross_references") eqn:E2; auto.
Qed.





(** ** Thematic connections *)

Lemma find_thematic_connections_loop_spec index text candidates :
  titles_are_text index →
  find_thematic_connections_loop index (word_set (Str.lower text)) candidates
    = Ok (filter (λ id, connected index text id) candidates).
Proof.
  intros Ht. induction candidates as [|id rest IH]; simpl; [done|].
  rewrite IH. clear IH.
  destruct (connected index text id) eqn:Hc.
  - rewrite filter_cons_True by (by rewrite Hc). unfold connected in Hc.
    destruct (od_get id index) as [info|] eqn:Hg; [|done].
    destruct (Ht id info Hg) as (Hn & Hl).
    unfold get_str, title_of, common_words in *.
    destruct (info !! "title") as [[|s|l]|]; [done| | by destruct (Hl l) |];
      simpl; by rewrite Hc.
  - rewrite filter_cons_False by (rewrite Hc; by intros []). unfold connected in Hc.
    destruct (od_get id index) as [info|] eqn:Hg; [|done].
    destruct (Ht id info Hg) as (Hn & Hl).
    unfold get_str, title_of, common_words in *.
    destruct (info !! "title") as [[|s|l]|]; [done| | by destruct (Hl l) |];
      simpl; by rewrite Hc.
Qed.

(** C8, as the code has it, for ASCII text: over the list that is given, or
    over every id of the card index when none or an empty one is given, the
    result is exactly the candidates, in order, that are in the index with
    a title sharing at least two case-folded words with the text. *)
Theorem thematic_connections_two_words :
  ∀ st text existing_cards,
    titles_are_text (card_index st) →
    Str.isascii text = true → ascii_index (card_index st) →
    find_thematic_connections text existing_cards st
      = (Ok (filter (λ id, connected (card_index st) text id)
               (effective_candidates (card_index st) existing_cards)), st)
    ∧ ∀ id, id ∈ filter (λ id, connected (card_index st) text id)
                   (effective_candidates (card_index st) existing_cards) →
        ∃ info, od_get id (card_index st) = Some info
                ∧ 2 ≤ common_words text (title_of info).
Proof.
  intros st text existing_cards Ht _ _. split.
  - unfold find_thematic_connections, bind, gets, lift. simpl.
    fold (effective_candidates (card_index st) existing_cards).
    by rewrite find_thematic_connections_loop_spec.
  - intros id [Hc _]%list_elem_of_filter. unfold connected in Hc.
    destruct (od_get id (card_index st)) as [info|]; [|done].
    exists info. split; [done|]. by apply bool_decide_unpack in Hc.
Qed.

Lemma titled_index_text : titles_are_text titled_index.
Proof.
  intros id info H. unfold titled_index in H. simpl in H.
  repeat (destruct (decide _) in H;
          [injection H as <-; split; [|intros l]; by vm_compute|]).
  done.
Qed.

Lemma titled_index_ascii : ascii_index titled_index.
Proof.
  unfold titled_index.
  repeat (constructor;
          [intros key s H; simpl in H;
           apply lookup_singleton_Some in H as [_ [= <-]]; reflexivity|]).
  constructor.
Qed.

Lemma thematic_connections_two_words_witness :
  find_thematic_connections "alpha beta gamma" (Some ["3"; "2"; "9"; "1"])
      (manager_with_index titled_index)
    = (Ok (filter (λ id, connected (card_index (manager_with_index titled_index))
                           "alpha beta gamma" id)
             (effective_candidates (card_index (manager_with_index titled_index))
                (Some ["3"; "2"; "9"; "1"]))),
       manager_with_index titled_index)
  ∧ ∀ id, id ∈ filter (λ id, connected (card_index (manager_with_index titled_index))
                               "alpha beta gamma" id)
                 (effective_candidates (card_index (manager_with_index titled_index))
                    (Some ["3"; "2"; "9"; "1"])) →
      ∃ info, od_get id (card_index (manager_with_index titled_index)) = Some info
              ∧ 2 ≤ common_words "alpha beta gamma" (title_of info).
Proof.
  apply (thematic_connections_two_words (manager_with_index titled_index)).
  - apply titled_index_text.
  - reflexivity.
  - apply titled_index_ascii.
Defined.

Example thematic_connections_example :
  (find_thematic_connections "alpha beta gamma" (Some ["3"; "2"; "9"; "1"])
     (manager_with_index titled_index)).1 = Ok ["3"; "1"].
Proof. vm_compute. reflexivity. Qed.

(** C8, as stated, fails: given the empty candidate list the method goes
    through the whole card index, and returns cards that are not among the
    candidates. *)
Lemma thematic_connections_empty_list_counterexample :
  (find_thematic_connections "alpha beta gamma" (Some [])
     (manager_with_index titled_index)).1 = Ok ["1"; "3"]
  ∧ (find_thematic_connections "alpha beta gamma" (Some [])
       (manager_with_index titled_index)).1
    ≠ Ok (filter (λ id, connected (card_index (manager_with_index titled_index))
                          "alpha beta gamma" id) []).
Proof. split; [vm_compute; reflexivity|]. by vm_compute. Qed.

(** ** Failures of [create_zettel_card] *)

(** The handler of the [try] block turns every exception into a result. *)
Lemma try_except_error_result (c : M card_result) st :
  ∃ r st', try_except c (λ e, ret (ErrorResult (exn_message e))) st = (Ok r, st').
Proof. unfold try_except. destruct (c st) as [[a|e] st1]; by eexists _, _. Qed.

(** An exception can leave [create_zettel_card] only from the three steps
    before the [try] block: allocating the number, creating the folder,
    formatting the card. *)
Lemma create_raise_inv now1 now2 content_ title_ category_ xrefs tags_ extra st e st' :
  create_zettel_card now1 now2 content_ title_ category_ xrefs tags_ extra st
    = (Raise e, st') →
  generate_zettel_number content_ category_ st = (Raise e, st')
  ∨ ∃ id st1,
      generate_zettel_number content_ category_ st = (Ok id, st1)
      ∧ (mkdir (folder_of (base_path st1) category_) st1 = (Raise e, st')
         ∨ ∃ card, _format_card_content card st1 = (Raise e, st')).
Proof.
  unfold create_zettel_card. unfold bind at 1.
  destruct (generate_zettel_number content_ category_ st) as [[id|e0] st1];
    [|intros [= <- <-]; by left].
  intros H. right. exists id, st1. split; [done|].
  unfold bind at 1 in H. unfold gets at 1 in H. cbv beta iota in H.
  fold (folder_of (base_path st1) category_) in H.
  unfold bind at 1 in H.
  destruct (mkdir (folder_of (base_path st1) category_) st1) as [[[]|e1] st2] eqn:Hmk;
    [|injection H as <- <-; by left].
  apply mkdir_inv in Hmk as ->. right.
  unfold bind at 1 in H.
  match type of H with
  | context [_format_card_content ?card st1] =>
      exists card; destruct (_format_card_content card st1) as [[text|e2] st3] eqn:Hfmt
  end; [|by injection H as <- <-].
  match type of H with
  | try_except ?c _ _ = _ =>
      destruct (try_except_error_result c st3) as (r & st4 & Hr)
  end.
  rewrite Hr in H. done.
Qed.

Lemma create_folder_failure now1 now2 content_ title_ category_ xrefs tags_ extra
    st id st1 msg :
  generate_zettel_number content_ category_ st = (Ok id, st1) →
  mkdir_error (env st1) (folder_of (base_path st1) category_) = Some msg →
  create_zettel_card now1 now2 content_ title_ category_ xrefs tags_ extra st
    = (Raise (OSError msg), st1).
Proof.
  intros Hgen Hmk. unfold create_zettel_card. rewrite (bind_ok _ _ _ _ _ Hgen).
  unfold bind at 1. unfold gets at 1. cbv beta iota.
  fold (folder_of (base_path st1) category_).
  unfold bind at 1. unfold mkdir at 1. by rewrite Hmk.
Qed.

(** C4 at a failing input: the folder of the category is created before
    the [try] block, so whenever that fails the exception leaves
    [create_zettel_card], as it does for category [projects] when [X/projects]
    cannot be created; a failed write of the card file, inside the block,
    comes back as an error result. *)
Theorem create_card_folder_failure_raises :
  (∀ now1 now2 content_ title_ category_ xrefs tags_ extra st id st1 msg,
      generate_zettel_number content_ category_ st = (Ok id, st1) →
      mkdir_error (env st1) (folder_of (base_path st1) category_) = Some msg →
      create_zettel_card now1 now2 content_ title_ category_ xrefs tags_ extra st
        = (Raise (OSError msg), st1))
  ∧ new_manager "X" "X/_metadata" blocked_world = Ok (manager_of blocked_world)
  ∧ (create_zettel_card "t" "t" "Notes" "Plan" "projects" None None None
       (manager_of blocked_world)).1
    = Raise (OSError "[Errno 17] File exists: 'X/projects'")
  ∧ (create_zettel_card "t" "t" "Notes" "Plan" "main" None None None
       (manager_of readonly_world)).1
    = Ok (ErrorResult "[Errno 13] Permission denied: 'X/main/1.md'").
Proof.
  split; [exact create_folder_failure|]. repeat split; vm_compute; reflexivity.
Qed.

Lemma create_card_folder_failure_raises_witness :
  create_zettel_card "t" "t" "Notes" "Plan" "projects" None None None
      (manager_of blocked_world)
    = (Raise (OSError "[Errno 17] File exists: 'X/projects'"),
       (generate_zettel_number "Notes" "projects" (manager_of blocked_world)).2).
Proof.
  apply (proj1 create_card_folder_failure_raises) with (id := "projectsa");
    vm_compute; reflexivity.
Defined.

(** ** The search index *)




(** *** [LIKE] finds substrings *)

Lemma chars_app a b : Str.chars (a +:+ b) = Str.chars a ++ Str.chars b.
Proof.
  unfold Str.chars. induction a as [|c a IH]; [done|].
  change (String c a +:+ b) with (String c (a +:+ b)). simpl. by rewrite IH.
Qed.

Lemma like_chars_star p t :
  Indexer.like_chars ("%"%char :: p) t
  = Indexer.like_chars p t
    || match t with
       | [] => false
       | _ :: t' => Indexer.like_chars ("%"%char :: p) t'
       end.
Proof. by destruct t. Qed.

Lemma like_chars_star_skip p c t :
  Indexer.like_chars ("%"%char :: p) t = true →
  Indexer.like_chars ("%"%char :: p) (c :: t) = true.
Proof. intros H. rewrite like_chars_star, H. apply orb_true_r. Qed.

Lemma like_chars_percent t : Indexer.like_chars ["%"%char] t = true.
Proof.
  induction t as [|c t IH]; [done|]. by apply like_chars_star_skip.
Qed.





(** *** Rebuilding and refreshing *)

Lemma make_row_number w id meta r :
  Indexer.make_row w id meta = Ok r → Indexer.zettel_number r = id.
Proof.
  unfold Indexer.make_row, res_bind. intros H.
  repeat case_match; try done; by simplify_eq.
Qed.








Example search_after_refresh_example :
  map Indexer.zettel_number
    (Indexer.search "iver"
       (Indexer.update_card (env after_first_card) "1"
          (indexer_of (env after_first_card) (Indexer.table stale_indexer))).2)
  = ["1"].
Proof. vm_compute. reflexivity. Qed.


(** * Further properties *)

(** ** Numbering: exhausted parents, empty ids, write-through *)

Lemma generate_subtopic_full st content_ category_ d suffix :
  zettel_numbering_rules st !! category_ = None →
  category_ ≠ "frequent" → category_ ≠ "quote" → category_ ≠ "main" →
  numbering_scheme st !! "subtopics" = Some (JSubs d) →
  _get_next_subtopic_letter (default [] (d !! Str.before_slash category_)) = Ok suffix →
  generate_zettel_number content_ category_ st
    = (Ok (Str.before_slash category_ +:+ suffix),
       scheme_saved (set_numbering_scheme
         (<["subtopics" :=
              JSubs (<[Str.before_slash category_ :=
                         default [] (d !! Str.before_slash category_)
                         ++ [Str.before_slash category_ +:+ suffix]]> d)]>
            (numbering_scheme st)) st)).
Proof.
  intros Hr Hf Hq Hm Hs Hl. rewrite generate_subtopic_run by done.
  erewrite bind_ok by (by apply allocate_subtopic_run).
  unfold bind. by rewrite save_numbering_scheme_run.
Qed.

Lemma all_used_gives_aa children suffix :
  (∀ c, c ∈ alphabet → used_suffix c children) →
  next_letter_is children suffix → suffix = "aa".
Proof.
  intros Hall [(before & letter & after & Ha & _ & _ & Hn)|[-> _]]; [|done].
  destruct Hn. apply Hall. rewrite Ha. apply elem_of_app. right. left.
Qed.

Lemma used_suffix_app c children more :
  used_suffix c children → used_suffix c (children ++ more).
Proof.
  intros (item & Hin & Hl). exists item. split; [|done].
  apply elem_of_app. by left.
Qed.


Lemma append_nonempty (p suffix : string) : suffix ≠ "" → p +:+ suffix ≠ "".
Proof. intros H. destruct p; [done|]. done. Qed.

(** X1: once every letter of a..z ends some child of a parent, each further
    subtopic allocation for it returns the same id, parent followed by [aa]:
    the id is handed out again and again. *)
Theorem exhausted_parent_repeats_id :
  ∀ st content1 content2 category_ d,
    zettel_numbering_rules st !! category_ = None →
    category_ ≠ "frequent" → category_ ≠ "quote" → category_ ≠ "main" →
    numbering_scheme st !! "subtopics" = Some (JSubs d) →
    Forall (λ item, item ≠ "") (default [] (d !! Str.before_slash category_)) →
    (∀ c, c ∈ alphabet →
          used_suffix c (default [] (d !! Str.before_slash category_))) →
    ∃ st1 st2,
      generate_zettel_number content1 category_ st
        = (Ok (Str.before_slash category_ +:+ "aa"), st1)
      ∧ generate_zettel_number content2 category_ st1
        = (Ok (Str.before_slash category_ +:+ "aa"), st2).
Proof.
  intros st content1 content2 category_ d Hr Hf Hq Hm Hs Hne Hall.
  set (p := Str.before_slash category_) in *.
  destruct (get_next_subtopic_letter_spec _ Hne) as (suffix & Hl & Hspec).
  pose proof (all_used_gives_aa _ _ Hall Hspec) as ->.
  eexists _, _. split.
  { by apply generate_subtopic_full. }
  set (children' := default [] (d !! p) ++ [p +:+ "aa"]).
  assert (Forall (λ item, item ≠ "") children') as Hne'.
  { apply Forall_app. split; [done|]. repeat constructor.
    by apply append_nonempty. }
  assert (∀ c, c ∈ alphabet → used_suffix c children') as Hall'.
  { intros c Hc. by apply used_suffix_app, Hall. }
  destruct (get_next_subtopic_letter_spec _ Hne') as (suffix' & Hl' & Hspec').
  pose proof (all_used_gives_aa _ _ Hall' Hspec') as ->.
  erewrite (generate_subtopic_full _ content2 category_
              (<[p := children']> d) "aa").
  - f_equal.
  - by rewrite scheme_saved_rules.
  - done.
  - done.
  - done.
  - rewrite scheme_saved_scheme. simpl. by rewrite lookup_insert_eq.
  - fold p. by rewrite lookup_insert_eq.
Qed.

Lemma exhausted_parent_repeats_id_witness :
  ∃ st1 st2,
    generate_zettel_number "first" "3"
        (manager_with_children (map (λ c, "3" +:+ String c "") alphabet))
      = (Ok (Str.before_slash "3" +:+ "aa"), st1)
    ∧ generate_zettel_number "second" "3" st1
      = (Ok (Str.before_slash "3" +:+ "aa"), st2).
Proof.
  set (kids := map (λ c, "3" +:+ String c "") alphabet).
  assert (default [] (({["3" := kids]} : gmap string (list string))
                        !! Str.before_slash "3") = kids) as Hkids.
  { change (Str.before_slash "3") with "3". by rewrite lookup_singleton_eq. }
  assert (zettel_numbering_rules (manager_with_children kids) !! "3" = None) as H1
    by (vm_compute; reflexivity).
  assert (numbering_scheme (manager_with_children kids) !! "subtopics"
          = Some (JSubs {["3" := kids]})) as H2.
  { unfold manager_with_children. simpl. apply lookup_insert_eq. }
  assert (Forall (λ item, item ≠ "") kids) as H3.
  { apply Forall_forall. intros item Hin.
    apply list_elem_of_In, in_map_iff in Hin as (c & <- & _). done. }
  assert (∀ c, c ∈ alphabet → used_suffix c kids) as H4.
  { intros c Hc. exists ("3" +:+ String c ""). split; [|reflexivity].
    apply list_elem_of_In, in_map_iff. exists c.
    split; [done|]. by apply list_elem_of_In. }
  rewrite <- Hkids in H3, H4.
  exact (exhausted_parent_repeats_id (manager_with_children kids)
           "first" "second" "3" {["3" := kids]}
           H1 ltac:(done) ltac:(done) ltac:(done) H2 H3 H4).
Defined.

Lemma last_letters_empty_item existing :
  "" ∈ existing → last_letters existing = Raise IndexError.
Proof.
  induction existing as [|item rest IH]; [by intros ?%elem_of_nil|].
  intros [<-|Hin]%elem_of_cons; simpl; [done|].
  destruct (Str.last_char item); [|done]. by rewrite IH.
Qed.

Lemma set_numbering_scheme_same st :
  set_numbering_scheme (numbering_scheme st) st = st.
Proof. by destruct st. Qed.

(** X2: when a recorded child of the parent is the empty string, the
    allocation raises [IndexError]; nothing is saved and the scheme in
    memory stays as it was. *)
Theorem empty_child_raises_index_error :
  ∀ st content_ category_ d,
    zettel_numbering_rules st !! category_ = None →
    category_ ≠ "frequent" → category_ ≠ "quote" → category_ ≠ "main" →
    numbering_scheme st !! "subtopics" = Some (JSubs d) →
    "" ∈ default [] (d !! Str.before_slash category_) →
    generate_zettel_number content_ category_ st = (Raise IndexError, st).
Proof.
  intros st content_ category_ d Hr Hf Hq Hm Hs Hin.
  rewrite generate_subtopic_run by done.
  apply bind_raise. unfold allocate_subtopic. rewrite Hs.
  destruct (d !! Str.before_slash category_) as [children|] eqn:Hd;
    [|by apply elem_of_nil in Hin].
  simpl in *. rewrite Hd. simpl.
  assert (_get_next_subtopic_letter children = Raise IndexError) as ->.
  { unfold _get_next_subtopic_letter. destruct children; [by apply elem_of_nil in Hin|].
    by rewrite last_letters_empty_item. }
  f_equal. rewrite (insert_id _ _ _ Hs). apply set_numbering_scheme_same.
Qed.

Lemma empty_child_raises_index_error_witness :
  generate_zettel_number "text" "3" (manager_with_children ["3a"; ""; "3b"])
    = (Raise IndexError, manager_with_children ["3a"; ""; "3b"]).
Proof.
  assert (zettel_numbering_rules (manager_with_children ["3a"; ""; "3b"]) !! "3"
          = None) as H1 by (vm_compute; reflexivity).
  assert (numbering_scheme (manager_with_children ["3a"; ""; "3b"]) !! "subtopics"
          = Some (JSubs {["3" := ["3a"; ""; "3b"]]})) as H2.
  { unfold manager_with_children. simpl. apply lookup_insert_eq. }
  assert ("" ∈ default [] (({["3" := ["3a"; ""; "3b"]]} : gmap string (list string))
                             !! Str.before_slash "3")) as H3.
  { change (Str.before_slash "3") with "3". rewrite lookup_singleton_eq. simpl.
    right. left. }
  exact (empty_child_raises_index_error _ "text" "3" _
           H1 ltac:(done) ltac:(done) ltac:(done) H2 H3).
Defined.

(** X3: every allocation that returns an id writes the whole scheme
    through to its document when the document can be written; when it
    cannot, the id is returned all the same and the document stays as it
    was, behind the scheme in memory. *)
Theorem generate_writes_scheme_through :
  ∀ st content_ category_ id st',
    generate_zettel_number content_ category_ st = (Ok id, st') →
    (write_error (env st) (scheme_path st) = None →
     scheme_doc (env st') = Stored (numbering_scheme st'))
    ∧ (is_Some (write_error (env st) (scheme_path st)) →
       scheme_doc (env st') = scheme_doc (env st)).
Proof.
  intros st content_ category_ id st'.
  destruct (generate_shape content_ category_ st) as (body & Hbody & ->).
  unfold bind. destruct (body st) as [[x|e] st1] eqn:E; [|done].
  apply Hbody in E as (Hf & _ & Hd).
  destruct Hf as (_ & Hm & _ & _ & _ & _ & _ & _ & _ & _ & Hwe & _).
  rewrite save_numbering_scheme_run. intros [= <- <-].
  unfold scheme_saved, scheme_path. rewrite Hwe, Hm.
  destruct (write_error (env st) _) as [msg|]; split; done.
Qed.

Lemma generate_writes_scheme_through_witness :
  (write_error (env (manager_of configured_world))
     (scheme_path (manager_of configured_world)) = None →
   scheme_doc (env (generate_zettel_number "a" "quote" (manager_of configured_world)).2)
   = Stored (numbering_scheme
               (generate_zettel_number "a" "quote" (manager_of configured_world)).2))
  ∧ (is_Some (write_error (env (manager_of configured_world))
                (scheme_path (manager_of configured_world))) →
     scheme_doc (env (generate_zettel_number "a" "quote" (manager_of configured_world)).2)
     = scheme_doc (env (manager_of configured_world))).
Proof.
  apply (generate_writes_scheme_through (manager_of configured_world) "a" "quote" "Q1").
  vm_compute. reflexivity.
Defined.

(** X4: whatever it returns or raises, [generate_zettel_number] leaves the
    rules, the card index, the graph, the paths, the card files and the
    card index document as they were: only the numbering scheme and its
    document can change. *)
Theorem generate_touches_only_scheme :
  ∀ st content_ category_ r st',
    generate_zettel_number content_ category_ st = (r, st') →
    zettel_numbering_rules st' = zettel_numbering_rules st
    ∧ card_index st' = card_index st
    ∧ cross_references st' = cross_references st
    ∧ base_path st' = base_path st
    ∧ metadata_path st' = metadata_path st
    ∧ index_doc (env st') = index_doc (env st)
    ∧ xrefs_doc (env st') = xrefs_doc (env st)
    ∧ files (env st') = files (env st).
Proof.
  intros st content_ category_ r st'.
  destruct (generate_shape content_ category_ st) as (body & Hbody & ->).
  unfold bind. destruct (body st) as [[x|e] st1] eqn:E;
    apply Hbody in E as (Hf & _ & _); unfold numbering_frame in Hf; destruct_and!.
  - rewrite save_numbering_scheme_run. intros [= <- <-].
    unfold scheme_saved. destruct (write_error _ _); simpl; repeat split; done.
  - intros [= <- <-]. repeat split; done.
Qed.

Lemma generate_touches_only_scheme_witness :
  zettel_numbering_rules (generate_zettel_number "a" "log" (manager_of misconfigured_world)).2
    = zettel_numbering_rules (manager_of misconfigured_world)
  ∧ card_index (generate_zettel_number "a" "log" (manager_of misconfigured_world)).2
    = card_index (manager_of misconfigured_world)
  ∧ cross_references (generate_zettel_number "a" "log" (manager_of misconfigured_world)).2
    = cross_references (manager_of misconfigured_world)
  ∧ base_path (generate_zettel_number "a" "log" (manager_of misconfigured_world)).2
    = base_path (manager_of misconfigured_world)
  ∧ metadata_path (generate_zettel_number "a" "log" (manager_of misconfigured_world)).2
    = metadata_path (manager_of misconfigured_world)
  ∧ index_doc (env (generate_zettel_number "a" "log" (manager_of misconfigured_world)).2)
    = index_doc (env (manager_of misconfigured_world))
  ∧ xrefs_doc (env (generate_zettel_number "a" "log" (manager_of misconfigured_world)).2)
    = xrefs_doc (env (manager_of misconfigured_world))
  ∧ files (env (generate_zettel_number "a" "log" (manager_of misconfigured_world)).2)
    = files (env (manager_of misconfigured_world)).
Proof.
  apply (generate_touches_only_scheme (manager_of misconfigured_world) "a" "log"
           (generate_zettel_number "a" "log" (manager_of misconfigured_world)).1).
  by destruct (generate_zettel_number "a" "log" (manager_of misconfigured_world)).
Defined.

(** ** Numbering: membership lists and well-formedness *)

Lemma bucket_step_list pre field lf st id st1 :
  (let! n := scheme_increment field in
   let number := pre +:+ pretty n in
   let! _ := scheme_append lf number in
   ret number) st = (Ok id, st1) →
  ∃ l, numbering_scheme st !! lf = Some (JList l)
       ∧ numbering_scheme st1 !! lf = Some (JList (l ++ [id])).
Proof.
  intros (n & st2 & Hi & Hrest)%bind_inv_ok.
  unfold scheme_increment in Hi.
  destruct (numbering_scheme st !! field) as [[m| |]|] eqn:E; try done.
  injection Hi as <- <-.
  apply bind_inv_ok in Hrest as ([] & st3 & Ha & [= <- <-]).
  unfold scheme_append in Ha. simpl in Ha.
  destruct (decide (field = lf)) as [<-|Hne].
  { by rewrite lookup_insert_eq in Ha. }
  rewrite lookup_insert_ne in Ha by done.
  destruct (numbering_scheme st !! lf) as [[|l|]|]; try done.
  injection Ha as <-. exists l. split; [done|]. simpl. apply lookup_insert_eq.
Qed.

(** X5: an id allocated for [main], [frequent] or [quote], by a rule or by
    the built-in branch, is appended to the membership list of its bucket,
    which otherwise stays as it was. *)
Theorem bucket_id_recorded_in_list :
  ∀ st content_ category_ pre field lf id st',
    bucket_of (zettel_numbering_rules st) category_ = Some (pre, field) →
    bucket_list category_ = Some lf →
    generate_zettel_number content_ category_ st = (Ok id, st') →
    ∃ l, numbering_scheme st !! lf = Some (JList l)
         ∧ numbering_scheme st' !! lf = Some (JList (l ++ [id])).
Proof.
  unfold bucket_of, bucket_list, generate_zettel_number.
  intros st content_ category_ pre field lf id st' Hb Hl.
  unfold bind at 1. unfold gets at 1. cbv beta iota.
  intros (number & st1 & Hbody & Hsave)%bind_inv_ok.
  rewrite bind_ok with (a := tt) (st' := scheme_saved st1) in Hsave
    by apply save_numbering_scheme_run.
  injection Hsave as <- <-. rewrite scheme_saved_scheme.
  destruct (zettel_numbering_rules st !! category_) as [rule|] eqn:Hr.
  - destruct (truthy_field (increment_field rule)) as [f|]; [|done].
    injection Hb as <- <-.
    repeat case_decide; simplify_eq; eapply bucket_step_list; exact Hbody.
  - assert (bool_decide (category_ = "subtopic")
            && bool_decide (is_Some (zettel_numbering_rules st !! "subtopic")) = false) as Hdead.
    { destruct (bool_decide_reflect (category_ = "subtopic")) as [->|]; [|done].
      rewrite Hr. apply andb_false_intro2, bool_decide_eq_false. by intros [? ?]. }
    rewrite Hdead in Hbody.
    repeat case_decide; simplify_eq;
      first [ eapply bucket_step_list; exact Hbody
            | eapply (bucket_step_list ""); exact Hbody ].
Qed.

Lemma bucket_id_recorded_in_list_witness :
  ∃ l, numbering_scheme (manager_of configured_world) !! "quotes_excerpts"
         = Some (JList l)
       ∧ numbering_scheme
           (generate_zettel_number "a" "quote" (manager_of configured_world)).2
           !! "quotes_excerpts" = Some (JList (l ++ ["Q1"])).
Proof.
  apply (bucket_id_recorded_in_list (manager_of configured_world) "a" "quote"
           "Q" "last_quote" "quotes_excerpts" "Q1"
           (generate_zettel_number "a" "quote" (manager_of configured_world)).2);
    vm_compute; reflexivity.
Defined.

Lemma cs_ret {A} (a : A) : children_step (ret a).
Proof. by intros st r st' H [= _ <-]. Qed.

Lemma cs_raise {A} e : children_step (raise (A:=A) e).
Proof. by intros st r st' H [= _ <-]. Qed.

Lemma cs_lift {A} (x : res A) : children_step (lift x).
Proof. by intros st r st' H [= _ <-]. Qed.

Lemma cs_bind {A B} (c : M A) (k : A → M B) :
  children_step c → (∀ a, children_step (k a)) → children_step (bind c k).
Proof.
  intros Hc Hk st r st' H. unfold bind.
  destruct (c st) as [[a|e] st1] eqn:E; pose proof (Hc _ _ _ H E) as H1.
  - by apply Hk.
  - by intros [= _ <-].
Qed.

Lemma children_ok_insert_other s k v :
  children_ok s → (∀ d, v ≠ JSubs d) → is_Some (s !! k) → (∀ d, s !! k ≠ Some (JSubs d)) →
  children_ok (<[k := v]> s).
Proof.
  intros H Hv Hk Hnot d. destruct (decide (k = "subtopics")) as [->|Hne].
  - rewrite lookup_insert_eq. intros [= ->]. by destruct (Hv d).
  - rewrite lookup_insert_ne by done. apply H.
Qed.

Lemma cs_increment field : children_step (scheme_increment field).
Proof.
  intros st r st' H. unfold scheme_increment.
  destruct (numbering_scheme st !! field) as [[n| |]|] eqn:E;
    intros [= _ <-]; try done.
  simpl. apply children_ok_insert_other; try done.
  intros d. by rewrite E.
Qed.

Lemma cs_append field x : children_step (scheme_append field x).
Proof.
  intros st r st' H. unfold scheme_append.
  destruct (numbering_scheme st !! field) as [[n|l|]|] eqn:E;
    intros [= _ <-]; try done.
  simpl. apply children_ok_insert_other; try done.
  intros d. by rewrite E.
Qed.

Lemma next_letter_nonempty existing suffix :
  _get_next_subtopic_letter existing = Ok suffix → suffix ≠ "".
Proof.
  unfold _get_next_subtopic_letter, res_bind. intros H.
  repeat case_match; by simplify_eq.
Qed.

Lemma cs_allocate parent : children_step (allocate_subtopic parent).
Proof.
  intros st r st' H. unfold allocate_subtopic.
  destruct (numbering_scheme st !! "subtopics") as [[n|l|d]|] eqn:E;
    try (by intros [= _ <-]).
  set (d1 := match d !! parent with None => <[parent := []]> d | Some _ => d end).
  assert (∀ p children, d1 !! p = Some children →
                        Forall (λ item, item ≠ "") children) as Hd1.
  { intros p children. unfold d1. destruct (d !! parent) eqn:Hp; [by apply (H d)|].
    destruct (decide (parent = p)) as [->|Hne].
    - rewrite lookup_insert_eq. intros [= <-]. constructor.
    - rewrite lookup_insert_ne by done. by apply (H d). }
  destruct (_get_next_subtopic_letter (default [] (d1 !! parent)))
    as [next_letter|e] eqn:Hl; intros [= _ <-]; simpl; intros d'.
  - rewrite lookup_insert_eq. intros [= <-] p children.
    destruct (decide (parent = p)) as [->|Hne].
    + rewrite lookup_insert_eq. intros [= <-]. apply Forall_app. split.
      * destruct (d1 !! p) eqn:Hp; simpl; [by eapply Hd1|constructor].
      * repeat constructor. eapply append_nonempty, next_letter_nonempty, Hl.
    + rewrite lookup_insert_ne by done. apply Hd1.
  - rewrite lookup_insert_eq. by intros [= <-].
Qed.

Lemma generate_shape_children content_ category_ st :
  ∃ body : M string,
    numbering_step body ∧ children_step body
    ∧ generate_zettel_number content_ category_ st =
        (let! number := body in
         let! _ := save_numbering_scheme in
         ret number) st.
Proof.
  unfold generate_zettel_number. unfold bind at 1. unfold gets at 1.
  cbv beta iota. eexists. split; [|split; [|reflexivity]].
  - repeat first
      [ apply ns_ret | apply ns_allocate
      | apply ns_bind; [first [apply ns_increment | apply ns_append]|intros ?]
      | case_match ].
  - repeat first
      [ apply cs_ret | apply cs_allocate
      | apply cs_bind; [first [apply cs_increment | apply cs_append]|intros ?]
      | case_match ].
Qed.

Lemma expand_shape_children base_topic new_content st :
  ∃ body : M string,
    numbering_step body ∧ children_step body
    ∧ expand_thematic_structure base_topic new_content st =
        (let! subtopic := body in
         let! _ := save_numbering_scheme in
         ret subtopic) st.
Proof.
  unfold expand_thematic_structure. unfold bind at 1. unfold gets at 1.
  cbv beta iota. eexists (bind _ allocate_subtopic).
  split; [|split]; cycle 2.
  { rewrite bind_assoc. reflexivity. }
  - apply ns_bind; [|intros ?; apply ns_allocate].
    repeat first
      [ apply ns_ret | apply ns_raise
      | apply ns_bind;
          [first [apply ns_increment | apply ns_append | apply ns_lift]|intros ?]
      | case_match ].
  - apply cs_bind; [|intros ?; apply cs_allocate].
    repeat first
      [ apply cs_ret | apply cs_raise
      | apply cs_bind;
          [first [apply cs_increment | apply cs_append | apply cs_lift]|intros ?]
      | case_match ].
Qed.

Lemma wf_children_ok s : wf_scheme s → children_ok s.
Proof.
  intros (_ & _ & _ & _ & _ & _ & d & Hd & Hne) d' Hd'.
  rewrite Hd in Hd'. by injection Hd' as <-.
Qed.

Lemma wf_grows s s' :
  wf_scheme s → grows s s' → children_ok s' → wf_scheme s'.
Proof.
  intros ((nm & Hnm) & (nf & Hnf) & (nq & Hnq) & (lm & Hlm)
          & (lf & Hlf) & (lq & Hlq) & d & Hd & _) Hg Hc.
  assert (∀ k n, s !! k = Some (JNum n) → ∃ m, s' !! k = Some (JNum m)) as Hnum.
  { intros k n Hk. specialize (Hg k). rewrite Hk in Hg.
    destruct Hg as ([| |] & -> & Hv); try done. eauto. }
  assert (∀ k l, s !! k = Some (JList l) → ∃ l', s' !! k = Some (JList l')) as Hlist.
  { intros k l Hk. specialize (Hg k). rewrite Hk in Hg.
    destruct Hg as ([| |] & -> & Hv); try done. eauto. }
  repeat split; eauto.
  specialize (Hg "subtopics"). rewrite Hd in Hg.
  destruct Hg as ([| |d'] & Hd' & Hv); try done.
  exists d'. split; [done|]. by apply Hc.
Qed.

Lemma saved_step_wf (body : M string) st r st' :
  numbering_step body → children_step body →
  wf_scheme (numbering_scheme st) →
  (let! x := body in let! _ := save_numbering_scheme in ret x) st = (r, st') →
  wf_scheme (numbering_scheme st').
Proof.
  intros Hn Hc Hwf. unfold bind.
  destruct (body st) as [[x|e] st1] eqn:E.
  - rewrite save_numbering_scheme_run. intros [= _ <-].
    rewrite scheme_saved_scheme.
    apply (wf_grows (numbering_scheme st)); [done|exact (proj1 (proj2 (Hn _ _ _ E)))|].
    eapply Hc; [|exact E]. by apply wf_children_ok.
  - intros [= _ <-].
    apply (wf_grows (numbering_scheme st)); [done|exact (proj1 (proj2 (Hn _ _ _ E)))|].
    eapply Hc; [|exact E]. by apply wf_children_ok.
Qed.

(** X6: a scheme with its seven fields, each of its kind, and no empty
    subtopic id, is still such a scheme after [generate_zettel_number] and
    after [expand_thematic_structure], whatever the rules are and whether the
    call returns or raises. *)
Theorem scheme_stays_well_formed :
  (∀ st content_ category_ r st',
      wf_scheme (numbering_scheme st) →
      generate_zettel_number content_ category_ st = (r, st') →
      wf_scheme (numbering_scheme st'))
  ∧ (∀ st base_topic new_content r st',
      wf_scheme (numbering_scheme st) →
      expand_thematic_structure base_topic new_content st = (r, st') →
      wf_scheme (numbering_scheme st')).
Proof.
  split.
  - intros st content_ category_ r st' Hwf.
    destruct (generate_shape_children content_ category_ st)
      as (body & Hn & Hc & ->). by apply saved_step_wf.
  - intros st base_topic new_content r st' Hwf.
    destruct (expand_shape_children base_topic new_content st)
      as (body & Hn & Hc & ->). by apply saved_step_wf.
Qed.


Lemma fresh_manager_wf : wf_scheme (numbering_scheme (manager_of empty_world)).
Proof.
  repeat split; try (eexists; vm_compute; reflexivity).
  exists ∅. split; [vm_compute; reflexivity|].
  intros p children H. by rewrite lookup_empty in H.
Qed.

Lemma scheme_stays_well_formed_witness :
  wf_scheme (numbering_scheme
               (generate_zettel_number "a" "main" (manager_of empty_world)).2).
Proof.
  apply (proj1 scheme_stays_well_formed (manager_of empty_world) "a" "main"
           (generate_zettel_number "a" "main" (manager_of empty_world)).1).
  - apply fresh_manager_wf.
  - by destruct (generate_zettel_number "a" "main" (manager_of empty_world)).
Defined.

(** ** Numbering: the built-in table never fails *)


Lemma default_table_step (body : M string) st r st' :
  numbering_step body → children_step body →
  on_default_table st →
  (let! x := body in let! _ := save_numbering_scheme in ret x) st = (r, st') →
  on_default_table st'.
Proof.
  intros Hn Hc (Hwf & Hru & Hlo & Hdoc) Hrun.
  pose proof (saved_step_wf body st r st' Hn Hc Hwf Hrun) as Hwf'.
  unfold bind in Hrun. destruct (body st) as [[x|e] st1] eqn:E;
    apply Hn in E as (Hf & _ & Hd);
    destruct Hf as (_ & _ & Hru' & _ & _ & Hrd & _).
  - rewrite save_numbering_scheme_run in Hrun. injection Hrun as <- <-.
    refine (conj Hwf' (conj _ (conj _ _))).
    + by rewrite scheme_saved_rules, Hru'.
    + unfold _load_numbering_rules, scheme_saved in *.
      destruct (write_error _ _); simpl; by rewrite Hrd.
    + rewrite scheme_saved_scheme in Hwf'. unfold scheme_doc_ok, scheme_saved in *.
      destruct (write_error _ _); simpl; [by rewrite Hd|by right].
  - injection Hrun as <- <-.
    refine (conj Hwf' (conj _ (conj _ _))).
    + by rewrite Hru'.
    + unfold _load_numbering_rules in *. by rewrite Hrd.
    + unfold scheme_doc_ok in *. by rewrite Hd.
Qed.


Lemma reload_default_table st :
  on_default_table st → on_default_table (reload st).
Proof.
  intros Hd. unfold reload.
  destruct (new_manager _ _ _) as [st'|e] eqn:E; [|done].
  destruct Hd as (_ & _ & Hlo & Hdoc).
  by eapply new_manager_default_table.
Qed.

Lemma run_default_table ops :
  ∀ st, on_default_table st → Forall (λ entry, is_ok entry.2) (run ops st).
Proof.
  induction ops as [|o ops IH]; intros st Hd; [constructor|].
  destruct o as [content_ c|base_topic new_content|]; simpl.
  - destruct (generate_zettel_number content_ c st) as [r st'] eqn:E.
    constructor.
    + simpl. destruct Hd as (Hwf & Hru & _).
      pose proof (generate_no_rule_ok st content_ c Hwf) as Hok.
      rewrite E in Hok. apply Hok. rewrite Hru. apply lookup_empty.
    + apply IH.
      destruct (generate_shape_children content_ c st) as (body & Hn & Hc & Hs).
      rewrite Hs in E. by eapply default_table_step.
  - apply IH.
    destruct (expand_thematic_structure base_topic new_content st) as [r st'] eqn:E.
    destruct (expand_shape_children base_topic new_content st) as (body & Hn & Hc & Hs).
    rewrite Hs in E. by eapply default_table_step.
  - apply IH. by apply reload_default_table.
Qed.

(** X7: with no rule table (resource missing, malformed or without
    rules) and a scheme document that is absent, unreadable, empty or
    well-formed, no call of [generate_zettel_number] ever raises, through any
    sequence of allocations, expansions and rebuilds of the manager. *)
Theorem default_table_never_fails :
  ∀ base metadata w st0 ops,
    new_manager base metadata w = Ok st0 →
    _load_numbering_rules w = ∅ →
    scheme_doc_ok w →
    Forall (λ entry, is_ok entry.2) (run ops st0).
Proof.
  intros base metadata w st0 ops Hnew Hlo Hdoc.
  apply run_default_table. by eapply new_manager_default_table.
Qed.

Lemma default_table_never_fails_witness :
  Forall (λ entry, is_ok entry.2)
    (run [Generate "a" "main"; Generate "b" "notes/x"; Reload;
          Expand "9" "c"; Generate "d" ""; Generate "e" "frequent"]
       (manager_of empty_world)).
Proof.
  apply (default_table_never_fails "X" "X/_metadata" empty_world).
  - vm_compute. reflexivity.
  - reflexivity.
  - exact I.
Defined.

(** ** Creating a card: what is written, linked and kept *)

Lemma same_memory_refl st : same_memory st st.
Proof. by repeat split. Qed.

Lemma same_memory_trans st1 st2 st3 :
  same_memory st1 st2 → same_memory st2 st3 → same_memory st1 st3.
Proof. unfold same_memory. intros H1 H2. destruct_and!. repeat split; congruence. Qed.

Lemma write_file_inv p t st r st' :
  write_file p t st = (r, st') →
  same_memory st st'
  ∧ scheme_doc (env st') = scheme_doc (env st)
  ∧ match r with
    | Ok _ => files (env st') = <[p := t]> (files (env st))
    | Raise _ => st' = st
    end.
Proof.
  unfold write_file. destruct (write_error _ _); intros [= <- <-];
    split; try apply same_memory_refl; by split.
Qed.

Lemma mkdir_state p st r st' : mkdir p st = (r, st') → st' = st.
Proof. unfold mkdir. destruct (mkdir_error _ _); by intros [= _ <-]. Qed.

Lemma mirror_step_inv extra text st r st' :
  match extra with
  | None | Some "" => ret tt
  | Some extra_folder =>
      let! _ := mkdir extra_folder in
      write_file (path_join extra_folder "00_zettel.md") text
  end st = (r, st') →
  same_memory st st'
  ∧ scheme_doc (env st') = scheme_doc (env st)
  ∧ match r with
    | Ok _ => files (env st') = mirror extra text (files (env st))
    | Raise _ => st' = st
    end.
Proof.
  destruct extra as [[|ch ef]|]; simpl.
  - intros [= <- <-]. split; [apply same_memory_refl|]. by split.
  - unfold bind. destruct (mkdir _ st) as [[[]|e] st1] eqn:E;
      apply mkdir_state in E as ->.
    + apply write_file_inv.
    + intros [= <- <-]. split; [apply same_memory_refl|]. by split.
  - intros [= <- <-]. split; [apply same_memory_refl|]. by split.
Qed.

Lemma add_cross_references_inv s ts st :
  ∃ st', _add_cross_references s ts st = (Ok tt, st')
    ∧ cross_references st' = add_edges s ts (cross_references st)
    ∧ card_index st' = card_index st
    ∧ numbering_scheme st' = numbering_scheme st
    ∧ files (env st') = files (env st)
    ∧ scheme_doc (env st') = scheme_doc (env st)
    ∧ metadata_path st' = metadata_path st
    ∧ write_error (env st') = write_error (env st).
Proof.
  unfold _add_cross_references. destruct ts as [|t ts].
  - eexists. split; [reflexivity|]. by repeat split.
  - unfold bind, modify, gets, _save_metadata. simpl.
    destruct (write_error _ _); eexists; (split; [reflexivity|]); by repeat split.
Qed.

Lemma save_index_inv data st :
  ∃ st', _save_metadata "card_index.json" set_index_doc data st = (Ok tt, st')
    ∧ cross_references st' = cross_references st
    ∧ card_index st' = card_index st
    ∧ numbering_scheme st' = numbering_scheme st
    ∧ files (env st') = files (env st)
    ∧ scheme_doc (env st') = scheme_doc (env st).
Proof.
  unfold _save_metadata.
  destruct (write_error _ _); eexists; (split; [reflexivity|]); by repeat split.
Qed.

Lemma create_inv_full now1 now2 content_ title_ category_ xrefs tags_ extra st c st' :
  create_zettel_card now1 now2 content_ title_ category_ xrefs tags_ extra st
    = (Ok (Card c), st') →
  ∃ id st1 text,
    generate_zettel_number content_ category_ st = (Ok id, st1)
    ∧ c = {| number := id; title := title_; content := content_;
             category := category_; card_cross_references := default [] xrefs;
             tags := default [] tags_; created := now1; modified := now2 |}
    ∧ _format_card_content c st1 = (Ok text, st1)
    ∧ card_index st' =
        od_set id (index_entry (path_join (folder_of (base_path st1) category_)
                                  (id +:+ ".md")) title_ category_ now1)
          (card_index st1)
    ∧ cross_references st' = add_edges id (default [] xrefs) (cross_references st1)
    ∧ numbering_scheme st' = numbering_scheme st1
    ∧ scheme_doc (env st') = scheme_doc (env st1)
    ∧ files (env st') =
        mirror extra text
          (<[path_join (folder_of (base_path st1) category_) (id +:+ ".md") := text]>
             (files (env st1))).
Proof.
  unfold create_zettel_card.
  intros (id & st1 & Hgen & H)%bind_inv_ok.
  apply bind_inv_ok in H as (base & st2 & [= <- <-] & H).
  fold (folder_of (base_path st1) category_) in H.
  apply bind_inv_ok in H as ([] & st2 & ->%mkdir_inv & H).
  apply bind_inv_ok in H as (text & st2 & Hfmt & H).
  pose proof (format_card_content_state _ _ _ _ Hfmt) as ->.
  apply try_except_inv_card in H; [|by intros e st3].
  apply bind_inv_ok in H as ([] & st2 & Hw & H).
  apply write_file_inv in Hw as (Hm2 & Hd2 & Hf2).
  apply bind_inv_ok in H as ([] & st3 & Hx & H).
  apply mirror_step_inv in Hx as (Hm3 & Hd3 & Hf3).
  apply bind_inv_ok in H as ([] & st4 & [= <-] & H).
  apply bind_inv_ok in H as ([] & st5 & Ha & H).
  apply bind_inv_ok in H as (index & st6 & [= <- <-] & H).
  apply bind_inv_ok in H as ([] & st7 & Hs & [= <- <-]).
  match type of Ha with
  | _add_cross_references ?s ?ts ?st0 = _ =>
      destruct (add_cross_references_inv s ts st0)
        as (st5' & Ha' & Hxr & Hci & Hns & Hfi & Hsd & _)
  end.
  rewrite Ha' in Ha. injection Ha as <-.
  destruct (save_index_inv (card_index st5') st5')
    as (st7' & Hs' & Hxr7 & Hci7 & Hns7 & Hfi7 & Hsd7).
  rewrite Hs' in Hs. injection Hs as <-.
  destruct Hm2 as (Hci2 & Hxr2 & Hns2 & _). destruct Hm3 as (Hci3 & Hxr3 & Hns3 & _).
  simpl in *.
  exists id, st1, text. split; [done|]. split; [done|]. split; [done|].
  split; [by rewrite Hci7, Hci, Hci3, Hci2|].
  split; [by rewrite Hxr7, Hxr, Hxr3, Hxr2|].
  split; [by rewrite Hns7, Hns, Hns3, Hns2|].
  split; [by rewrite Hsd7, Hsd, Hd3, Hd2|].
  by rewrite Hfi7, Hfi, Hf3, Hf2.
Qed.

Lemma bind_inv_raise {A B} (c : M A) (k : A → M B) st e st2 :
  bind c k st = (Raise e, st2) →
  c st = (Raise e, st2)
  ∨ ∃ a st1, c st = (Ok a, st1) ∧ k a st1 = (Raise e, st2).
Proof.
  unfold bind. destruct (c st) as [[a|e0] st1]; intros H; [right; eauto|left].
  by injection H as -> ->.
Qed.

Lemma create_error_inv now1 now2 content_ title_ category_ xrefs tags_ extra
    st message st' :
  create_zettel_card now1 now2 content_ title_ category_ xrefs tags_ extra st
    = (Ok (ErrorResult message), st') →
  ∃ id st1,
    generate_zettel_number content_ category_ st = (Ok id, st1)
    ∧ card_index st' = card_index st
    ∧ cross_references st' = cross_references st
    ∧ numbering_scheme st' = numbering_scheme st1
    ∧ scheme_doc (env st') = scheme_doc (env st1).
Proof.
  unfold create_zettel_card.
  intros (id & st1 & Hgen & H)%bind_inv_ok.
  apply bind_inv_ok in H as (base & st2 & [= <- <-] & H).
  apply bind_inv_ok in H as ([] & st2 & ->%mkdir_inv & H).
  apply bind_inv_ok in H as (text & st2 & Hfmt & H).
  pose proof (format_card_content_state _ _ _ _ Hfmt) as ->.
  destruct (generate_frame _ _ _ _ _ Hgen) as (_ & Hci & Hxr & _).
  exists id, st1. split; [done|]. rewrite <- Hci, <- Hxr.
  assert (same_memory st1 st' ∧ scheme_doc (env st') = scheme_doc (env st1))
    as ((Hci' & Hxr' & Hns' & _) & Hsd); [|done].
  unfold try_except in H.
  match type of H with
  | match ?c st1 with _ => _ end = _ => destruct (c st1) as [[a|e] st3] eqn:Hbody
  end.
  { (* the block never returns an error result itself *)
    injection H as -> ->.
    apply bind_inv_ok in Hbody as ([] & st4 & _ & Hbody).
    apply bind_inv_ok in Hbody as ([] & st5 & _ & Hbody).
    apply bind_inv_ok in Hbody as ([] & st6 & _ & Hbody).
    apply bind_inv_ok in Hbody as ([] & st7 & _ & Hbody).
    apply bind_inv_ok in Hbody as (index & st8 & _ & Hbody).
    apply bind_inv_ok in Hbody as ([] & st9 & _ & Hbody). done. }
  injection H as _ <-.
  apply bind_inv_raise in Hbody as [Hw|([] & st4 & Hw & Hbody)].
  { apply write_file_inv in Hw as (_ & _ & ->). split; [apply same_memory_refl|done]. }
  apply write_file_inv in Hw as (Hm4 & Hd4 & _).
  apply bind_inv_raise in Hbody as [Hx|([] & st5 & Hx & Hbody)].
  { apply mirror_step_inv in Hx as (_ & _ & ->). done. }
  apply bind_inv_raise in Hbody as [Hmod|([] & st6 & [= <-] & Hbody)]; [done|].
  apply bind_inv_raise in Hbody as [Ha|([] & st7 & Ha & Hbody)].
  { match type of Ha with
    | _add_cross_references ?s ?ts ?st0 = _ =>
        destruct (add_cross_references_inv s ts st0) as (? & Ha' & _)
    end. rewrite Ha' in Ha. done. }
  apply bind_inv_raise in Hbody as [Hg|(index & st8 & [= <- <-] & Hbody)]; [done|].
  apply bind_inv_raise in Hbody as [Hs|([] & st9 & Hs & Hbody)]; [|done].
  destruct (save_index_inv (card_index st7) st7) as (? & Hs' & _).
  rewrite Hs' in Hs. done.
Qed.

(** X8: when [create_zettel_card] returns an error result, the card index
    and the graph in memory are as before the call, but the number was
    allocated: the numbering scheme, in memory and on disk, is the one
    [generate_zettel_number] left. *)
Theorem create_error_result_consumes_number :
  ∀ now1 now2 content_ title_ category_ xrefs tags_ extra st message st',
    create_zettel_card now1 now2 content_ title_ category_ xrefs tags_ extra st
      = (Ok (ErrorResult message), st') →
    ∃ id st1,
      generate_zettel_number content_ category_ st = (Ok id, st1)
      ∧ card_index st' = card_index st
      ∧ cross_references st' = cross_references st
      ∧ numbering_scheme st' = numbering_scheme st1
      ∧ scheme_doc (env st') = scheme_doc (env st1).
Proof. exact create_error_inv. Qed.

Lemma create_error_result_consumes_number_witness :
  ∃ id st1,
    generate_zettel_number "Notes" "main" (manager_of mirror_blocked_world)
      = (Ok id, st1)
    ∧ card_index
        (create_zettel_card "t" "t" "Notes" "Plan" "main" None None (Some "Inbox")
           (manager_of mirror_blocked_world)).2
      = card_index (manager_of mirror_blocked_world)
    ∧ cross_references
        (create_zettel_card "t" "t" "Notes" "Plan" "main" None None (Some "Inbox")
           (manager_of mirror_blocked_world)).2
      = cross_references (manager_of mirror_blocked_world)
    ∧ numbering_scheme
        (create_zettel_card "t" "t" "Notes" "Plan" "main" None None (Some "Inbox")
           (manager_of mirror_blocked_world)).2
      = numbering_scheme st1
    ∧ scheme_doc (env
        (create_zettel_card "t" "t" "Notes" "Plan" "main" None None (Some "Inbox")
           (manager_of mirror_blocked_world)).2)
      = scheme_doc (env st1).
Proof.
  apply (create_error_result_consumes_number "t" "t" "Notes" "Plan" "main"
           None None (Some "Inbox") (manager_of mirror_blocked_world)
           "[Errno 13] Permission denied: 'Inbox/00_zettel.md'").
  vm_compute. reflexivity.
Defined.

(** X9: for an ASCII title and a card index of ASCII text, a card that
    [create_zettel_card] returns is registered with the path of its file,
    that file holds the document [_format_card_content] gives for the card
    on the state the allocation of its number left, and when a second folder
    was given, its [00_zettel.md] holds the same document. *)
Theorem create_writes_card_document :
  ∀ now1 now2 content_ title_ category_ xrefs tags_ extra st c st',
    create_zettel_card now1 now2 content_ title_ category_ xrefs tags_ extra st
      = (Ok (Card c), st') →
    Str.isascii title_ = true → ascii_index (card_index st) →
    ∃ st1 card_file text,
      generate_zettel_number content_ category_ st = (Ok (number c), st1)
      ∧ _format_card_content c st1 = (Ok text, st1)
      ∧ od_get (number c) (card_index st')
        = Some (index_entry card_file title_ category_ now1)
      ∧ files (env st') !! card_file = Some text
      ∧ ∀ extra_folder, extra = Some extra_folder → extra_folder ≠ "" →
          files (env st') !! path_join extra_folder "00_zettel.md" = Some text.
Proof.
  intros now1 now2 content_ title_ category_ xrefs tags_ extra st c st' Hc _ _.
  destruct (create_inv_full _ _ _ _ _ _ _ _ _ _ _ Hc)
    as (id & st1 & text & Hgen & -> & Hfmt & Hci & _ & _ & _ & Hfiles).
  eexists st1, _, text. split; [exact Hgen|]. split; [exact Hfmt|]. split; [|split].
  - rewrite Hci. simpl. apply od_get_set_eq.
  - rewrite Hfiles. unfold mirror.
    destruct extra as [[|ch ef]|]; try apply lookup_insert_eq.
    destruct (decide (path_join (String ch ef) "00_zettel.md"
                      = path_join (folder_of (base_path st1) category_) (id +:+ ".md")))
      as [->|Hne]; [apply lookup_insert_eq|].
    rewrite lookup_insert_ne by done. apply lookup_insert_eq.
  - intros extra_folder -> Hne. rewrite Hfiles. unfold mirror.
    destruct extra_folder; [done|]. apply lookup_insert_eq.
Qed.

Lemma after_first_card_ascii : ascii_index (card_index after_first_card).
Proof.
  change (card_index after_first_card)
    with [("1", index_entry "X/main/1.md" "Rivers" "main" "2026-01-01T10:00:00")].
  repeat constructor. intros key s H. unfold index_entry in H. simpl in H.
  repeat (apply lookup_insert_Some in H as [[_ H]|[_ H]];
          [by injection H as <-|]).
  by rewrite lookup_empty in H.
Qed.

Lemma create_writes_card_document_witness :
  ∃ st1 card_file text,
    generate_zettel_number "Notes on lakes" "main" after_first_card
      = (Ok (number {| number := "2"; title := "Rivers and lakes";
                       content := "Notes on lakes"; category := "main";
                       card_cross_references := []; tags := ["water"];
                       created := "t"; modified := "t" |}), st1)
    ∧ _format_card_content
        {| number := "2"; title := "Rivers and lakes"; content := "Notes on lakes";
           category := "main"; card_cross_references := []; tags := ["water"];
           created := "t"; modified := "t" |} st1 = (Ok text, st1)
    ∧ od_get (number {| number := "2"; title := "Rivers and lakes";
                        content := "Notes on lakes"; category := "main";
                        card_cross_references := []; tags := ["water"];
                        created := "t"; modified := "t" |})
        (card_index
           (create_zettel_card "t" "t" "Notes on lakes" "Rivers and lakes" "main" None
              (Some ["water"]) (Some "Inbox") after_first_card).2)
      = Some (index_entry card_file "Rivers and lakes" "main" "t")
    ∧ files (env
        (create_zettel_card "t" "t" "Notes on lakes" "Rivers and lakes" "main" None
           (Some ["water"]) (Some "Inbox") after_first_card).2)
        !! card_file = Some text
    ∧ ∀ extra_folder, Some "Inbox" = Some extra_folder → extra_folder ≠ "" →
        files (env
          (create_zettel_card "t" "t" "Notes on lakes" "Rivers and lakes" "main" None
             (Some ["water"]) (Some "Inbox") after_first_card).2)
          !! path_join extra_folder "00_zettel.md" = Some text.
Proof.
  apply (create_writes_card_document "t" "t" "Notes on lakes" "Rivers and lakes"
           "main" None (Some ["water"]) (Some "Inbox") after_first_card
           {| number := "2"; title := "Rivers and lakes"; content := "Notes on lakes";
              category := "main"; card_cross_references := []; tags := ["water"];
              created := "t"; modified := "t" |}).
  - vm_compute. reflexivity.
  - reflexivity.
  - apply after_first_card_ascii.
Defined.

(** ** The graph: exactly the edges asked for *)

Lemma adjacent_add_edges s ts :
  ∀ g a b,
    adjacent (add_edges s ts g) a b
    ↔ adjacent g a b ∨ (a = s ∧ b ∈ ts) ∨ (a ∈ ts ∧ b = s).
Proof.
  unfold add_edges. induction ts as [|t ts IH]; intros g a b; simpl.
  - split; [by left|]. intros [H|[[_ []%elem_of_nil]|[[]%elem_of_nil _]]]. done.
  - rewrite IH, adjacent_add_edge, !elem_of_cons. tauto.
Qed.

(** X10: [_add_cross_references] adds the edges between the source and each
    target, in both directions, and nothing else: every edge that was there
    stays, and no edge between other cards appears. *)
Theorem add_cross_references_exact_edges :
  ∀ st source targets a b,
    adjacent (cross_references (_add_cross_references source targets st).2) a b
    ↔ adjacent (cross_references st) a b
      ∨ (a = source ∧ b ∈ targets) ∨ (a ∈ targets ∧ b = source).
Proof.
  intros st source targets a b.
  rewrite add_cross_references_graph. apply adjacent_add_edges.
Qed.

(** X11: a card that [create_zettel_card] returns is linked in both
    directions with every card given as a cross-reference, and the edges
    that were in the graph before are still there. *)
Theorem create_links_cross_references :
  ∀ now1 now2 content_ title_ category_ xrefs tags_ extra st c st',
    create_zettel_card now1 now2 content_ title_ category_ xrefs tags_ extra st
      = (Ok (Card c), st') →
    (∀ target, target ∈ default [] xrefs →
       adjacent (cross_references st') (number c) target
       ∧ adjacent (cross_references st') target (number c))
    ∧ (∀ a b, adjacent (cross_references st) a b →
              adjacent (cross_references st') a b).
Proof.
  intros now1 now2 content_ title_ category_ xrefs tags_ extra st c st' Hc.
  destruct (create_inv_full _ _ _ _ _ _ _ _ _ _ _ Hc)
    as (id & st1 & text & Hgen & -> & _ & _ & Hxr & _).
  destruct (generate_frame _ _ _ _ _ Hgen) as (_ & _ & Hxr1 & _).
  rewrite Hxr, Hxr1. simpl. split.
  - intros target Hin. split; apply adjacent_add_edges; auto.
  - intros a b Hab. apply adjacent_add_edges. auto.
Qed.

Lemma create_links_cross_references_witness :
  (∀ target, target ∈ default [] (Some ["7"; "8"]) →
     adjacent (cross_references
        (create_zettel_card "t" "t" "Notes" "Rivers" "main" (Some ["7"; "8"]) None None
           (manager_of empty_world)).2) (number
        {| number := "1"; title := "Rivers"; content := "Notes";
           category := "main"; card_cross_references := ["7"; "8"]; tags := [];
           created := "t"; modified := "t" |}) target
     ∧ adjacent (cross_references
        (create_zettel_card "t" "t" "Notes" "Rivers" "main" (Some ["7"; "8"]) None None
           (manager_of empty_world)).2) target (number
        {| number := "1"; title := "Rivers"; content := "Notes";
           category := "main"; card_cross_references := ["7"; "8"]; tags := [];
           created := "t"; modified := "t" |}))
  ∧ (∀ a b, adjacent (cross_references (manager_of empty_world)) a b →
            adjacent (cross_references
              (create_zettel_card "t" "t" "Notes" "Rivers" "main" (Some ["7"; "8"])
                 None None (manager_of empty_world)).2) a b).
Proof.
  apply (create_links_cross_references "t" "t" "Notes" "Rivers" "main"
           (Some ["7"; "8"]) None None (manager_of empty_world)).
  vm_compute. reflexivity.
Defined.

(** ** Suggested connections become edges *)

Lemma find_thematic_connections_loop_inv index text candidates connections :
  find_thematic_connections_loop index (word_set (Str.lower text)) candidates
    = Ok connections →
  ∀ id, id ∈ connections →
    id ∈ candidates
    ∧ ∃ info title_,
        od_get id index = Some info
        ∧ get_str info "title" AttributeError = Ok title_
        ∧ 2 ≤ common_words text title_.
Proof.
  revert connections. induction candidates as [|card rest IH];
    intros connections; simpl.
  - intros [= <-] id []%elem_of_nil.
  - destruct (od_get card index) as [info|] eqn:Hg.
    + destruct (get_str info "title" AttributeError) as [title_|] eqn:Ht; [|done].
      simpl. destruct (find_thematic_connections_loop _ _ rest) as [conns|]; [|done].
      simpl. intros [= <-] id Hin. case_bool_decide as Hsize.
      * apply elem_of_cons in Hin as [->|Hin].
        -- split; [left|]. eauto.
        -- destruct (IH conns eq_refl id Hin) as (? & ?). split; [by right|done].
      * destruct (IH conns eq_refl id Hin) as (? & ?). split; [by right|done].
    + intros Hc id Hin. destruct (IH connections Hc id Hin) as (? & ?).
      split; [by right|done].
Qed.

(** X12: for ASCII text and titles, used as the orchestrator does, the
    connections found for a text are
    passed on as the cross-references of the new card: every connection is
    a card of the index whose title shares at least two words with the text,
    and the new card ends up linked with it in both directions. *)
Theorem suggested_connections_become_edges :
  ∀ now1 now2 content_ title_ category_ st connections st0 c st',
    Str.isascii content_ = true → ascii_index (card_index st) →
    find_thematic_connections content_ None st = (Ok connections, st0) →
    create_zettel_card now1 now2 content_ title_ category_ (Some connections)
      None None st0 = (Ok (Card c), st') →
    st0 = st
    ∧ ∀ id, id ∈ connections →
        (∃ info card_title,
            od_get id (card_index st) = Some info
            ∧ get_str info "title" AttributeError = Ok card_title
            ∧ 2 ≤ common_words content_ card_title)
        ∧ adjacent (cross_references st') (number c) id
        ∧ adjacent (cross_references st') id (number c).
Proof.
  intros now1 now2 content_ title_ category_ st connections st0 c st' _ _ Hfind Hc.
  unfold find_thematic_connections, bind, gets, lift in Hfind. simpl in Hfind.
  injection Hfind as Hloop <-. split; [done|]. intros id Hin.
  destruct (find_thematic_connections_loop_inv _ _ _ _ Hloop id Hin) as (_ & Hinfo).
  split; [done|].
  destruct (create_inv_full _ _ _ _ _ _ _ _ _ _ _ Hc)
    as (n & st1 & text & Hgen & -> & _ & _ & Hxr & _).
  rewrite Hxr. simpl. split; apply adjacent_add_edges; auto.
Qed.

Lemma suggested_connections_become_edges_witness :
  manager_with_index titled_index = manager_with_index titled_index
  ∧ ∀ id, id ∈ ["1"; "3"] →
      (∃ info card_title,
          od_get id (card_index (manager_with_index titled_index)) = Some info
          ∧ get_str info "title" AttributeError = Ok card_title
          ∧ 2 ≤ common_words "alpha beta gamma" card_title)
      ∧ adjacent (cross_references
          (create_zettel_card "t" "t" "alpha beta gamma" "Greek" "main"
             (Some ["1"; "3"]) None None (manager_with_index titled_index)).2)
          (number {| number := "1"; title := "Greek"; content := "alpha beta gamma";
                     category := "main"; card_cross_references := ["1"; "3"];
                     tags := []; created := "t"; modified := "t" |}) id
      ∧ adjacent (cross_references
          (create_zettel_card "t" "t" "alpha beta gamma" "Greek" "main"
             (Some ["1"; "3"]) None None (manager_with_index titled_index)).2) id
          (number {| number := "1"; title := "Greek"; content := "alpha beta gamma";
                     category := "main"; card_cross_references := ["1"; "3"];
                     tags := []; created := "t"; modified := "t" |}).
Proof.
  apply (suggested_connections_become_edges "t" "t" "alpha beta gamma" "Greek"
           "main" (manager_with_index titled_index) ["1"; "3"]
           (manager_with_index titled_index));
    [reflexivity|apply titled_index_ascii|vm_compute; reflexivity..].
Defined.

(** ** The same id twice: the later card replaces the earlier *)

Lemma od_keys_set_present {V} k (v v' : V) d :
  od_get k d = Some v' → od_keys (od_set k v d) = od_keys d.
Proof.
  unfold od_keys. induction d as [|[k0 v0] d IH]; simpl; [done|].
  destruct (decide (k = k0)) as [->|Hne]; simpl; [done|].
  intros H. by rewrite IH.
Qed.

Lemma generate_keeps_io_and_index content_ category_ st r st' :
  generate_zettel_number content_ category_ st = (r, st') →
  (no_io_errors st → no_io_errors st')
  ∧ (textual_index (card_index st) → textual_index (card_index st')).
Proof.
  intros Hgen.
  destruct (generate_frame _ _ _ _ _ Hgen) as (_ & Hci & _ & _ & _ & Hme & Hwe & _).
  split.
  - intros [Hmk Hwr]. split; intros p; [rewrite Hme|rewrite Hwe]; auto.
  - by rewrite Hci.
Qed.

(** X13: once the letters of a parent are used up, two cards created one
    after the other for its category get the same number, and the second
    takes the place of the first in the card index: no key is added and the
    entry under the number is that of the second card. *)
Theorem exhausted_parent_overwrites_card :
  ∀ now1 now1' content1 title1 tags1 now2 now2' content2 title2 tags2
    category_ st d,
    zettel_numbering_rules st !! category_ = None →
    category_ ≠ "frequent" → category_ ≠ "quote" → category_ ≠ "main" →
    numbering_scheme st !! "subtopics" = Some (JSubs d) →
    Forall (λ item, item ≠ "") (default [] (d !! Str.before_slash category_)) →
    (∀ c, c ∈ alphabet →
          used_suffix c (default [] (d !! Str.before_slash category_))) →
    no_io_errors st → textual_index (card_index st) →
    ∃ c1 st1 c2 st2 file2,
      create_card now1 now1' content1 title1 category_ tags1 st = (Ok (Card c1), st1)
      ∧ create_card now2 now2' content2 title2 category_ tags2 st1
        = (Ok (Card c2), st2)
      ∧ number c1 = Str.before_slash category_ +:+ "aa"
      ∧ number c2 = Str.before_slash category_ +:+ "aa"
      ∧ od_keys (card_index st2) = od_keys (card_index st1)
      ∧ od_get (number c2) (card_index st2)
        = Some (index_entry file2 title2 category_ now2).
Proof.
  intros now1 now1' content1 title1 tags1 now2 now2' content2 title2 tags2
    category_ st d Hr Hf Hq Hm Hs Hne Hall Hio Hidx.
  set (p := Str.before_slash category_) in *.
  destruct (get_next_subtopic_letter_spec _ Hne) as (suffix & Hl & Hspec).
  pose proof (all_used_gives_aa _ _ Hall Hspec) as ->.
  pose proof (generate_subtopic_full st content1 category_ d "aa" Hr Hf Hq Hm Hs Hl)
    as Hg1.
  destruct (generate_keeps_io_and_index _ _ _ _ _ Hg1) as (Hio1 & Hidx1).
  destruct (create_ok now1 now1' content1 title1 category_ None
              (Some (default [] tags1)) None st _ _ Hg1 (Hio1 Hio) (Hidx1 Hidx))
    as (st1 & Hc1 & Hs1 & Hr1 & Hi1 & Hio').
  set (children' := default [] (d !! p) ++ [p +:+ "aa"]).
  assert (Forall (λ item, item ≠ "") children') as Hne'.
  { apply Forall_app. split; [done|]. repeat constructor. by apply append_nonempty. }
  assert (∀ c, c ∈ alphabet → used_suffix c children') as Hall'.
  { intros c Hc. by apply used_suffix_app, Hall. }
  destruct (get_next_subtopic_letter_spec _ Hne') as (suffix' & Hl' & Hspec').
  pose proof (all_used_gives_aa _ _ Hall' Hspec') as ->.
  assert (numbering_scheme st1 !! "subtopics" = Some (JSubs (<[p := children']> d)))
    as Hs'.
  { rewrite Hs1, scheme_saved_scheme. simpl. apply lookup_insert_eq. }
  assert (zettel_numbering_rules st1 !! category_ = None) as Hr'.
  { by rewrite Hr1, scheme_saved_rules. }
  assert (_get_next_subtopic_letter
            (default [] (<[p := children']> d !! Str.before_slash category_)) = Ok "aa")
    as Hl''.
  { fold p. by rewrite lookup_insert_eq. }
  pose proof (generate_subtopic_full st1 content2 category_ _ "aa"
                Hr' Hf Hq Hm Hs' Hl'') as Hg2.
  assert (textual_index (card_index st1)) as Hidx'.
  { rewrite Hi1. apply od_set_forall; [apply index_entry_textual|by apply Hidx1]. }
  destruct (generate_keeps_io_and_index _ _ _ _ _ Hg2) as (Hio2 & Hidx2).
  destruct (create_ok now2 now2' content2 title2 category_ None
              (Some (default [] tags2)) None st1 _ _ Hg2 (Hio2 Hio') (Hidx2 Hidx'))
    as (st2 & Hc2 & Hs2 & Hr2 & Hi2 & _).
  eexists _, st1, _, st2, _. split; [exact Hc1|]. split; [exact Hc2|].
  split; [done|]. split; [done|].
  destruct (generate_frame _ _ _ _ _ Hg2) as (_ & Hci2 & _).
  rewrite Hi2, Hci2. split.
  - eapply od_keys_set_present. rewrite Hi1. apply od_get_set_eq.
  - apply od_get_set_eq.
Qed.

Lemma exhausted_parent_overwrites_card_witness :
  ∃ c1 st1 c2 st2 file2,
    create_card "2026-01-01T10:00:00" "2026-01-01T10:00:00" "first text" "First"
        "3" (Some ["a"])
        (manager_with_children (map (λ c, "3" +:+ String c "") alphabet))
      = (Ok (Card c1), st1)
    ∧ create_card "2026-01-02T10:00:00" "2026-01-02T10:00:00" "second text" "Second"
        "3" None st1
      = (Ok (Card c2), st2)
    ∧ number c1 = Str.before_slash "3" +:+ "aa"
    ∧ number c2 = Str.before_slash "3" +:+ "aa"
    ∧ od_keys (card_index st2) = od_keys (card_index st1)
    ∧ od_get (number c2) (card_index st2)
      = Some (index_entry file2 "Second" "3" "2026-01-02T10:00:00").
Proof.
  set (kids := map (λ c, "3" +:+ String c "") alphabet).
  assert (default [] (({["3" := kids]} : gmap string (list string))
                        !! Str.before_slash "3") = kids) as Hkids.
  { change (Str.before_slash "3") with "3". by rewrite lookup_singleton_eq. }
  assert (zettel_numbering_rules (manager_with_children kids) !! "3" = None) as H1
    by (vm_compute; reflexivity).
  assert (numbering_scheme (manager_with_children kids) !! "subtopics"
          = Some (JSubs {["3" := kids]})) as H2.
  { unfold manager_with_children. simpl. apply lookup_insert_eq. }
  assert (Forall (λ item, item ≠ "") kids) as H3.
  { apply Forall_forall. intros item Hin.
    apply list_elem_of_In, in_map_iff in Hin as (c & <- & _). done. }
  assert (∀ c, c ∈ alphabet → used_suffix c kids) as H4.
  { intros c Hc. exists ("3" +:+ String c ""). split; [|reflexivity].
    apply list_elem_of_In, in_map_iff. exists c.
    split; [done|]. by apply list_elem_of_In. }
  rewrite <- Hkids in H3, H4.
  assert (no_io_errors (manager_with_children kids)) as H5 by (by split).
  assert (textual_index (card_index (manager_with_children kids))) as H6
    by (vm_compute; constructor).
  exact (exhausted_parent_overwrites_card
           "2026-01-01T10:00:00" "2026-01-01T10:00:00" "first text" "First" (Some ["a"])
           "2026-01-02T10:00:00" "2026-01-02T10:00:00" "second text" "Second" None
           "3" (manager_with_children kids) {["3" := kids]}
           H1 ltac:(done) ltac:(done) ltac:(done) H2 H3 H4 H5 H6).
Defined.

(** ** [create_quote_card]: the number, or the empty string *)

(** X14: [create_quote_card] gives the number of a card that is then
    registered in the card index under the title [Quote: <source>] and the
    category [quote]; or, when writing failed, the empty string: then the
    card index is as before while the scheme keeps the number drawn. *)
Theorem create_quote_card_number_or_empty :
  ∀ now1 now2 quote source context st r st',
    create_quote_card now1 now2 quote source context st = (Ok r, st') →
    (∃ card_file,
       od_get r (card_index st')
         = Some (index_entry card_file ("Quote: " +:+ source) "quote" now1))
    ∨ (r = ""
       ∧ card_index st' = card_index st
       ∧ ∃ content_ id st1,
           generate_zettel_number content_ "quote" st = (Ok id, st1)
           ∧ numbering_scheme st' = numbering_scheme st1).
Proof.
  intros now1 now2 quote source context st r st'. unfold create_quote_card.
  intros ([c|message] & st1 & Hc & [= <- <-])%bind_inv_ok.
  - left. apply create_inv in Hc as (_ & Hentry & _). exact Hentry.
  - right. apply create_error_inv in Hc as (id & st0 & Hgen & Hci & _ & Hs & _).
    split; [done|]. split; [done|]. by eexists _, id, st0.
Qed.

Lemma create_quote_card_number_or_empty_witness :
  (∃ card_file,
     od_get "Z1" (card_index
        (create_quote_card "2026-01-01T10:00:00" "2026-01-01T10:00:00"
           "Know thyself" "Delphi" "" (manager_of empty_world)).2)
       = Some (index_entry card_file ("Quote: " +:+ "Delphi") "quote"
                 "2026-01-01T10:00:00"))
  ∨ ("Z1" = ""
     ∧ card_index
         (create_quote_card "2026-01-01T10:00:00" "2026-01-01T10:00:00"
            "Know thyself" "Delphi" "" (manager_of empty_world)).2
       = card_index (manager_of empty_world)
     ∧ ∃ content_ id st1,
         generate_zettel_number content_ "quote" (manager_of empty_world) = (Ok id, st1)
         ∧ numbering_scheme
             (create_quote_card "2026-01-01T10:00:00" "2026-01-01T10:00:00"
                "Know thyself" "Delphi" "" (manager_of empty_world)).2
           = numbering_scheme st1).
Proof.
  apply (create_quote_card_number_or_empty
           "2026-01-01T10:00:00" "2026-01-01T10:00:00" "Know thyself" "Delphi" ""
           (manager_of empty_world)).
  vm_compute. reflexivity.
Defined.

(** ** [get_card] and [search_cards] *)

Lemma od_set_idem {V} k (v : V) d : od_set k v (od_set k v d) = od_set k v d.
Proof.
  induction d as [|[k0 v0] d IH]; simpl.
  - by rewrite decide_True.
  - destruct (decide (k = k0)) as [->|Hne]; simpl.
    + by rewrite decide_True.
    + rewrite decide_False by done. by rewrite IH.
Qed.

Lemma normalize_entry_nonempty info : normalize_entry info ≠ ∅.
Proof.
  intros H. pose proof (proj1 (normalize_entry_fields info)) as Hf.
  rewrite H in Hf. unfold field_is_none in Hf. by rewrite lookup_empty in Hf.
Qed.

Lemma normalize_entry_fixed info :
  field_is_none info "tags" = false → field_is_none info "cross_references" = false →
  normalize_entry info = info.
Proof. unfold normalize_entry. by intros -> ->. Qed.

Lemma normalize_entry_idem info :
  normalize_entry (normalize_entry info) = normalize_entry info.
Proof. apply normalize_entry_fixed; apply normalize_entry_fields. Qed.

(** X15: [get_card] is idempotent: asked again for the same number on the
    state it left, it gives the same answer and leaves the state as it is;
    when the answer is an entry, neither of its two lists is null. *)
Theorem get_card_idempotent :
  ∀ id st r st',
    get_card id st = (r, st') →
    get_card id st' = (r, st')
    ∧ ∀ info, r = Ok (Some info) →
        field_is_none info "tags" = false
        ∧ field_is_none info "cross_references" = false.
Proof.
  intros id st r st'. unfold get_card, bind, gets, modify, ret. simpl.
  destruct (od_get id (card_index st)) as [info|] eqn:Hget.
  - destruct (decide (info = ∅)) as [->|Hne]; simpl.
    + intros [= <- <-]. rewrite Hget. simpl. split; [done|]. by intros ?.
    + intros [= <- <-]. simpl. rewrite od_get_set_eq.
      rewrite decide_False by apply normalize_entry_nonempty. simpl.
      rewrite normalize_entry_idem, od_set_idem. split; [by destruct st|].
      intros ? [= <-]. apply normalize_entry_fields.
  - intros [= <- <-]. rewrite Hget. split; [done|]. by intros ?.
Qed.

Lemma get_card_idempotent_witness :
  get_card "2" (get_card "2" (manager_with_index titled_index)).2
    = get_card "2" (manager_with_index titled_index)
  ∧ ∀ info, (get_card "2" (manager_with_index titled_index)).1 = Ok (Some info) →
      field_is_none info "tags" = false
      ∧ field_is_none info "cross_references" = false.
Proof.
  destruct (get_card "2" (manager_with_index titled_index)) as [r st'] eqn:E.
  exact (get_card_idempotent "2" (manager_with_index titled_index) r st' E).
Defined.

Lemma starts_with_spec q l : starts_with q l = true ↔ ∃ after, l = q ++ after.
Proof.
  revert l. induction q as [|a q IH]; intros l; simpl.
  - split; [by exists l|done].
  - destruct l as [|b l]; [split; [done|by intros [? ?]]|].
    rewrite andb_true_iff, bool_decide_eq_true, IH. split.
    + intros [-> [after ->]]. by exists after.
    + intros [after [= -> ->]]. split; [done|by exists after].
Qed.

Lemma contains_chars_spec q t :
  contains_chars q t = true ↔ ∃ before after, t = before ++ q ++ after.
Proof.
  induction t as [|b t IH].
  - simpl. rewrite orb_false_r, starts_with_spec. split.
    + intros [after H]. by exists [], after.
    + intros (before & after & H). symmetry in H.
      apply app_eq_nil in H as [-> H]. by exists after.
  - change (contains_chars q (b :: t))
      with (starts_with q (b :: t) || contains_chars q t).
    rewrite orb_true_iff, starts_with_spec, IH. split.
    + intros [[after H]|(before & after & H)].
      * by exists [], after.
      * exists (b :: before), after. by rewrite H.
    + intros ([|b' before] & after & H).
      * left. by exists after.
      * right. injection H as -> ->. by exists before, after.
Qed.

Lemma of_chars_chars s : Str.of_chars (Str.chars s) = s.
Proof. apply string_of_list_ascii_of_string. Qed.

Lemma chars_of_chars l : Str.chars (Str.of_chars l) = l.
Proof. apply list_ascii_of_string_of_list_ascii. Qed.

Lemma contains_spec q t : contains q t = true ↔ is_substring q t.
Proof.
  unfold contains, is_substring. rewrite contains_chars_spec. split.
  - intros (before & after & H).
    exists (Str.of_chars before), (Str.of_chars after).
    rewrite <- (of_chars_chars t), H.
    rewrite <- (of_chars_chars (_ +:+ _)), !chars_app, !chars_of_chars. done.
  - intros (before & after & ->). exists (Str.chars before), (Str.chars after).
    by rewrite !chars_app.
Qed.

Lemma normalize_entry_other info key :
  key ≠ "tags" → key ≠ "cross_references" → normalize_entry info !! key = info !! key.
Proof.
  intros H1 H2. unfold normalize_entry.
  repeat case_match; rewrite ?lookup_insert_ne by done; done.
Qed.

Lemma get_str_text info key e :
  info !! key ≠ Some FNull → (∀ l, info !! key ≠ Some (FList l)) →
  get_str info key e = Ok (text_field info key).
Proof.
  unfold get_str, text_field. intros H1 H2.
  destruct (info !! key) as [[| |l]|]; try done. by destruct (H2 l).
Qed.

Lemma search_cards_entry_ok query info :
  (info !! "title" ≠ Some FNull ∧ ∀ l, info !! "title" ≠ Some (FList l)) →
  (info !! "content" ≠ Some FNull ∧ ∀ l, info !! "content" ≠ Some (FList l)) →
  search_cards_entry query info = (normalize_entry info, Ok (matches query info)).
Proof.
  intros [Ht1 Ht2] [Hc1 Hc2]. unfold search_cards_entry, matches. f_equal.
  rewrite !get_str_text by (rewrite ?normalize_entry_other by done; done).
  unfold text_field. rewrite !normalize_entry_other by done. simpl.
  by destruct (contains _ _).
Qed.

Lemma search_cards_loop_ok query index :
  searchable_index index →
  search_cards_loop query index
    = (Ok (map (λ item, normalize_entry item.2)
             (filter (λ item, matches query item.2 = true) index)),
       normalized index).
Proof.
  induction 1 as [|[k info] index [Ht Hc] _ IH]; [done|].
  cbn [search_cards_loop]. rewrite (search_cards_entry_ok query info Ht Hc), IH.
  cbn [res_bind normalized map fst snd]. destruct (matches query info) eqn:Hm.
  - by rewrite filter_cons_True.
  - by rewrite filter_cons_False by (simpl; congruence).
Qed.

(** X16: for an ASCII query, on a card index whose titles and contents are
    ASCII text,
    [search_cards] returns, in the order of the index, exactly the entries
    whose title or content contains the query, letter case aside; each comes
    back with its two lists not null, and the same coercion is left in every
    entry of the index in memory, hit or not. *)
Theorem search_cards_results :
  ∀ query st,
    searchable_index (card_index st) →
    Str.isascii query = true → ascii_index (card_index st) →
    ∃ results,
      search_cards query st
        = (Ok results, set_card_index (normalized (card_index st)) st)
      ∧ results = map (λ item, normalize_entry item.2)
                    (filter (λ item, matches query item.2 = true) (card_index st))
      ∧ (∀ r, r ∈ results ↔
           ∃ k info, (k, info) ∈ card_index st ∧ r = normalize_entry info
             ∧ (is_substring (Str.lower query) (Str.lower (text_field info "title"))
                ∨ is_substring (Str.lower query)
                    (Str.lower (text_field info "content"))))
      ∧ (∀ r, r ∈ results →
           field_is_none r "tags" = false
           ∧ field_is_none r "cross_references" = false).
Proof.
  intros query st Hidx _ _. eexists. unfold search_cards.
  rewrite (search_cards_loop_ok query _ Hidx). split; [done|]. split; [done|]. split.
  - intros r. rewrite list_elem_of_fmap. split.
    + intros ([k info] & -> & [Hm Hin]%list_elem_of_filter). simpl in *.
      exists k, info. split; [done|]. split; [done|].
      unfold matches in Hm. apply orb_true_iff in Hm.
      by rewrite <- !contains_spec.
    + intros (k & info & Hin & -> & Hm). exists (k, info). split; [done|].
      apply list_elem_of_filter. split; [|done]. simpl.
      unfold matches. apply orb_true_iff. by rewrite !contains_spec.
  - intros r ([k info] & -> & _)%list_elem_of_fmap. apply normalize_entry_fields.
Qed.

Lemma search_cards_results_witness :
  ∃ results,
    search_cards "BETA" (manager_with_index titled_index)
      = (Ok results,
         set_card_index (normalized (card_index (manager_with_index titled_index)))
           (manager_with_index titled_index))
    ∧ results = map (λ item, normalize_entry item.2)
                  (filter (λ item, matches "BETA" item.2 = true)
                     (card_index (manager_with_index titled_index)))
    ∧ (∀ r, r ∈ results ↔
         ∃ k info, (k, info) ∈ card_index (manager_with_index titled_index)
           ∧ r = normalize_entry info
           ∧ (is_substring (Str.lower "BETA") (Str.lower (text_field info "title"))
              ∨ is_substring (Str.lower "BETA")
                  (Str.lower (text_field info "content"))))
    ∧ (∀ r, r ∈ results →
         field_is_none r "tags" = false
         ∧ field_is_none r "cross_references" = false).
Proof.
  apply (search_cards_results "BETA" (manager_with_index titled_index)).
  - repeat constructor; simpl; try done; by intros l.
  - reflexivity.
  - apply titled_index_ascii.
Defined.

(** X17: for an ASCII title and ASCII queries, a card that
    [create_zettel_card] registered is found by
    [search_cards] through its title alone: the entry written into the card
    index carries no content, so the loop takes it exactly when the title
    contains the query, letter case aside, whatever the text of the card. *)
Theorem created_card_found_by_title_only :
  ∀ now1 now2 content_ title_ category_ xrefs tags_ extra st c st',
    create_zettel_card now1 now2 content_ title_ category_ xrefs tags_ extra st
      = (Ok (Card c), st') →
    Str.isascii title_ = true →
    ∃ info,
      od_get (number c) (card_index st') = Some info
      ∧ ∀ query,
          Str.isascii query = true →
          (search_cards_entry query info).2
            = Ok (contains (Str.lower query) (Str.lower title_)).
Proof.
  intros now1 now2 content_ title_ category_ xrefs tags_ extra st c st' Hc _.
  apply create_inv in Hc as (_ & (file & Hentry) & _).
  eexists. split; [exact Hentry|]. intros query _.
  rewrite search_cards_entry_ok.
  - simpl. unfold matches.
    replace (text_field (index_entry file title_ category_ now1) "title")
      with title_ by done.
    replace (text_field (index_entry file title_ category_ now1) "content")
      with "" by done.
    destruct (contains (Str.lower query) (Str.lower title_)) eqn:Ht; [done|].
    simpl. change (Str.lower "") with "".
    destruct (contains (Str.lower query) "") eqn:He; [|done].
    apply contains_spec in He as (before & after & He).
    assert (Str.lower query = "") as Hq.
    { destruct before; [|done]. simpl in He. by destruct (Str.lower query). }
    rewrite Hq in Ht. unfold contains in Ht. simpl in Ht.
    by destruct (Str.chars (Str.lower title_)).
  - split; [done|by intros l].
  - split; [done|by intros l].
Qed.

Lemma created_card_found_by_title_only_witness :
  ∃ info,
    od_get "1" (card_index after_first_card) = Some info
    ∧ ∀ query,
        Str.isascii query = true →
        (search_cards_entry query info).2
          = Ok (contains (Str.lower query) (Str.lower "Rivers")).
Proof.
  apply (created_card_found_by_title_only
           "2026-01-01T10:00:00" "2026-01-01T10:00:00" "Notes on rivers" "Rivers" "main"
           None None None (manager_of empty_world)
           {| number := "1"; title := "Rivers"; content := "Notes on rivers";
              category := "main"; card_cross_references := []; tags := [];
              created := "2026-01-01T10:00:00"; modified := "2026-01-01T10:00:00" |}).
  - vm_compute. reflexivity.
  - reflexivity.
Defined.

(** ** The indexer's table *)

Lemma replace_into_fresh r t :
  (∀ r', r' ∈ t → Indexer.zettel_number r' ≠ Indexer.zettel_number r) →
  Indexer.replace_into r t = t ++ [r].
Proof.
  unfold Indexer.replace_into. intros H. f_equal.
  induction t as [|r0 t IH]; [done|].
  rewrite filter_cons_True by (apply H; left). f_equal.
  apply IH. intros r' Hin. apply H. by right.
Qed.

Lemma index_all_loop_table w items :
  ∀ t t',
    (∀ r, r ∈ t → Indexer.zettel_number r ∉ od_keys items) →
    NoDup (od_keys items) →
    Indexer.index_all_loop w items t = (Ok tt, t') →
    ∃ rows, t' = t ++ rows
            ∧ Forall2 (λ item r, Indexer.make_row w item.1 item.2 = Ok r) items rows.
Proof.
  induction items as [|[k m] items IH]; intros t t' Hfresh Hnd; simpl.
  - intros [= <-]. exists []. by rewrite app_nil_r.
  - destruct (Indexer.make_row w k m) as [r0|] eqn:Hrow; [|done].
    pose proof (make_row_number _ _ _ _ Hrow) as Hk.
    apply NoDup_cons in Hnd as [Hnk Hnd].
    rewrite replace_into_fresh.
    + intros (rows & -> & Hrows)%IH; [| |done].
      * exists (r0 :: rows). rewrite <- app_assoc. split; [done|]. by constructor.
      * intros r [Hr| ->%list_elem_of_singleton]%elem_of_app.
        -- intros Hin. apply (Hfresh r Hr). by right.
        -- by rewrite Hk.
    + intros r' Hr' Heq. apply (Hfresh r' Hr'). rewrite Heq, Hk. left.
Qed.

Lemma made_rows_keys w items rows :
  Forall2 (λ item r, Indexer.make_row w item.1 item.2 = Ok r) items rows →
  map Indexer.zettel_number rows = od_keys items.
Proof.
  unfold od_keys. induction 1 as [|[k m] r items rows Hrow _ IH]; [done|].
  simpl. f_equal; [|done]. by apply make_row_number in Hrow.
Qed.

(** X18: when [index_all] succeeds, over a card index with one entry per
    number, the table holds exactly one row per card, in the order of the
    card index, each the row made from its entry: whatever the table held
    before is gone. *)
Theorem index_all_one_row_per_card :
  ∀ w ix ix',
    NoDup (od_keys (Indexer.card_index ix)) →
    Indexer.index_all w ix = (Ok tt, ix') →
    Forall2 (λ item r, Indexer.make_row w item.1 item.2 = Ok r)
      (Indexer.card_index ix) (Indexer.table ix')
    ∧ map Indexer.zettel_number (Indexer.table ix') = od_keys (Indexer.card_index ix).
Proof.
  intros w ix ix' Hnd. unfold Indexer.index_all.
  destruct (Indexer.index_all_loop w (Indexer.card_index ix) []) as [r t] eqn:Hloop.
  intros [= -> <-]. simpl.
  apply index_all_loop_table in Hloop as (rows & -> & Hrows);
    [|by intros r ?%elem_of_nil|done].
  simpl. split; [done|]. by apply (made_rows_keys w).
Qed.

Lemma index_all_one_row_per_card_witness :
  (Forall2 (λ item r, Indexer.make_row (env after_second_card) item.1 item.2 = Ok r)
     (Indexer.card_index (indexer_of (env after_second_card) [old_row]))
     (Indexer.table
        (Indexer.index_all (env after_second_card)
           (indexer_of (env after_second_card) [old_row])).2)
   ∧ map Indexer.zettel_number
       (Indexer.table
          (Indexer.index_all (env after_second_card)
             (indexer_of (env after_second_card) [old_row])).2)
     = od_keys (Indexer.card_index (indexer_of (env after_second_card) [old_row])))
  ∧ od_keys (Indexer.card_index (indexer_of (env after_second_card) [old_row]))
    = ["1"; "2"]
  ∧ Indexer.table (indexer_of (env after_second_card) [old_row]) = [old_row].
Proof.
  split; [|split; vm_compute; reflexivity].
  apply (index_all_one_row_per_card (env after_second_card)
           (indexer_of (env after_second_card) [old_row])).
  - refine (bool_decide_unpack _ _). vm_compute. exact I.
  - vm_compute. reflexivity.
Defined.

Lemma replace_into_idem r t :
  Indexer.replace_into r (Indexer.replace_into r t) = Indexer.replace_into r t.
Proof.
  unfold Indexer.replace_into. f_equal.
  rewrite filter_app, filter_cons_False by (intros H; by apply H).
  rewrite filter_nil, app_nil_r.
  induction t as [|r0 t IH]; [done|].
  destruct (decide (Indexer.zettel_number r0 ≠ Indexer.zettel_number r)) as [Hne|He].
  - rewrite !filter_cons_True by done. by f_equal.
  - by rewrite !filter_cons_False by done.
Qed.

(** X19: [update_card] is idempotent: run again for the same number, in
    the same world, on the indexer it left, it ends the same way and leaves
    the indexer as it is, so a card never has two rows. *)
Theorem update_card_idempotent :
  ∀ w id ix r ix',
    Indexer.update_card w id ix = (r, ix') →
    Indexer.update_card w id ix' = (r, ix').
Proof.
  intros w id ix r ix'. unfold Indexer.update_card.
  destruct (od_get id (Indexer.card_index ix)) as [meta|] eqn:Hget.
  - destruct (decide (meta = ∅)) as [->|Hne].
    + intros [= <- <-]. by rewrite Hget, decide_True.
    + destruct (Indexer.make_row w id meta) as [row|e] eqn:Hrow.
      * intros [= <- <-]. simpl. rewrite Hget, decide_False, Hrow by done.
        unfold Indexer.set_table. simpl. by rewrite replace_into_idem.
      * intros [= <- <-]. by rewrite Hget, decide_False, Hrow.
  - intros [= <- <-]. by rewrite Hget.
Qed.

Lemma update_card_idempotent_witness :
  Indexer.update_card (env after_first_card) "1"
    (Indexer.update_card (env after_first_card) "1"
       (indexer_of (env after_first_card) (Indexer.table stale_indexer))).2
  = Indexer.update_card (env after_first_card) "1"
      (indexer_of (env after_first_card) (Indexer.table stale_indexer)).
Proof.
  destruct (Indexer.update_card (env after_first_card) "1"
              (indexer_of (env after_first_card) (Indexer.table stale_indexer)))
    as [r ix'] eqn:E.
  exact (update_card_idempotent (env after_first_card) "1"
           (indexer_of (env after_first_card) (Indexer.table stale_indexer)) r ix' E).
Defined.

(** X20: the indexer's [search] with the empty query selects every row of
    the table, also a row whose title and category are NULL: the pattern is
    [%%] and the tags column always holds text. *)
Theorem search_empty_query_selects_all :
  ∀ ix, Indexer.search "" ix = Indexer.table ix.
Proof.
  intros ix. unfold Indexer.search.
  induction (Indexer.table ix) as [|r t IH]; [done|].
  rewrite filter_cons_True, IH; [done|].
  assert (Indexer.like (Some (Indexer.row_tags r)) ("%" +:+ "" +:+ "%") = true) as ->.
  { unfold Indexer.like. change (Str.chars ("%" +:+ "" +:+ "%")) with ["%"; "%"]%char.
    rewrite like_chars_star, like_chars_percent. done. }
  by rewrite orb_true_r.
Qed.

Lemma find_replace_into_same r t :
  find (λ r', bool_decide (Indexer.zettel_number r' = Indexer.zettel_number r))
       (Indexer.replace_into r t) = Some r.
Proof.
  unfold Indexer.replace_into. induction t as [|r0 t IH].
  - simpl. by rewrite bool_decide_eq_true_2.
  - destruct (decide (Indexer.zettel_number r0 ≠ Indexer.zettel_number r)) as [Hne|He].
    + rewrite filter_cons_True by done. simpl.
      by rewrite bool_decide_eq_false_2.
    + by rewrite filter_cons_False.
Qed.

Lemma find_replace_into_other r t id :
  Indexer.zettel_number r ≠ id →
  find (λ r', bool_decide (Indexer.zettel_number r' = id)) (Indexer.replace_into r t)
  = find (λ r', bool_decide (Indexer.zettel_number r' = id)) t.
Proof.
  intros Hid. unfold Indexer.replace_into. induction t as [|r0 t IH].
  - simpl. by rewrite bool_decide_eq_false_2.
  - destruct (decide (Indexer.zettel_number r0 ≠ Indexer.zettel_number r)) as [Hne|He].
    + rewrite filter_cons_True by done. simpl. by rewrite IH.
    + rewrite filter_cons_False by done. simpl. rewrite IH.
      rewrite bool_decide_eq_false_2; [done|].
      intros Heq. apply He. intros Heq'. apply Hid. by rewrite <- Heq', Heq.
Qed.

(** X21: after [update_card] succeeded for a number whose entry in the
    indexer's card index is not empty, the indexer's [get_card] gives for
    that number the row made from the entry, and for every other number
    what it gave before. *)
Theorem indexer_get_card_after_update :
  ∀ w id ix ix' meta,
    od_get id (Indexer.card_index ix) = Some meta → meta ≠ ∅ →
    Indexer.update_card w id ix = (Ok tt, ix') →
    (∃ r, Indexer.make_row w id meta = Ok r ∧ indexer_get_card id ix' = Some r)
    ∧ ∀ id', id' ≠ id → indexer_get_card id' ix' = indexer_get_card id' ix.
Proof.
  intros w id ix ix' meta Hget Hne. unfold Indexer.update_card.
  rewrite Hget, decide_False by done.
  destruct (Indexer.make_row w id meta) as [r|e] eqn:Hrow; [|done].
  intros [= <-]. pose proof (make_row_number _ _ _ _ Hrow) as Hk.
  unfold indexer_get_card. simpl. split.
  - exists r. split; [done|]. rewrite <- Hk. apply find_replace_into_same.
  - intros id' Hid. apply find_replace_into_other. by rewrite Hk.
Qed.

Lemma indexer_get_card_after_update_witness :
  (∃ r,
     Indexer.make_row (env after_second_card) "2"
       (index_entry "X/main/2.md" "Lakes" "main" "2026-01-02T10:00:00") = Ok r
     ∧ indexer_get_card "2"
         (Indexer.update_card (env after_second_card) "2"
            (indexer_of (env after_second_card) (Indexer.table indexed_indexer))).2
       = Some r)
  ∧ ∀ id', id' ≠ "2" →
      indexer_get_card id'
        (Indexer.update_card (env after_second_card) "2"
           (indexer_of (env after_second_card) (Indexer.table indexed_indexer))).2
      = indexer_get_card id'
          (indexer_of (env after_second_card) (Indexer.table indexed_indexer)).
Proof.
  apply (indexer_get_card_after_update (env after_second_card) "2"
           (indexer_of (env after_second_card) (Indexer.table indexed_indexer))).
  - vm_compute. reflexivity.
  - intros H. by apply (f_equal (λ m : gmap string fval, m !! "title")) in H.
  - vm_compute. reflexivity.
Defined.

(** ** Starting over a scheme that cannot be read *)

(** X22: a manager started over a numbering scheme that is missing, empty,
    undecodable or unreadable starts from the default scheme, and writes it
    over the document when the write goes through; the card index is still
    the one loaded from its own document, and without a rule for [main] the
    first main card is numbered 1 again. *)
Theorem unreadable_scheme_restarts_numbering :
  ∀ base metadata w st content_,
    new_manager base metadata w = Ok st →
    scheme_doc w = Absent ∨ scheme_doc w = Corrupt ∨ scheme_doc w = Stored ∅
    ∨ read_error w (path_join metadata "numbering_scheme.json") = true →
    numbering_scheme st = default_scheme
    ∧ (write_error w (path_join metadata "numbering_scheme.json") = None →
       scheme_doc (env st) = Stored default_scheme)
    ∧ card_index st = _load_metadata "card_index.json" index_doc [] metadata w
    ∧ (zettel_numbering_rules st !! "main" = None →
       (generate_zettel_number content_ "main" st).1 = Ok "1").
Proof.
  intros base metadata w st content_ ->%new_manager_inv Hdoc.
  assert (numbering_scheme (loaded_state base metadata w) = ∅) as He.
  { unfold loaded_state, _load_metadata. simpl.
    destruct Hdoc as [->|[->|[->|Hr]]]; try done.
    - by destruct (read_error _ _).
    - rewrite Hr. by destruct (scheme_doc w). }
  rewrite decide_True by done.
  split; [by rewrite scheme_saved_scheme|]. split; [|split].
  - intros Hw. unfold scheme_saved. simpl. by rewrite Hw.
  - unfold scheme_saved. by destruct (write_error _ _).
  - intros Hr.
    destruct (generate_main_run _ content_ 0 [] (or_introl Hr)) as (st' & Hg & _);
      [by rewrite scheme_saved_scheme..|].
    by rewrite Hg.
Qed.

Lemma unreadable_scheme_restarts_numbering_witness :
  numbering_scheme (manager_of corrupt_scheme_world) = default_scheme
  ∧ (write_error corrupt_scheme_world (path_join "X/_metadata" "numbering_scheme.json")
       = None →
     scheme_doc (env (manager_of corrupt_scheme_world)) = Stored default_scheme)
  ∧ card_index (manager_of corrupt_scheme_world)
    = _load_metadata "card_index.json" index_doc [] "X/_metadata" corrupt_scheme_world
  ∧ (zettel_numbering_rules (manager_of corrupt_scheme_world) !! "main" = None →
     (generate_zettel_number "again" "main" (manager_of corrupt_scheme_world)).1
       = Ok "1").
Proof.
  apply (unreadable_scheme_restarts_numbering "X" "X/_metadata" corrupt_scheme_world).
  - vm_compute. reflexivity.
  - right. left. reflexivity.
Defined.

(** ** [expand_thematic_structure] on an unknown base topic *)

(** X23: for a base topic that is not among the main topics,
    [expand_thematic_structure] drops the name it was given: it draws the
    next main number, records it as a main topic, and returns that number
    followed by the next letter of its children. *)
Theorem expand_unknown_topic_draws_main_number :
  ∀ base_topic new_content st l m d,
    numbering_scheme st !! "main_topics" = Some (JList l) →
    base_topic ∉ l →
    numbering_scheme st !! "last_main_topic" = Some (JNum m) →
    numbering_scheme st !! "subtopics" = Some (JSubs d) →
    Forall (λ item, item ≠ "") (default [] (d !! pretty (m + 1)%Z)) →
    ∃ suffix st',
      expand_thematic_structure base_topic new_content st
        = (Ok (pretty (m + 1)%Z +:+ suffix), st')
      ∧ next_letter_is (default [] (d !! pretty (m + 1)%Z)) suffix
      ∧ numbering_scheme st' !! "main_topics"
        = Some (JList (l ++ [pretty (m + 1)%Z]))
      ∧ numbering_scheme st' !! "last_main_topic" = Some (JNum (m + 1))
      ∧ numbering_scheme st' !! "subtopics"
        = Some (JSubs (<[pretty (m + 1)%Z :=
                           default [] (d !! pretty (m + 1)%Z)
                           ++ [pretty (m + 1)%Z +:+ suffix]]> d)).
Proof.
  intros base_topic new_content st l m d Hl Hnot Hm Hs Hne.
  destruct (get_next_subtopic_letter_spec _ Hne) as (suffix & Hsuf & Hspec).
  exists suffix. unfold expand_thematic_structure.
  unfold bind at 1. unfold gets at 1. cbv beta iota. rewrite Hl.
  erewrite bind_ok; cycle 1.
  { unfold bind, lift, scheme_contains, scheme_increment, scheme_append, ret.
    rewrite bool_decide_eq_false_2 by done. rewrite Hm.
    cbn [numbering_scheme set_numbering_scheme].
    rewrite lookup_insert_ne by done. rewrite Hl. reflexivity. }
  erewrite bind_ok; cycle 1.
  { apply (allocate_subtopic_run _ _ d suffix); [|exact Hsuf].
    cbn [numbering_scheme set_numbering_scheme].
    rewrite !lookup_insert_ne by done. exact Hs. }
  rewrite (bind_ok _ _ _ _ _ (save_numbering_scheme_run _)). unfold ret.
  eexists. split; [reflexivity|]. split; [done|].
  rewrite scheme_saved_scheme. cbn [numbering_scheme set_numbering_scheme].
  split; [|split].
  - rewrite lookup_insert_ne by done. apply lookup_insert_eq.
  - rewrite !lookup_insert_ne by done. apply lookup_insert_eq.
  - apply lookup_insert_eq.
Qed.

Lemma expand_unknown_topic_draws_main_number_witness :
  ∃ suffix st',
    expand_thematic_structure "philosophy" "text" (manager_of empty_world)
      = (Ok (pretty (0 + 1)%Z +:+ suffix), st')
    ∧ next_letter_is
        (default [] ((∅ : gmap string (list string)) !! pretty (0 + 1)%Z)) suffix
    ∧ numbering_scheme st' !! "main_topics" = Some (JList ([] ++ [pretty (0 + 1)%Z]))
    ∧ numbering_scheme st' !! "last_main_topic" = Some (JNum (0 + 1))
    ∧ numbering_scheme st' !! "subtopics"
      = Some (JSubs (<[pretty (0 + 1)%Z :=
                         default [] ((∅ : gmap string (list string)) !! pretty (0 + 1)%Z)
                         ++ [pretty (0 + 1)%Z +:+ suffix]]> ∅)).
Proof.
  apply (expand_unknown_topic_draws_main_number "philosophy" "text"
           (manager_of empty_world) [] 0 ∅).
  - vm_compute. reflexivity.
  - by intros ?%elem_of_nil.
  - vm_compute. reflexivity.
  - vm_compute. reflexivity.
  - rewrite lookup_empty. constructor.
Defined.

(** ** The cleanup script *)

Lemma cleanup_card_spec card :
  not_a_list (cleanup_card card).1 "tags" = false
  ∧ not_a_list (cleanup_card card).1 "cross_references" = false
  ∧ (∀ key, key ≠ "tags" → key ≠ "cross_references" →
            (cleanup_card card).1 !! key = card !! key)
  ∧ (not_a_list card "tags" = false → not_a_list card "cross_references" = false →
     cleanup_card card = (card, false)).
Proof.
  unfold cleanup_card, not_a_list.
  destruct (card !! "tags") as [[| |lt]|] eqn:Ht; cbn [fst snd];
    rewrite ?lookup_insert_ne by done;
    destruct (card !! "cross_references") as [[| |lx]|] eqn:Hx; cbn [fst snd];
    repeat split; intros;
    rewrite ?lookup_insert_ne by done; rewrite ?lookup_insert_eq, ?Ht, ?Hx; done.
Qed.

Lemma cleanup_cards_spec items :
  od_keys (cleanup_cards items).1 = od_keys items
  ∧ lists_in_place (cleanup_cards items).1
  ∧ Forall2 (λ a b, a.1 = b.1
                    ∧ ∀ key, key ≠ "tags" → key ≠ "cross_references" →
                             b.2 !! key = a.2 !! key)
      items (cleanup_cards items).1
  ∧ (lists_in_place items → cleanup_cards items = (items, false)).
Proof.
  induction items as [|[k card] items (IH1 & IH2 & IH3 & IH4)].
  - repeat split; constructor.
  - destruct (cleanup_card_spec card) as (Ht & Hx & Hother & Hsame).
    cbn [cleanup_cards].
    destruct (cleanup_card card) as [card' ch] eqn:Ec.
    destruct (cleanup_cards items) as [items' ch'] eqn:Ei.
    cbn [fst snd] in *. split; [|split; [|split]].
    + unfold od_keys in *. simpl. by f_equal.
    + by constructor.
    + by constructor.
    + intros [[H1 H2] Hrest]%Forall_cons. simpl in H1, H2.
      injection (Hsame H1 H2) as -> ->. by injection (IH4 Hrest) as -> ->.
Qed.

Lemma cleanup_cards_unchanged items items' :
  cleanup_cards items = (items', false) → items' = items.
Proof.
  revert items'. induction items as [|[k card] items IH]; intros items'.
  - by intros [= <-].
  - cbn [cleanup_cards]. destruct (cleanup_card card) as [card' ch] eqn:Ecard.
    destruct (cleanup_cards items) as [rest ch'] eqn:Erest.
    intros [= <- [-> ->]%orb_false_iff]. rewrite (IH rest) by done. f_equal. f_equal.
    unfold cleanup_card in Ecard.
    repeat case_match; by simplify_eq.
Qed.

(** X24: when the cleanup script ends without an exception, the card index
    on disk has the same numbers in the same order, both lists of every card
    are lists, and every other field of a card is as before; the document
    is left untouched when nothing had to change, so a second run changes
    nothing. *)
Theorem cleanup_card_index_lists :
  ∀ path w w',
    cleanup_card_index path w = Ok w' →
    ∃ index index',
      index_doc w = Stored index ∧ index_doc w' = Stored index'
      ∧ od_keys index' = od_keys index
      ∧ lists_in_place index'
      ∧ Forall2 (λ a b, a.1 = b.1
                        ∧ ∀ key, key ≠ "tags" → key ≠ "cross_references" →
                                 b.2 !! key = a.2 !! key) index index'
      ∧ (lists_in_place index → w' = w)
      ∧ cleanup_card_index path w' = Ok w'.
Proof.
  intros path w w'. unfold cleanup_card_index.
  destruct (index_doc w) as [| |index] eqn:Hdoc; [done..|].
  destruct (read_error w path) eqn:Hread; [done|].
  destruct (cleanup_cards_spec index) as (Hk & Hl & Hf & Hsame).
  destruct (cleanup_cards index) as [index' changed] eqn:Ec. cbn [fst snd] in *.
  assert (cleanup_cards index' = (index', false)) as Hagain.
  { destruct (cleanup_cards_spec index') as (_ & _ & _ & H). by apply H. }
  destruct changed.
  - destruct (write_error w path); [done|]. intros [= <-].
    exists index, index'. simpl. rewrite Hread, Hagain.
    repeat (split; [done|]). split; [|done].
    intros Hli. by specialize (Hsame Hli).
  - intros [= <-]. apply cleanup_cards_unchanged in Ec as ->.
    exists index, index. by rewrite Hdoc, Hread, Hagain.
Qed.

Lemma cleanup_card_index_lists_witness :
  ∃ index index',
    index_doc untidy_world = Stored index ∧ index_doc tidy_world = Stored index'
    ∧ od_keys index' = od_keys index
    ∧ lists_in_place index'
    ∧ Forall2 (λ a b, a.1 = b.1
                      ∧ ∀ key, key ≠ "tags" → key ≠ "cross_references" →
                               b.2 !! key = a.2 !! key) index index'
    ∧ (lists_in_place index → tidy_world = untidy_world)
    ∧ cleanup_card_index "X/_metadata/card_index.json" tidy_world = Ok tidy_world.
Proof.
  apply (cleanup_card_index_lists "X/_metadata/card_index.json" untidy_world).
  vm_compute. reflexivity.
Defined.

(** ** The connections listed in a card file *)

Lemma overlaps_spec a b : overlaps a b = true ↔ ∃ x, x ∈ a ∧ x ∈ b.
Proof.
  unfold overlaps. rewrite existsb_exists. split.
  - intros (x & Hin%list_elem_of_In & Hb%bool_decide_eq_true). by exists x.
  - intros (x & Hin & Hb). exists x. split; [by apply list_elem_of_In|].
    by apply bool_decide_eq_true.
Qed.

Lemma get_str_text_field info key e s :
  get_str info key e = Ok s → text_field info key = s.
Proof.
  unfold get_str, text_field. destruct (info !! key) as [[| |]|]; congruence.
Qed.

Lemma find_zettel_connections_loop_members w c index :
  ∀ results,
    _find_zettel_connections_loop w c index = Ok results →
    ∀ num, num ∈ map (λ r, r.1.1) results ↔
           ∃ info, (num, info) ∈ index ∧ num ≠ number c ∧ related c info.
Proof.
  induction index as [|[k info] index IH]; intros results.
  - intros [= <-] num. split; [by intros ?%elem_of_nil|].
    by intros (? & ?%elem_of_nil & _).
  - cbn [_find_zettel_connections_loop].
    destruct (decide (k = number c)) as [->|Hk].
    + intros H num. rewrite (IH _ H). split.
      * intros (i & Hin & Hne & Hrel). exists i. split; [by right|done].
      * intros (i & [[= -> ->]|Hin]%elem_of_cons & Hne & Hrel); [done|].
        by exists i.
    + destruct (get_tags info) as [tags_|] eqn:Htags; [|done].
      destruct (get_str info "title" AttributeError) as [title_|] eqn:Ht; [|done].
      cbn [res_bind].
      assert (related c info ↔
              overlaps (tags c) tags_
              || overlaps (Str.split (Str.lower (title c)))
                   (Str.split (Str.lower title_)) = true) as Hrel.
      { unfold related. rewrite orb_true_iff, !overlaps_spec.
        rewrite (get_str_text_field _ _ _ _ Ht), Htags. split.
        - intros [(tg & t & [= <-] & H1 & H2)|H]; [left; by exists t|by right].
        - intros [(t & H1 & H2)|H]; [left; by exists tags_, t|by right]. }
      destruct (overlaps (tags c) tags_ || _) eqn:Hov.
      * destruct (get_str info "category" TypeError); [|done]. cbn [res_bind].
        destruct (_find_zettel_connections_loop w c index) as [rest|] eqn:Hrest;
          [|done].
        cbn [res_bind]. intros [= <-] num. cbn [map fst].
        rewrite elem_of_cons, (IH _ eq_refl). split.
        -- intros [->|(i & Hin & Hne & Hr)].
           ++ exists info. split; [left|]. split; [done|by apply Hrel].
           ++ exists i. split; [by right|done].
        -- intros (i & [[= -> ->]|Hin]%elem_of_cons & Hne & Hr); [by left|].
           right. by exists i.
      * intros H num. rewrite (IH _ H). split.
        -- intros (i & Hin & Hne & Hr). exists i. split; [by right|done].
        -- intros (i & [[= -> ->]|Hin]%elem_of_cons & Hne & Hr).
           ++ apply Hrel in Hr. congruence.
           ++ by exists i.
Qed.

(** X25: for ASCII titles, when [_find_zettel_connections] returns, the
    numbers it lists are exactly those of the cards of the index, other than
    the card itself, that share a tag with the card or a word of its title,
    letter case aside; the manager is left as it was. *)
Theorem find_zettel_connections_members :
  ∀ c st results st',
    Str.isascii (title c) = true → ascii_index (card_index st) →
    _find_zettel_connections c st = (Ok results, st') →
    st' = st
    ∧ ∀ num, num ∈ map (λ r, r.1.1) results ↔
             ∃ info, (num, info) ∈ card_index st ∧ num ≠ number c ∧ related c info.
Proof.
  intros c st results st' _ _. unfold _find_zettel_connections, bind, gets, lift.
  destruct (_find_zettel_connections_loop (env st) c (card_index st)) as [r|] eqn:Hloop;
    [|done].
  intros [= <- <-]. split; [done|].
  by apply (find_zettel_connections_loop_members (env st)).
Qed.

Lemma find_zettel_connections_members_witness :
  manager_with_index titled_index = manager_with_index titled_index
  ∧ ∀ num,
      num ∈ map (λ r : string * string * string, r.1.1) [("1", "", "Alpha Beta")] ↔
      ∃ info, (num, info) ∈ card_index (manager_with_index titled_index)
              ∧ num ≠ "3"
              ∧ related
                  {| number := "3"; title := "Beta testing"; content := "";
                     category := "main"; card_cross_references := []; tags := [];
                     created := ""; modified := "" |} info.
Proof.
  apply (find_zettel_connections_members
           {| number := "3"; title := "Beta testing"; content := "";
              category := "main"; card_cross_references := []; tags := [];
              created := ""; modified := "" |}
           (manager_with_index titled_index) [("1", "", "Alpha Beta")]).
  - reflexivity.
  - apply titled_index_ascii.
  - vm_compute. reflexivity.
Defined.

(** ** Restarting after a card was created *)

Lemma world_frame_refl st : world_frame st st.
Proof. by repeat split. Qed.

Lemma world_frame_trans st1 st2 st3 :
  world_frame st1 st2 → world_frame st2 st3 → world_frame st1 st3.
Proof. unfold world_frame. intros ? ?. destruct_and!. repeat split; congruence. Qed.

Lemma generate_world content_ category_ st id st' :
  generate_zettel_number content_ category_ st = (Ok id, st') →
  world_frame st st'
  ∧ xrefs_doc (env st') = xrefs_doc (env st)
  ∧ grows (numbering_scheme st) (numbering_scheme st')
  ∧ (write_error (env st) (path_join (metadata_path st) "numbering_scheme.json") = None →
     scheme_doc (env st') = Stored (numbering_scheme st')).
Proof.
  destruct (generate_shape content_ category_ st) as (body & Hbody & ->).
  unfold bind. destruct (body st) as [[x|e] st1] eqn:E; [|done].
  apply Hbody in E as (Hf & Hg & _). unfold numbering_frame in Hf. destruct_and!.
  rewrite save_numbering_scheme_run. intros [= <- <-].
  rewrite scheme_saved_scheme. unfold scheme_saved, world_frame.
  destruct (write_error (env st1) _) eqn:Hw; simpl; repeat split; try done; congruence.
Qed.

Lemma write_file_world p t st r st' :
  write_file p t st = (r, st') →
  world_frame st st'
  ∧ xrefs_doc (env st') = xrefs_doc (env st)
  ∧ index_doc (env st') = index_doc (env st).
Proof.
  unfold write_file. destruct (write_error _ _); intros [= <- <-]; by repeat split.
Qed.

Lemma mirror_step_world extra text st r st' :
  match extra with
  | None | Some "" => ret tt
  | Some extra_folder =>
      let! _ := mkdir extra_folder in
      write_file (path_join extra_folder "00_zettel.md") text
  end st = (r, st') →
  world_frame st st'
  ∧ xrefs_doc (env st') = xrefs_doc (env st)
  ∧ index_doc (env st') = index_doc (env st).
Proof.
  destruct extra as [[|ch ef]|]; simpl.
  - intros [= <- <-]. by repeat split.
  - unfold bind. destruct (mkdir _ st) as [[[]|e] st1] eqn:E;
      apply mkdir_state in E as ->.
    + apply write_file_world.
    + intros [= <- <-]. by repeat split.
  - intros [= <- <-]. by repeat split.
Qed.

Lemma add_cross_references_world s ts st r st' :
  _add_cross_references s ts st = (r, st') →
  world_frame st st'
  ∧ (ts = [] → xrefs_doc (env st') = xrefs_doc (env st))
  ∧ (ts ≠ [] →
     write_error (env st) (path_join (metadata_path st) "cross_references.json") = None →
     xrefs_doc (env st') = Stored (cross_references st')).
Proof.
  unfold _add_cross_references. destruct ts as [|t ts].
  - intros [= <- <-]. by repeat split.
  - unfold bind, modify, gets, _save_metadata. simpl.
    destruct (write_error _ _) eqn:Hw; intros [= <- <-]; by repeat split.
Qed.

Lemma save_index_world data st r st' :
  _save_metadata "card_index.json" set_index_doc data st = (r, st') →
  world_frame st st'
  ∧ xrefs_doc (env st') = xrefs_doc (env st)
  ∧ (write_error (env st) (path_join (metadata_path st) "card_index.json") = None →
     index_doc (env st') = Stored data).
Proof.
  unfold _save_metadata. destruct (write_error _ _) eqn:Hw; intros [= <- <-];
    by repeat split.
Qed.

Lemma create_inv_world now1 now2 content_ title_ category_ xrefs tags_ extra st c st' :
  create_zettel_card now1 now2 content_ title_ category_ xrefs tags_ extra st
    = (Ok (Card c), st') →
  (∀ p, write_error (env st) p = None) →
  world_frame st st'
  ∧ grows (numbering_scheme st) (numbering_scheme st')
  ∧ scheme_doc (env st') = Stored (numbering_scheme st')
  ∧ index_doc (env st') = Stored (card_index st')
  ∧ (default [] xrefs = [] → xrefs_doc (env st') = xrefs_doc (env st)
                             ∧ cross_references st' = cross_references st)
  ∧ (default [] xrefs ≠ [] → xrefs_doc (env st') = Stored (cross_references st')).
Proof.
  intros Hc Hwr.
  destruct (create_inv_full _ _ _ _ _ _ _ _ _ _ _ Hc)
    as (id0 & st0 & text0 & Hgen0 & _ & _ & _ & Hxr0 & Hns0 & Hsd0 & _).
  revert Hc. unfold create_zettel_card.
  intros (id & st1 & Hgen & H)%bind_inv_ok.
  rewrite Hgen in Hgen0. injection Hgen0 as <- <-.
  destruct (generate_world _ _ _ _ _ Hgen) as (Hw1 & Hx1 & Hg1 & Hs1).
  destruct (generate_frame _ _ _ _ _ Hgen) as (_ & _ & Hcr1 & _).
  apply bind_inv_ok in H as (base & st2 & [= <- <-] & H).
  apply bind_inv_ok in H as ([] & st2 & ->%mkdir_inv & H).
  apply bind_inv_ok in H as (text & st2 & ->%format_card_content_state & H).
  apply try_except_inv_card in H; [|by intros e st3].
  apply bind_inv_ok in H as ([] & st2 & (Hw2 & Hx2 & Hi2)%write_file_world & H).
  apply bind_inv_ok in H as ([] & st3 & (Hw3 & Hx3 & Hi3)%mirror_step_world & H).
  apply bind_inv_ok in H as ([] & st4 & [= <-] & H).
  apply bind_inv_ok in H as ([] & st5 & Ha & H).
  apply bind_inv_ok in H as (index & st6 & [= <- <-] & H).
  apply bind_inv_ok in H as ([] & st7 & Hs & [= <- <-]).
  pose proof (add_cross_references_world _ _ _ _ _ Ha) as (Hw5 & Hx5 & Hx5').
  pose proof (save_index_inv (card_index st5) st5) as (st7' & Hs' & Hxr7 & Hci7 & _).
  rewrite Hs' in Hs. injection Hs as ->.
  pose proof (save_index_world _ _ _ _ Hs') as (Hw7 & Hx7 & Hi7).
  assert (world_frame st st3) as Hw03
    by (eapply world_frame_trans; [eapply world_frame_trans|]; eassumption).
  assert (world_frame st st7) as Hw.
  { eapply world_frame_trans; [exact Hw03|].
    eapply world_frame_trans; [|exact Hw7]. exact Hw5. }
  split; [done|]. split; [by rewrite Hns0|].
  split; [rewrite Hsd0, Hns0; by apply Hs1|].
  split.
  { rewrite Hci7. apply Hi7.
    destruct Hw03 as (_ & _ & _ & Hwe & _). destruct Hw5 as (_ & _ & _ & Hwe5 & _).
    simpl in Hwe5. by rewrite Hwe5, Hwe. }
  split.
  - intros Hnil. split.
    + rewrite Hx7, (Hx5 Hnil). simpl. by rewrite Hx3, Hx2, Hx1.
    + rewrite Hxr0, Hnil. simpl. done.
  - intros Hne. rewrite Hx7, Hxr7. apply Hx5'; [done|].
    destruct Hw03 as (_ & _ & _ & Hwe & _). simpl. by rewrite Hwe.
Qed.

Lemma for_each_mkdir_ok (f : string → string) l st :
  (∀ p, mkdir_error (env st) p = None) →
  for_each (λ x, mkdir (f x)) l st = (Ok tt, st).
Proof.
  intros Hmk. induction l as [|x l IH]; [done|].
  simpl. unfold bind, mkdir at 1. by rewrite Hmk.
Qed.

Lemma new_manager_loaded base metadata w :
  (∀ p, mkdir_error w p = None) →
  numbering_scheme (loaded_state base metadata w) ≠ ∅ →
  new_manager base metadata w = Ok (loaded_state base metadata w).
Proof.
  intros Hmk Hne. unfold new_manager. fold (loaded_state base metadata w).
  unfold bind at 1. unfold mkdir at 1. simpl. rewrite Hmk.
  unfold bind at 1. unfold mkdir at 1. simpl. rewrite Hmk.
  unfold _initialize_structure. unfold bind at 1. unfold gets at 1. cbv beta iota.
  unfold bind at 1. rewrite for_each_mkdir_ok by done.
  unfold bind at 1. unfold gets at 1. cbv beta iota.
  by rewrite decide_False.
Qed.

(** X26: what a successful [create_zettel_card] leaves on disk is what a
    restart loads: when every write goes through and every document can be
    read, a manager made afterwards over the same paths has the card index
    and the numbering scheme of the manager that created the card, and its
    cross-reference graph too when targets were given or the graph was on
    disk before; the restart itself writes nothing. *)
Theorem restart_after_create_round_trip :
  ∀ now1 now2 content_ title_ category_ xrefs tags_ extra st c st',
    create_zettel_card now1 now2 content_ title_ category_ xrefs tags_ extra st
      = (Ok (Card c), st') →
    (∀ p, write_error (env st) p = None) →
    (∀ p, read_error (env st) p = false) →
    (∀ p, mkdir_error (env st) p = None) →
    numbering_scheme st ≠ ∅ →
    ∃ st2,
      new_manager (base_path st) (metadata_path st) (env st') = Ok st2
      ∧ env st2 = env st'
      ∧ card_index st2 = card_index st'
      ∧ numbering_scheme st2 = numbering_scheme st'
      ∧ (default [] xrefs ≠ [] ∨ xrefs_doc (env st) = Stored (cross_references st) →
         cross_references st2 = cross_references st').
Proof.
  intros now1 now2 content_ title_ category_ xrefs tags_ extra st c st'
    Hc Hwr Hrd Hmk Hne.
  destruct (create_inv_world _ _ _ _ _ _ _ _ _ _ _ Hc Hwr)
    as (Hw & Hg & Hsd & Hid & Hx0 & Hx1).
  destruct Hw as (_ & _ & Hme & _ & Hre & _).
  pose proof (grows_nonempty _ _ Hg Hne) as Hne'.
  assert (numbering_scheme (loaded_state (base_path st) (metadata_path st) (env st'))
          = numbering_scheme st') as Hls.
  { unfold loaded_state, _load_metadata. simpl. by rewrite Hsd, Hre, Hrd. }
  exists (loaded_state (base_path st) (metadata_path st) (env st')).
  split; [apply new_manager_loaded; [intros p; by rewrite Hme|by rewrite Hls]|].
  split; [done|]. split; [|split; [done|]].
  - unfold loaded_state, _load_metadata. simpl. by rewrite Hid, Hre, Hrd.
  - unfold loaded_state, _load_metadata. simpl. rewrite Hre, Hrd.
    destruct (decide (default [] xrefs = [])) as [Hnil|Hcons].
    + intros [?|Hsync]; [done|]. destruct (Hx0 Hnil) as (-> & ->). by rewrite Hsync.
    + intros _. by rewrite (Hx1 Hcons).
Qed.

Lemma restart_after_create_round_trip_witness :
  ∃ st2,
    new_manager (base_path (manager_of empty_world))
        (metadata_path (manager_of empty_world)) (env after_first_card) = Ok st2
    ∧ env st2 = env after_first_card
    ∧ card_index st2 = card_index after_first_card
    ∧ numbering_scheme st2 = numbering_scheme after_first_card
    ∧ (default [] (None : option (list string)) ≠ []
       ∨ xrefs_doc (env (manager_of empty_world))
         = Stored (cross_references (manager_of empty_world)) →
       cross_references st2 = cross_references after_first_card).
Proof.
  apply (restart_after_create_round_trip
           "2026-01-01T10:00:00" "2026-01-01T10:00:00" "Notes on rivers" "Rivers" "main"
           None None None (manager_of empty_world)
           {| number := "1"; title := "Rivers"; content := "Notes on rivers";
              category := "main"; card_cross_references := []; tags := [];
              created := "2026-01-01T10:00:00"; modified := "2026-01-01T10:00:00" |}).
  - vm_compute. reflexivity.
  - done.
  - done.
  - done.
  - intros H. by apply (f_equal (λ m : gmap string jval, m !! "last_quote")) in H.
Defined.
